(** * NotionToDiscordNotifier (main.js, version 2.0.0)

    A shallow embedding of the Notion webhook receiver: the property
    extractor, the state store kept in a spreadsheet, the notification
    composer, the Discord notifier, the audit logger and the orchestrator
    [processWebhook], followed by the properties of the specification that
    concern them.

    JavaScript values that the script manipulates are JSON trees; the
    services of the Apps Script host (JSON, Utilities, SpreadsheetApp,
    UrlFetchApp, PropertiesService, Logger) are parameters or explicit state. *)

From Stdlib Require Import ZArith DecimalString DecimalPos DecimalZ Ascii String.
From stdpp Require Import base strings list gmap.

Local Open Scope Z_scope.

(** ** JavaScript values *)

(** A value obtained from [JSON.parse]. Numbers are restricted to integers:
    the script never computes with them, it only tests them for truthiness
    and prints them. [undefined] is not a JSON value; it is the [None] of
    [option json]. *)
#[warnings="-register-all"]
Inductive json : Type :=
| JNull
| JBool (b : bool)
| JNum (n : Z)
| JStr (s : string)
| JArr (items : list json)
| JObj (members : list (string * json)).

Definition nl : string := String (ascii_of_nat 10) EmptyString.
Definition dq : string := String (ascii_of_nat 34) EmptyString.

Definition string_of_Z (n : Z) : string := NilZero.string_of_int (Z.to_int n).

Definition nonempty (s : string) : bool :=
  match s with EmptyString => false | String _ _ => true end.

(** ToBoolean. *)
Definition truthy (v : json) : bool :=
  match v with
  | JNull => false
  | JBool b => b
  | JNum n => negb (n =? 0)
  | JStr s => nonempty s
  | JArr _ | JObj _ => true
  end.

Definition truthy_u (o : option json) : bool :=
  match o with Some v => truthy v | None => false end.

(** [a || b] where [a] may be undefined. *)
Definition or_else (o : option json) (d : json) : json :=
  match o with
  | Some v => if truthy v then v else d
  | None => d
  end.

Fixpoint assoc (k : string) (ms : list (string * json)) : option json :=
  match ms with
  | [] => None
  | (k', v) :: ms' => if String.eqb k k' then Some v else assoc k ms'
  end.

(** [v.k] and [v[k]] for a value [v] that is neither null nor undefined and
    a key that no prototype defines (every key the script reads is such):
    only objects have own members under such keys. *)
Definition get (v : json) (k : string) : option json :=
  match v with
  | JObj ms => assoc k ms
  | _ => None
  end.

(** [v[0]] for a value that is neither null nor undefined. *)
Definition get0 (v : json) : option json :=
  match v with
  | JArr l => l !! 0%nat
  | JObj ms => assoc "0" ms
  | JStr (String c _) => Some (JStr (String c EmptyString))
  | _ => None
  end.

(** Optional chaining [o?.f]. *)
Definition opt (o : option json) (f : json -> option json) : option json :=
  match o with
  | None | Some JNull => None
  | Some v => f v
  end.

(** [a === b]. Primitives are compared by value, arrays and objects by
    reference. Every comparison of the script is between values that come
    out of two different [JSON.parse] calls, or between such a value and a
    cell read from a sheet or a string literal: two arrays or objects that
    meet in a comparison are never the same reference. *)
Definition strict_eq (a b : json) : bool :=
  match a, b with
  | JNull, JNull => true
  | JBool x, JBool y => Bool.eqb x y
  | JNum x, JNum y => (x =? y)
  | JStr x, JStr y => String.eqb x y
  | _, _ => false
  end.

Definition strict_neq (a b : json) : bool := negb (strict_eq a b).

Definition primitive (v : json) : bool :=
  match v with
  | JArr _ | JObj _ => false
  | _ => true
  end.

(** [String(v)], as a template literal applies it. *)
Fixpoint js_to_string (v : json) : string :=
  match v with
  | JNull => "null"
  | JBool true => "true"
  | JBool false => "false"
  | JNum n => string_of_Z n
  | JStr s => s
  | JArr l =>
      String.concat ","
        (List.map (fun x => match x with
                            | JNull => EmptyString
                            | _ => js_to_string x
                            end) l)
  | JObj _ => "[object Object]"
  end.

(** ** Exceptions *)

Record Error : Type := mkError {
  message : string;
  stack : option string;
  toString : string;
}.

Inductive outcome (A : Type) : Type :=
| Ret (a : A)
| Throw (e : Error).
Arguments Ret {A} a.
Arguments Throw {A} e.

(** ** The host's built-ins

    [JSON.parse] throws on text that is not JSON; [JSON.stringify] is
    applied to JSON values only; [Utilities.formatDate (new Date x) tz fmt]
    is a function of [x] for the fixed zone and format the script passes,
    and the host decides what it does with an invalid date; the text of a
    stack trace and of the host's own errors is the host's. *)
Class Host : Type := {
  JSON_parse : string -> outcome json;
  JSON_stringify : json -> string;
  Utilities_formatDate : json -> string -> string -> outcome string;
  Date_toString : Z -> string;
  Error_stack : string -> option string;
  TypeError_null : string -> Error;
  getRange_error : Z -> Error;
}.

(** [new Error(msg)]. *)
Definition new_Error `{Host} (msg : string) : Error :=
  {| message := msg; stack := Error_stack msg; toString := "Error: " +:+ msg |}.

(** ** CONFIG *)

Module CONFIG.
Module PROP_KEYS.
Definition SPREADSHEET_ID : string := "SPREADSHEET_ID_SECRET".
Definition LOG_SHEET_NAME : string := "SHEET_NAME_VALUE".
Definition DISCORD_URL : string := "DISCORD_WEBHOOK_URL_SECRET".
Definition DISCORD_URL_SHAROUSHI : string := "DISCORD_WEBHOOK_URL_SHAROUSHI".
End PROP_KEYS.
Module SHEETS.
Module LOG.
Definition NAME_DEFAULT : string := "NotionWebhookLog".
Definition HEADERS : list string :=
        [ "受信日時"; "企業名"; "ステータス"; "担当"; "全体処理ステータス";
          "Discord通知結果"; "実行ログ・エラー詳細"; "受信データ(raw)";
          "イベント全体(raw)" ].
End LOG.
Module STATE.
Definition NAME : string := "ページ状態履歴".
Definition HEADERS : list string :=
        [ "Page ID"; "Last Known Properties (JSON)" ].
Module COLUMN_INDEX.
Definition PAGE_ID : nat := 0.
Definition PROPERTIES_JSON : nat := 1.
End COLUMN_INDEX.
End STATE.
End SHEETS.
End CONFIG.

(** ** Spreadsheets, the network and the trace log *)

(** A cell holds a date or a value. A blank cell reads as the empty string,
    and is represented by it. *)
Inductive cell : Type :=
| CDate (t : Z)
| CVal (v : json).

Definition blank : cell := CVal (JStr EmptyString).

Definition row : Type := list cell.
Definition sheet : Type := list row.

(** A sheet object is a handle: the spreadsheet's id and the sheet's name. *)
Record Sheet : Type := mkSheet { ss_id : string; sheet_name : string }.

(** What persists between invocations, and what an invocation emits. *)
Record Store : Type := mkStore {
  drive : gmap string (gmap string sheet);
  outbox : list (string * string);
  Logger_log : list string;
}.

(** What an invocation finds around it: the script properties, the clock,
    whether a request to a URL goes through ([None]) or [UrlFetchApp.fetch]
    throws, the error [openById] throws for an id it cannot open, and
    whether appending to the log sheet throws. *)
Record Env : Type := mkEnv {
  props : gmap string string;
  now : Z;
  UrlFetchApp_fetch : string -> string -> option Error;
  openById_error : string -> Error;
  appendRow_error : option Error;
}.

Definition rows_of (h : Sheet) (w : Store) : sheet :=
  default [] (default ∅ (drive w !! ss_id h) !! sheet_name h).

Definition set_rows (h : Sheet) (rs : sheet) (w : Store) : Store :=
  {| drive := <[ss_id h := <[sheet_name h := rs]> (default ∅ (drive w !! ss_id h))]>
                (drive w);
     outbox := outbox w;
     Logger_log := Logger_log w |}.

(** [range.setValue(v)] on the cell of row [r], column [c] (both counted
    from 0 here): rows and cells that do not exist yet are created blank. *)
Definition pad {A} (n : nat) (d : A) (l : list A) : list A :=
  l ++ replicate (n - length l)%nat d.

Definition set_cell (r c : nat) (v : cell) (sh : sheet) : sheet :=
  let sh' := pad (S r) [] sh in
  <[r := <[c := v]> (pad (S c) blank (default [] (sh' !! r)))]> sh'.

(** [sheet.getDataRange().getValues()]: the rectangle from A1 to the last
    row and column that hold something, blank where a row is shorter; an
    empty sheet gives the single blank cell A1. *)
Definition width (sh : sheet) : nat := foldr (fun r w => max (length r) w) 0%nat sh.

Definition getValues (sh : sheet) : list row :=
  match sh with
  | [] => [[blank]]
  | _ => List.map (pad (width sh) blank) sh
  end.

(** ** The state of one invocation *)

Record Info : Type := mkInfo {
  kigyoMei : json;
  status : json;
  tanto : json;
  sharoushi : json;
  pageUrl : json;
  lastEditedTime : string;
}.

Record LogData : Type := mkLogData {
  timestamp : Z;
  rawContents : json;
  fullEventString : string;
  notionInfo : option Info;
  overallStatus : string;
  discordSendStatus : list string;
}.

(** The array [executionLogs], the object [logData] and the variable
    [logSheet] of [processWebhook], which the callees and the [catch] and
    [finally] blocks share, and the world outside. *)
Record St : Type := mkSt {
  executionLogs : list string;
  logData : LogData;
  logSheet : option Sheet;
  world : Store;
}.

Definition M (A : Type) : Type := St -> outcome A * St.

Definition ret {A} (a : A) : M A := fun st => (Ret a, st).

Definition throw {A} (e : Error) : M A := fun st => (Throw e, st).

Definition bind {A B} (m : M A) (k : A -> M B) : M B :=
  fun st =>
    match m st with
    | (Ret a, st') => k a st'
    | (Throw e, st') => (Throw e, st')
    end.

(** [try { m } catch (e) { h e }]: what [m] did to the state before it threw
    stays done. *)
Definition try_catch {A} (m : M A) (h : Error -> M A) : M A :=
  fun st =>
    match m st with
    | (Ret a, st') => (Ret a, st')
    | (Throw e, st') => h e st'
    end.

Definition lift {A} (o : outcome A) : M A := fun st => (o, st).

Declare Scope js_scope.
Delimit Scope js_scope with js.
Notation "'let*' x := m 'in' k" := (bind m (fun x => k))
  (at level 10, x name, m at level 100, k at level 200) : js_scope.
Notation "m ;; k" := (bind m (fun _ => k))
  (at level 100, k at level 200, right associativity) : js_scope.
Local Open Scope js_scope.

Definition push (line : string) : M unit :=
  fun st => (Ret tt, {| executionLogs := executionLogs st ++ [line];
                        logData := logData st;
                        logSheet := logSheet st;
                        world := world st |}).

Definition get_logs : M (list string) := fun st => (Ret (executionLogs st), st).

Definition get_logData : M LogData := fun st => (Ret (logData st), st).

Definition modify_logData (f : LogData -> LogData) : M unit :=
  fun st => (Ret tt, {| executionLogs := executionLogs st;
                        logData := f (logData st);
                        logSheet := logSheet st;
                        world := world st |}).

Definition set_logSheet (h : Sheet) : M unit :=
  fun st => (Ret tt, {| executionLogs := executionLogs st;
                        logData := logData st;
                        logSheet := Some h;
                        world := world st |}).

Definition get_logSheet : M (option Sheet) := fun st => (Ret (logSheet st), st).

Definition get_world : M Store := fun st => (Ret (world st), st).

Definition modify_world (f : Store -> Store) : M unit :=
  fun st => (Ret tt, {| executionLogs := executionLogs st;
                        logData := logData st;
                        logSheet := logSheet st;
                        world := f (world st) |}).

(** [sheet.appendRow(r)]. *)
Definition appendRow (h : Sheet) (r : row) : M unit :=
  modify_world (fun w => set_rows h (rows_of h w ++ [r]) w).

(** [Logger.log(line)]. *)
Definition Logger_log_ (line : string) : M unit :=
  modify_world (fun w => {| drive := drive w;
                            outbox := outbox w;
                            Logger_log := Logger_log w ++ [line] |}).

(** [v.k] on a value that may be null: reading a property of null throws. *)
Definition read `{Host} (v : json) (k : string) : M (option json) :=
  match v with
  | JNull => throw (TypeError_null k)
  | _ => ret (get v k)
  end.

(** ** Configuration and sheets *)

Record Config : Type := mkConfig {
  spreadsheetId : string;
  logSheetName : string;
  stateSheetName : string;
  discordUrl : option string;
  discordUrlSharoushi : option string;
}.

Section Program.
Context `{Host}.
Variable env : Env.

(** [properties.getProperty(key)]: [None] is null. *)
Definition getProp (key : string) : option string := props env !! key.

Definition loadConfig : M Config :=
  match getProp CONFIG.PROP_KEYS.SPREADSHEET_ID with
  | Some (String c id) =>
      push "Configuration loaded successfully." ;;
      ret {| spreadsheetId := String c id;
             logSheetName :=
               match getProp CONFIG.PROP_KEYS.LOG_SHEET_NAME with
               | Some (String c' n) => String c' n
               | _ => CONFIG.SHEETS.LOG.NAME_DEFAULT
               end;
             stateSheetName := CONFIG.SHEETS.STATE.NAME;
             discordUrl := getProp CONFIG.PROP_KEYS.DISCORD_URL;
             discordUrlSharoushi := getProp CONFIG.PROP_KEYS.DISCORD_URL_SHAROUSHI |}
  | _ =>
      push ("FATAL: Script Property " +:+ dq +:+ CONFIG.PROP_KEYS.SPREADSHEET_ID
            +:+ dq +:+ " is not set.") ;;
      throw (new_Error ("Script Property " +:+ dq +:+ CONFIG.PROP_KEYS.SPREADSHEET_ID
                        +:+ dq +:+ " is not set."))
  end.

Definition getOrCreateSheet (spreadsheetId sheetName : string) (headers : list string)
  : M Sheet :=
  try_catch
    (let* w := get_world in
     match drive w !! spreadsheetId with
     | None => throw (openById_error env spreadsheetId)
     | Some spreadsheet =>
         let sheet := {| ss_id := spreadsheetId; sheet_name := sheetName |} in
         match spreadsheet !! sheetName with
         | Some _ => ret sheet
         | None =>
             modify_world (set_rows sheet []) ;;
             match headers with
             | [] => ret sheet
             | _ => appendRow sheet (List.map (fun h => CVal (JStr h)) headers) ;;
                    ret sheet
             end
         end
     end)
    (fun error =>
       throw (new_Error ("Failed to access or setup spreadsheet/sheet. ID: "
                         +:+ spreadsheetId +:+ ", Name: " +:+ sheetName
                         +:+ ". Details: " +:+ message error))).

(** ** Webhook data *)

Record WebhookData : Type := mkWebhookData {
  wd_rawContents : json;
  wd_fullEventString : string;
  notionPageData : option json;
}.

(** The event [e] is a JSON tree, or [None] when it is undefined. *)
Definition parseWebhookEvent (e : option json) : M WebhookData :=
  push "Parsing webhook event..." ;;
  match e with
  | Some ev =>
      if truthy ev then
        let fullEventString := JSON_stringify ev in
        let contents := opt (get ev "postData") (fun pd => get pd "contents") in
        if truthy_u (get ev "postData") && truthy_u contents then
          let rawContents := or_else contents JNull in
          try_catch
            (let* eventData := lift (JSON_parse (js_to_string rawContents)) in
             let* notionPageData := read eventData "data" in
             if truthy_u notionPageData then
               push "Notion Page Data parsed successfully." ;;
               ret {| wd_rawContents := rawContents;
                      wd_fullEventString := fullEventString;
                      notionPageData := notionPageData |}
             else
               push "WARN: 'data' property for Notion page is missing in parsed content." ;;
               ret {| wd_rawContents := rawContents;
                      wd_fullEventString := fullEventString;
                      notionPageData := None |})
            (fun parseError =>
               push ("ERROR: Parsing received contents as JSON failed: "
                     +:+ toString parseError) ;;
               ret {| wd_rawContents := rawContents;
                      wd_fullEventString := fullEventString;
                      notionPageData := None |})
        else
          push "WARN: e.postData or e.postData.contents is missing." ;;
          ret {| wd_rawContents := JStr "e.postData or e.postData.contents is missing";
                 wd_fullEventString := fullEventString;
                 notionPageData := None |}
      else
        push "ERROR: Event object 'e' is undefined or null." ;;
        ret {| wd_rawContents := JStr "N/A";
               wd_fullEventString := "Event object 'e' is undefined or null";
               notionPageData := None |}
  | None =>
      push "ERROR: Event object 'e' is undefined or null." ;;
      ret {| wd_rawContents := JStr "N/A";
             wd_fullEventString := "Event object 'e' is undefined or null";
             notionPageData := None |}
  end.

Definition getPlainText (prop : option json) : option json :=
  opt (opt (opt prop (fun p => get p "title")) get0) (fun t => get t "plain_text").

Definition getStatusName (prop : option json) : option json :=
  opt (opt prop (fun p => get p "status")) (fun s => get s "name").

Definition getSelectName (prop : option json) : option json :=
  opt (opt prop (fun p => get p "select")) (fun s => get s "name").

Definition extractNotionInfo (notionPageData : json) : M Info :=
  let properties := get notionPageData "properties" in
  match properties with
  | Some properties =>
      if truthy properties then
        let* lastEditedTime :=
          (match get notionPageData "last_edited_time" with
           | Some t =>
               if truthy t
               then lift (Utilities_formatDate t "Asia/Tokyo" "yyyy/MM/dd HH:mm:ss")
               else ret "日時不明"
           | None => ret "日時不明"
           end) in
        let info :=
          {| kigyoMei := or_else (getPlainText (get properties "企業名")) (JStr "企業名不明");
             status := or_else (getStatusName (get properties "商談ステータス")) JNull;
             tanto := or_else (getSelectName (get properties "担当")) JNull;
             sharoushi := or_else (getStatusName (get properties "社労士連携")) JNull;
             pageUrl := or_else (get notionPageData "url") (JStr "URL不明");
             lastEditedTime := lastEditedTime |} in
        push ("Extracted Info => 企業名: " +:+ js_to_string (kigyoMei info)
              +:+ ", ステータス: " +:+ js_to_string (or_else (Some (status info)) (JStr "N/A"))
              +:+ ", 担当: " +:+ js_to_string (or_else (Some (tanto info)) (JStr "N/A"))
              +:+ ", 社労士連携: "
              +:+ js_to_string (or_else (Some (sharoushi info)) (JStr "N/A"))) ;;
        ret info
      else
        push "ERROR: 'properties' object is missing in notionPageData." ;;
        ret {| kigyoMei := JStr "企業名不明"; status := JNull; tanto := JNull;
               sharoushi := JNull; pageUrl := JStr "URL不明";
               lastEditedTime := "日時不明" |}
  | None =>
      push "ERROR: 'properties' object is missing in notionPageData." ;;
      ret {| kigyoMei := JStr "企業名不明"; status := JNull; tanto := JNull;
             sharoushi := JNull; pageUrl := JStr "URL不明";
             lastEditedTime := "日時不明" |}
  end.

(** ** State store *)

Record PreviousState : Type := mkPreviousState {
  rowIndex : Z;
  properties : json;
}.

(** [data[i][j]]. *)
Definition at_ (data : list row) (i j : nat) : option cell :=
  match data !! i with
  | Some r => r !! j
  | None => None
  end.

(** [c === pageId] for what [data[i][j]] gave: a date is an object. *)
Definition cell_strict_eq (c : option cell) (v : json) : bool :=
  match c with
  | Some (CVal u) => strict_eq u v
  | _ => false
  end.

(** The text [JSON.parse] sees when it is given what [data[i][j]] gave. *)
Definition cell_text (c : option cell) : string :=
  match c with
  | Some (CVal v) => js_to_string v
  | Some (CDate t) => Date_toString t
  | None => "undefined"
  end.

(** The loop [for (let i = data.length - 1; i > 0; i--)], entered at [i]. *)
Fixpoint getPreviousState_loop (data : list row) (pageId : json) (i : nat)
  : M (option PreviousState) :=
  match i with
  | O =>
      push "No previous state found for this page." ;;
      ret None
  | S j =>
      if cell_strict_eq (at_ data i CONFIG.SHEETS.STATE.COLUMN_INDEX.PAGE_ID) pageId then
        try_catch
          (let* properties :=
             lift (JSON_parse
                     (cell_text (at_ data i CONFIG.SHEETS.STATE.COLUMN_INDEX.PROPERTIES_JSON))) in
           push ("Previous state found at row " +:+ string_of_Z (Z.of_nat i + 1) +:+ ".") ;;
           ret (Some {| rowIndex := Z.of_nat i + 1; properties := properties |}))
          (fun e =>
             push ("ERROR: Failed to parse stored JSON for page " +:+ js_to_string pageId
                   +:+ " at row " +:+ string_of_Z (Z.of_nat i + 1) +:+ ".") ;;
             ret None)
      else getPreviousState_loop data pageId j
  end.

Definition getPreviousState (stateSheet : Sheet) (pageId : json)
  : M (option PreviousState) :=
  push ("Searching for previous state of page ID: " +:+ js_to_string pageId) ;;
  let* w := get_world in
  let data := getValues (rows_of stateSheet w) in
  getPreviousState_loop data pageId (length data - 1).

(** [newProperties] is [None] when the page data has no [properties]:
    [JSON.stringify(undefined)] is undefined, and a cell given undefined is
    left blank. *)
Definition updateCurrentState (stateSheet : Sheet) (pageId : json)
    (newProperties : option json) (rowIndex : Z) : M unit :=
  let newPropertiesJson :=
    match newProperties with
    | Some p => CVal (JStr (JSON_stringify p))
    | None => blank
    end in
  if -1 <? rowIndex then
    (if rowIndex <? 1 then throw (getRange_error rowIndex) else ret tt) ;;
    modify_world (fun w =>
      set_rows stateSheet
        (set_cell (Z.to_nat (rowIndex - 1)) CONFIG.SHEETS.STATE.COLUMN_INDEX.PROPERTIES_JSON
                  newPropertiesJson (rows_of stateSheet w)) w) ;;
    push ("Updated state for page " +:+ js_to_string pageId +:+ " at row "
          +:+ string_of_Z rowIndex +:+ ".")
  else
    appendRow stateSheet [CVal pageId; newPropertiesJson] ;;
    push ("Appended new state for page " +:+ js_to_string pageId +:+ ".").

(** ** Messages *)

Definition na : json := JStr "（未設定）".

Definition status_line_changed (prevStatus currentStatus : json) : string :=
  "**商談ステータス:** **`" +:+ js_to_string prevStatus +:+ "`** → **`"
  +:+ js_to_string currentStatus +:+ "`** に変更" +:+ nl.

Definition status_line_plain (currentStatus : json) : string :=
  "**商談ステータス:** " +:+ js_to_string currentStatus +:+ nl.

Definition tanto_line_changed (prevTanto currentTanto : json) : string :=
  "**担当:** **`" +:+ js_to_string prevTanto +:+ "`** → **`"
  +:+ js_to_string currentTanto +:+ "`** に変更" +:+ nl.

Definition tanto_line_plain (currentTanto : json) : string :=
  "**担当:** " +:+ js_to_string currentTanto +:+ nl.

Definition createStatusChangeMessage (previousInfo : option Info) (currentInfo : Info)
  : string :=
  let messageBody := "**企業名:** " +:+ js_to_string (kigyoMei currentInfo) +:+ nl in
  let prevStatus :=
    match previousInfo with
    | Some p => or_else (Some (status p)) na
    | None => na
    end in
  let currentStatus := or_else (Some (status currentInfo)) na in
  let prevTanto :=
    match previousInfo with
    | Some p => or_else (Some (tanto p)) na
    | None => na
    end in
  let currentTanto := or_else (Some (tanto currentInfo)) na in
  let messageBody :=
    messageBody +:+
    (if strict_neq currentStatus prevStatus
     then status_line_changed prevStatus currentStatus
     else status_line_plain currentStatus) in
  let messageBody :=
    messageBody +:+
    (if strict_neq currentTanto prevTanto
     then tanto_line_changed prevTanto currentTanto
     else tanto_line_plain currentTanto) in
  let messageBody :=
    messageBody +:+ "**最終更新日時:** " +:+ lastEditedTime currentInfo +:+ nl in
  "**【商談ステータス】更新通知** 📢" +:+ nl +:+
  "------------------------------------" +:+ nl +:+
  messageBody +:+
  "------------------------------------" +:+ nl +:+
  "詳細はこちら: " +:+ js_to_string (pageUrl currentInfo).

Definition createSharoushiUpdateMessage (previousInfo : option Info) (currentInfo : Info)
  : string :=
  let prevSharoushi :=
    match previousInfo with
    | Some p => or_else (Some (sharoushi p)) (JStr "（未設定）")
    | None => JStr "（変更前データなし）"
    end in
  let changeMessage :=
    "**`" +:+ js_to_string prevSharoushi +:+ "`** → **`"
    +:+ js_to_string (or_else (Some (sharoushi currentInfo)) (JStr "（未設定）"))
    +:+ "`** に変更されました。" in
  "**【社労士連携】更新通知** 🔔" +:+ nl +:+
  "------------------------------------" +:+ nl +:+
  "**企業名:** " +:+ js_to_string (kigyoMei currentInfo) +:+ nl +:+
  "**担当:** " +:+ js_to_string (or_else (Some (tanto currentInfo)) (JStr "（未設定）")) +:+ nl +:+
  "**連携ステータス:** " +:+ changeMessage +:+ nl +:+
  "------------------------------------" +:+ nl +:+
  "詳細はこちら: " +:+ js_to_string (pageUrl currentInfo).

(** ** Discord *)

Record SendResult : Type := mkSendResult {
  send_status : string;
  error : option string;
}.

Record NotificationResult : Type := mkNotificationResult {
  type_ : string;
  result : SendResult;
}.

Definition discord_prefix : string := "https://discord.com/api/webhooks/".

(** [!webhookUrl || !webhookUrl.startsWith(...)]. *)
Definition url_unusable (webhookUrl : option string) : bool :=
  match webhookUrl with
  | Some url => negb (nonempty url) || negb (String.prefix discord_prefix url)
  | None => true
  end.

Definition sendDiscordMessage (webhookUrl : option string) (payload : json)
  : M SendResult :=
  match webhookUrl with
  | Some url =>
      if url_unusable webhookUrl then
        push "WARN: Discord Webhook URL is not configured or invalid. Skipping notification." ;;
        ret {| send_status := "URL未設定/不正のためスキップ"; error := None |}
      else
        let body := JSON_stringify payload in
        modify_world (fun w => {| drive := drive w;
                                  outbox := outbox w ++ [(url, body)];
                                  Logger_log := Logger_log w |}) ;;
        match UrlFetchApp_fetch env url body with
        | None =>
            push "Successfully sent message to Discord." ;;
            ret {| send_status := "送信成功"; error := None |}
        | Some e =>
            push ("ERROR: Sending message to Discord failed: " +:+ toString e) ;;
            ret {| send_status := "送信エラー"; error := Some (toString e) |}
        end
  | None =>
      push "WARN: Discord Webhook URL is not configured or invalid. Skipping notification." ;;
      ret {| send_status := "URL未設定/不正のためスキップ"; error := None |}
  end.

Definition isNewPage (previousInfo : option Info) : bool :=
  match previousInfo with None => true | Some _ => false end.

Definition needsStatusNotification (previousInfo : option Info) (currentInfo : Info)
  : bool :=
  match previousInfo with
  | None => truthy (status currentInfo) || truthy (tanto currentInfo)
  | Some p => strict_neq (status p) (status currentInfo)
              || strict_neq (tanto p) (tanto currentInfo)
  end.

Definition needsSharoushiNotification (previousInfo : option Info) (currentInfo : Info)
  : bool :=
  match previousInfo with
  | None => truthy (sharoushi currentInfo)
  | Some p => strict_neq (sharoushi p) (sharoushi currentInfo)
  end.

Definition type_status : string := "ステータス・担当者変更".
Definition type_sharoushi : string := "社労士連携".

Definition handleNotifications (previousInfo : option Info) (currentInfo : Info)
    (config : Config) : M (list NotificationResult) :=
  let results := [] in
  let* results :=
    (if needsStatusNotification previousInfo currentInfo then
       push "Status or Tanto change detected. Preparing notification." ;;
       let message := createStatusChangeMessage previousInfo currentInfo in
       let* result :=
         sendDiscordMessage (discordUrl config) (JObj [("content", JStr message)]) in
       ret (results ++ [{| type_ := type_status; result := result |}])
     else ret results) in
  let* results :=
    (if needsSharoushiNotification previousInfo currentInfo then
       push "Sharoushi status change detected. Preparing notification." ;;
       let message := createSharoushiUpdateMessage previousInfo currentInfo in
       let* result :=
         sendDiscordMessage (discordUrlSharoushi config) (JObj [("content", JStr message)]) in
       ret (results ++ [{| type_ := type_sharoushi; result := result |}])
     else ret results) in
  (match results with
   | [] => push "No significant changes detected for notification."
   | _ => ret tt
   end) ;;
  ret results.

(** ** Audit log *)

Definition logToSheet (sheet : Sheet) (logData : LogData) : M unit :=
  try_catch
    (let '(kigyoMei, status, tanto) :=
       match notionInfo logData with
       | Some i => (kigyoMei i, status i, tanto i)
       | None => (JStr "N/A", JStr "N/A", JStr "N/A")
       end in
     let* executionLogs := get_logs in
     match appendRow_error env with
     | Some e => throw e
     | None =>
         appendRow sheet
           [ CDate (timestamp logData);
             CVal kigyoMei;
             CVal status;
             CVal tanto;
             CVal (JStr (overallStatus logData));
             CVal (JStr (String.concat nl (discordSendStatus logData)));
             CVal (JStr (String.concat nl executionLogs));
             CVal (rawContents logData);
             CVal (JStr (fullEventString logData)) ]
     end)
    (fun error =>
       Logger_log_ ("CRITICAL: Error appending final log to spreadsheet: "
                    +:+ toString error +:+ nl +:+ default "undefined" (stack error))).

(** ** The orchestrator *)

Definition status_success : string := "成功".
Definition status_partial : string := "一部エラー".
Definition status_fatal : string := "致命的エラー".

Definition set_overallStatus (s : string) (d : LogData) : LogData :=
  {| timestamp := timestamp d; rawContents := rawContents d;
     fullEventString := fullEventString d; notionInfo := notionInfo d;
     overallStatus := s; discordSendStatus := discordSendStatus d |}.

Definition set_discordSendStatus (l : list string) (d : LogData) : LogData :=
  {| timestamp := timestamp d; rawContents := rawContents d;
     fullEventString := fullEventString d; notionInfo := notionInfo d;
     overallStatus := overallStatus d; discordSendStatus := l |}.

Definition set_notionInfo (i : Info) (d : LogData) : LogData :=
  {| timestamp := timestamp d; rawContents := rawContents d;
     fullEventString := fullEventString d; notionInfo := Some i;
     overallStatus := overallStatus d; discordSendStatus := discordSendStatus d |}.

Definition set_raw (wd : WebhookData) (d : LogData) : LogData :=
  {| timestamp := timestamp d; rawContents := wd_rawContents wd;
     fullEventString := wd_fullEventString wd; notionInfo := notionInfo d;
     overallStatus := overallStatus d; discordSendStatus := discordSendStatus d |}.

Definition has_error (r : NotificationResult) : bool :=
  match error (result r) with
  | Some s => nonempty s
  | None => false
  end.

(** The [try] block of [processWebhook]. *)
Definition processWebhook_try (e : option json) : M unit :=
  let* config := loadConfig in
  let* logSheet :=
    getOrCreateSheet (spreadsheetId config) (logSheetName config)
                     CONFIG.SHEETS.LOG.HEADERS in
  set_logSheet logSheet ;;
  let* stateSheet :=
    getOrCreateSheet (spreadsheetId config) (stateSheetName config)
                     CONFIG.SHEETS.STATE.HEADERS in
  let* webhookData := parseWebhookEvent e in
  modify_logData (set_raw webhookData) ;;
  match notionPageData webhookData with
  | None => throw (new_Error "Notion page data or Page ID could not be parsed.")
  | Some currentPageData =>
      if negb (truthy currentPageData) || negb (truthy_u (get currentPageData "id")) then
        throw (new_Error "Notion page data or Page ID could not be parsed.")
      else
        let pageId := or_else (get currentPageData "id") JNull in
        let* currentInfo := extractNotionInfo currentPageData in
        modify_logData (set_notionInfo currentInfo) ;;
        let* previousState := getPreviousState stateSheet pageId in
        let* previousInfo :=
          (match previousState with
           | Some ps =>
               let* i := extractNotionInfo (JObj [("properties", properties ps)]) in
               ret (Some i)
           | None => ret None
           end) in
        let* notificationResults := handleNotifications previousInfo currentInfo config in
        modify_logData
          (set_discordSendStatus
             (List.map (fun r => type_ r +:+ ": " +:+ send_status (result r))
                       notificationResults)) ;;
        (if existsb has_error notificationResults
         then modify_logData (set_overallStatus status_partial)
         else ret tt) ;;
        updateCurrentState stateSheet pageId (get currentPageData "properties")
          (match previousState with Some ps => rowIndex ps | None => -1 end)
  end.

(** [try { m } catch (e) { h e } finally { f }]. *)
Definition try_catch_finally {A} (m : M A) (h : Error -> M A) (f : M unit) : M A :=
  fun st =>
    match try_catch m h st with
    | (r, st') =>
        match f st' with
        | (Ret _, st'') => (r, st'')
        | (Throw e, st'') => (Throw e, st'')
        end
    end.

Record Response : Type := mkResponse {
  r_status : string;
  r_message : string;
}.

(** The [catch] and [finally] blocks of [processWebhook]. *)
Definition processWebhook_catch (error : Error) : M unit :=
  push ("Critical Error: " +:+ message error +:+ " " +:+ nl
        +:+ default EmptyString (stack error)) ;;
  modify_logData (set_overallStatus status_fatal) ;;
  Logger_log_ ("Critical Error in processWebhook: " +:+ toString error).

Definition processWebhook_finally : M unit :=
  let* logSheet := get_logSheet in
  match logSheet with
  | Some logSheet =>
      let* logData := get_logData in
      logToSheet logSheet logData
  | None =>
      let* executionLogs := get_logs in
      Logger_log_ ("CRITICAL: Log sheet was not available. Logs:" +:+ nl
                   +:+ String.concat nl executionLogs)
  end.

Definition processWebhook_m (e : option json) : M Response :=
  try_catch_finally (processWebhook_try e) processWebhook_catch processWebhook_finally ;;
  push "--- Webhook Execution End ---" ;;
  let* executionLogs := get_logs in
  Logger_log_ (String.concat nl executionLogs) ;;
  let* logData := get_logData in
  ret {| r_status := overallStatus logData; r_message := "Webhook processed." |}.

(** The state in which [processWebhook] starts, in a world [w]. *)
Definition initial (w : Store) : St :=
  {| executionLogs := ["--- Webhook Execution Start ---"];
     logData := {| timestamp := now env;
                   rawContents := JStr "N/A";
                   fullEventString := "N/A";
                   notionInfo := None;
                   overallStatus := status_success;
                   discordSendStatus := [] |};
     logSheet := None;
     world := w |}.

Definition processWebhook (e : option json) (w : Store) : outcome Response * St :=
  processWebhook_m e (initial w).

(** [ContentService.createTextOutput(...).setMimeType(...)]. *)
Record TextOutput : Type := mkTextOutput {
  content : string;
  mimeType : string;
}.

Definition doPost (e : option json) (w : Store) : outcome TextOutput * Store :=
  match processWebhook e w with
  | (Ret result, st) =>
      (Ret {| content :=
                JSON_stringify (JObj [("status", JStr (r_status result));
                                      ("message", JStr (r_message result))]);
              mimeType := "JSON" |},
       world st)
  | (Throw e, st) => (Throw e, world st)
  end.

End Program.

(** ** A concrete host

    A small JSON codec (compact text, integers, the two escapes a string
    needs) and plain answers for the other built-ins: an instance of [Host]
    on which the script can be run. *)

Module MiniJSON.

Definition backslash : ascii := ascii_of_nat 92.
Definition quote : ascii := ascii_of_nat 34.

Definition is_num (c : ascii) : bool :=
  let n := nat_of_ascii c in
  (Nat.eqb n 45 || (Nat.leb 48 n && Nat.leb n 57))%bool.

Definition needs_escape (c : ascii) : bool :=
  (Ascii.eqb c quote || Ascii.eqb c backslash)%bool.

(** Every printer takes the text that follows. *)
Fixpoint escape_k (s k : string) : string :=
  match s with
  | EmptyString => k
  | String c r =>
      if needs_escape c then String backslash (String c (escape_k r k))
      else String c (escape_k r k)
  end.

Definition print_string_k (s k : string) : string :=
  String quote (escape_k s (String quote k)).

Fixpoint print_k (v : json) (k : string) : string :=
  match v with
  | JNull => "null" +:+ k
  | JBool true => "true" +:+ k
  | JBool false => "false" +:+ k
  | JNum n => string_of_Z n +:+ k
  | JStr s => print_string_k s k
  | JArr l =>
      String "[" 
        (match l with
         | [] => String "]" k
         | x :: xs =>
             print_k x
               ((fix elems (xs : list json) : string :=
                   match xs with
                   | [] => String "]" k
                   | y :: ys => String "," (print_k y (elems ys))
                   end) xs)
         end)
  | JObj ms =>
      String "{" 
        (match ms with
         | [] => String "}" k
         | (key, x) :: xs =>
             print_string_k key (String ":" (print_k x
               ((fix members (xs : list (string * json)) : string :=
                   match xs with
                   | [] => String "}" k
                   | (key', y) :: ys =>
                       String "," (print_string_k key' (String ":" (print_k y (members ys))))
                   end) xs)))
         end)
  end.

Definition print (v : json) : string := print_k v EmptyString.

(** The text of a string after its opening quote, up to the closing one. *)
Fixpoint parse_string (s : string) : option (string * string) :=
  match s with
  | EmptyString => None
  | String c r =>
      if Ascii.eqb c quote then Some (EmptyString, r)
      else if Ascii.eqb c backslash then
        match r with
        | String c2 r2 =>
            if needs_escape c2 then
              match parse_string r2 with
              | Some (t, r') => Some (String c2 t, r')
              | None => None
              end
            else None
        | EmptyString => None
        end
      else
        match parse_string r with
        | Some (t, r') => Some (String c t, r')
        | None => None
        end
  end.

Fixpoint span_num (s : string) : string * string :=
  match s with
  | EmptyString => (EmptyString, EmptyString)
  | String c r =>
      if is_num c then
        let '(a, b) := span_num r in (String c a, b)
      else (EmptyString, s)
  end.

Definition parse_number (s : string) : option (json * string) :=
  let '(digits, r) := span_num s in
  match NilZero.int_of_string digits with
  | Some d => Some (JNum (Z.of_int d), r)
  | None => None
  end.

Fixpoint parse_value (fuel : nat) (s : string) : option (json * string) :=
  match fuel with
  | O => None
  | S fuel =>
      match s with
      | EmptyString => None
      | String c r =>
          if Ascii.eqb c "n" then
            match r with
            | String "u" (String "l" (String "l" r')) => Some (JNull, r')
            | _ => None
            end
          else if Ascii.eqb c "t" then
            match r with
            | String "r" (String "u" (String "e" r')) => Some (JBool true, r')
            | _ => None
            end
          else if Ascii.eqb c "f" then
            match r with
            | String "a" (String "l" (String "s" (String "e" r'))) =>
                Some (JBool false, r')
            | _ => None
            end
          else if Ascii.eqb c "[" then
            match r with
            | String c' r' =>
                if Ascii.eqb c' "]" then Some (JArr [], r')
                else
                  match parse_elements fuel r with
                  | Some (l, r') => Some (JArr l, r')
                  | None => None
                  end
            | EmptyString => None
            end
          else if Ascii.eqb c "{" then
            match r with
            | String c' r' =>
                if Ascii.eqb c' "}" then Some (JObj [], r')
                else
                  match parse_members fuel r with
                  | Some (ms, r') => Some (JObj ms, r')
                  | None => None
                  end
            | EmptyString => None
            end
          else if Ascii.eqb c quote then
            match parse_string r with
            | Some (t, r') => Some (JStr t, r')
            | None => None
            end
          else if is_num c then parse_number s
          else None
      end
  end
with parse_elements (fuel : nat) (s : string) : option (list json * string) :=
  match fuel with
  | O => None
  | S fuel =>
      match parse_value fuel s with
      | Some (v, String c r) =>
          if Ascii.eqb c "," then
            match parse_elements fuel r with
            | Some (l, r') => Some (v :: l, r')
            | None => None
            end
          else if Ascii.eqb c "]" then Some ([v], r)
          else None
      | _ => None
      end
  end
with parse_members (fuel : nat) (s : string) : option (list (string * json) * string) :=
  match fuel with
  | O => None
  | S fuel =>
      match s with
      | String c r =>
          if Ascii.eqb c quote then
            match parse_string r with
            | Some (key, String c1 r1) =>
                if Ascii.eqb c1 ":" then
                  match parse_value fuel r1 with
                  | Some (v, String c2 r2) =>
                      if Ascii.eqb c2 "," then
                        match parse_members fuel r2 with
                        | Some (ms, r') => Some ((key, v) :: ms, r')
                        | None => None
                        end
                      else if Ascii.eqb c2 "}" then Some ([(key, v)], r2)
                      else None
                  | _ => None
                  end
                else None
            | _ => None
            end
          else None
      | EmptyString => None
      end
  end.

(** The text after the first element of an array, and after the first
    member of an object, as [print_k] writes it. *)
Fixpoint print_elements_tail (xs : list json) (k : string) : string :=
  match xs with
  | [] => String "]" k
  | y :: ys => String "," (print_k y (print_elements_tail ys k))
  end.

Fixpoint print_members_tail (xs : list (string * json)) (k : string) : string :=
  match xs with
  | [] => String "}" k
  | (key, y) :: ys =>
      String "," (print_string_k key (String ":" (print_k y (print_members_tail ys k))))
  end.

(** The fuel [parse_value] needs for a value. *)
Fixpoint size (v : json) : nat :=
  match v with
  | JArr l => S ((fix sizes (l : list json) : nat :=
                    match l with
                    | [] => O
                    | x :: xs => S (size x + sizes xs)
                    end) l)
  | JObj ms => S ((fix sizes (ms : list (string * json)) : nat :=
                     match ms with
                     | [] => O
                     | (_, x) :: xs => S (size x + sizes xs)
                     end) ms)
  | _ => 1%nat
  end.

Fixpoint size_elements (l : list json) : nat :=
  match l with
  | [] => O
  | x :: xs => S (size x + size_elements xs)
  end.

Fixpoint size_members (ms : list (string * json)) : nat :=
  match ms with
  | [] => O
  | (_, x) :: xs => S (size x + size_members xs)
  end.

(** A text that does not continue a number. *)
Definition ends_number (k : string) : Prop :=
  match k with
  | EmptyString => True
  | String c _ => is_num c = false
  end.

(** With enough fuel, the text of [v] parses back to [v]. *)
Definition parses (v : json) : Prop :=
  forall fuel k, (size v <= fuel)%nat -> ends_number k ->
    parse_value fuel (print_k v k) = Some (v, k).

(** The text of [v] is at least as long as the fuel [v] needs. *)
Definition fits (v : json) : Prop :=
  forall k, (size v + String.length k <= String.length (print_k v k))%nat.

Definition SyntaxError (text : string) : Error :=
  {| message := "Unexpected token in JSON: " +:+ text;
     stack := None;
     toString := "SyntaxError: Unexpected token in JSON: " +:+ text |}.

Definition parse (text : string) : outcome json :=
  match parse_value (S (String.length text)) text with
  | Some (v, EmptyString) => Ret v
  | _ => Throw (SyntaxError text)
  end.

(** A date is given as text and formats to that text; anything else is an
    invalid date, on which formatting throws. *)
Definition formatDate (d : json) (timeZone format : string) : outcome string :=
  match d with
  | JStr s => Ret s
  | _ => Throw {| message := "Invalid argument: date"; stack := None;
                  toString := "Exception: Invalid argument: date" |}
  end.

#[global] Instance host : Host := {|
  JSON_parse := parse;
  JSON_stringify := print;
  Utilities_formatDate := formatDate;
  Date_toString := fun t => "Date(" +:+ string_of_Z t +:+ ")";
  Error_stack := fun _ => None;
  TypeError_null := fun k =>
    {| message := "Cannot read properties of null (reading '" +:+ k +:+ "')";
       stack := None;
       toString := "TypeError: Cannot read properties of null (reading '" +:+ k +:+ "')" |};
  getRange_error := fun r =>
    {| message := "The starting row of the range is too small.";
       stack := None;
       toString := "Exception: The starting row of the range is too small." |};
|}.

End MiniJSON.

(** ** Vocabulary of the properties *)

(** The state after [lines] were pushed on [executionLogs]. *)
Definition add_logs (lines : list string) (st : St) : St :=
  {| executionLogs := executionLogs st ++ lines;
     logData := logData st;
     logSheet := logSheet st;
     world := world st |}.

(** The record the extractor returns when there are no properties. *)
Definition unknown_info : Info :=
  {| kigyoMei := JStr "企業名不明"; status := JNull; tanto := JNull;
     sharoushi := JNull; pageUrl := JStr "URL不明"; lastEditedTime := "日時不明" |}.

(** A world with one spreadsheet and nothing else, the script properties
    that point to it, and an environment in which every request goes
    through. *)
Definition demo_world : Store :=
  {| drive := {[ "SS1" := ∅ ]}; outbox := []; Logger_log := [] |}.

Definition demo_error : Error :=
  {| message := "unavailable"; stack := None; toString := "Exception: unavailable" |}.

Definition demo_props : gmap string string :=
  {[ CONFIG.PROP_KEYS.SPREADSHEET_ID := "SS1";
     CONFIG.PROP_KEYS.DISCORD_URL := "https://discord.com/api/webhooks/1/a";
     CONFIG.PROP_KEYS.DISCORD_URL_SHAROUSHI := "https://discord.com/api/webhooks/2/b" ]}.

Definition demo_env : Env :=
  {| props := demo_props; now := 0;
     UrlFetchApp_fetch := fun _ _ => None;
     openById_error := fun _ => demo_error;
     appendRow_error := None |}.

(** The event of a POST request whose body is [body]. *)
Definition post (body : string) : option json :=
  Some (JObj [("postData", JObj [("contents", JStr body)])]).

(** The status message around its two lines, as [createStatusChangeMessage]
    assembles it. *)
Definition status_message_frame (currentInfo : Info) (statusLine tantoLine : string)
  : string :=
  "**【商談ステータス】更新通知** 📢" +:+ nl +:+
  "------------------------------------" +:+ nl +:+
  (((("**企業名:** " +:+ js_to_string (kigyoMei currentInfo) +:+ nl) +:+ statusLine)
    +:+ tantoLine)
   +:+ "**最終更新日時:** " +:+ lastEditedTime currentInfo +:+ nl) +:+
  "------------------------------------" +:+ nl +:+
  "詳細はこちら: " +:+ js_to_string (pageUrl currentInfo).

(** Hoare triples over [M]: [Q] after a return, [E] after a throw. *)
Definition hoare {A} (P : St -> Prop) (m : M A) (Q : A -> St -> Prop)
    (E : Error -> St -> Prop) : Prop :=
  forall st, P st ->
    match m st with
    | (Ret a, st') => Q a st'
    | (Throw e, st') => E e st'
    end.

(** [m] leaves the component [proj] of the state as it found it. *)
Definition keeps {A B} (proj : St -> B) (m : M A) : Prop :=
  forall st, proj (m st).2 = proj st.

(** [m] maintains the invariant [I], whether it returns or throws. *)
Definition preserves {A} (I : St -> Prop) (m : M A) : Prop :=
  hoare I m (fun _ => I) (fun _ => I).

(** The overall status is one of the two the [try] block can leave. *)
Definition status_not_fatal (st : St) : Prop :=
  overallStatus (logData st) = status_success \/
  overallStatus (logData st) = status_partial.

Definition upd_logData (f : LogData -> LogData) (st : St) : St :=
  {| executionLogs := executionLogs st; logData := f (logData st);
     logSheet := logSheet st; world := world st |}.

Definition upd_logSheet (h : Sheet) (st : St) : St :=
  {| executionLogs := executionLogs st; logData := logData st;
     logSheet := Some h; world := world st |}.

Definition upd_world (f : Store -> Store) (st : St) : St :=
  {| executionLogs := executionLogs st; logData := logData st;
     logSheet := logSheet st; world := f (world st) |}.

(** What [processWebhook] derives from the page data and the previous
    state. *)
Definition pageId_of (currentPageData : json) : json :=
  or_else (get currentPageData "id") JNull.

Definition rowIndex_of (previousState : option PreviousState) : Z :=
  match previousState with Some ps => rowIndex ps | None => -1 end.

Definition sendStatus_of (results : list NotificationResult) : list string :=
  List.map (fun r => type_ r +:+ ": " +:+ send_status (result r)) results.

(** The steps of a [try] block of [processWebhook] that runs to its end,
    from [st] to [st']. *)
Inductive try_steps `{Host} (env : Env) (e : option json) (st st' : St) : Prop :=
| TrySteps (config : Config) (logSheet stateSheet : Sheet) (webhookData : WebhookData)
    (currentPageData : json) (currentInfo : Info)
    (previousState : option PreviousState) (previousInfo : option Info)
    (results : list NotificationResult) (st1 st2 st3 st4 st5 st6 st7 st8 : St)
    (ts_loadConfig : loadConfig env st = (Ret config, st1))
    (ts_getLogSheet :
       getOrCreateSheet env (spreadsheetId config) (logSheetName config)
         CONFIG.SHEETS.LOG.HEADERS st1 = (Ret logSheet, st2))
    (ts_getStateSheet :
       getOrCreateSheet env (spreadsheetId config) (stateSheetName config)
         CONFIG.SHEETS.STATE.HEADERS (upd_logSheet logSheet st2)
       = (Ret stateSheet, st3))
    (ts_parse : parseWebhookEvent e st3 = (Ret webhookData, st4))
    (ts_pageData : notionPageData webhookData = Some currentPageData)
    (ts_truthy : truthy currentPageData = true)
    (ts_id : truthy_u (get currentPageData "id") = true)
    (ts_extract :
       extractNotionInfo currentPageData (upd_logData (set_raw webhookData) st4)
       = (Ret currentInfo, st5))
    (ts_getPreviousState :
       getPreviousState stateSheet (pageId_of currentPageData)
         (upd_logData (set_notionInfo currentInfo) st5)
       = (Ret previousState, st6))
    (ts_extractPrevious :
       match previousState with
       | Some ps =>
           exists i, extractNotionInfo (JObj [("properties", properties ps)]) st6
                     = (Ret i, st7) /\ previousInfo = Some i
       | None => st7 = st6 /\ previousInfo = None
       end)
    (ts_handle :
       handleNotifications env previousInfo currentInfo config st7 = (Ret results, st8))
    (ts_update :
       updateCurrentState stateSheet (pageId_of currentPageData)
         (get currentPageData "properties") (rowIndex_of previousState)
         (let st8' := upd_logData (set_discordSendStatus (sendStatus_of results)) st8 in
          if existsb has_error results
          then upd_logData (set_overallStatus status_partial) st8'
          else st8')
       = (Ret tt, st')).

(** Delivery on the channel configured under [key] cannot fail: its URL is
    absent or not a Discord webhook URL, so that sending is skipped, or
    requests to it go through. *)
Definition channel_cannot_fail (env : Env) (key : string) : Prop :=
  url_unusable (props env !! key) = true \/
  forall url body, props env !! key = Some url -> UrlFetchApp_fetch env url body = None.

(** A page with an assignee, the body of a webhook that carries it, and
    an environment in which no Discord URL is configured and every request
    would fail. *)
Definition demo_page : json :=
  JObj [("id", JStr "P1");
        ("properties", JObj [("担当", JObj [("select", JObj [("name", JStr "田中")])])])].

Definition demo_body : string := MiniJSON.print (JObj [("data", demo_page)]).

Definition demo_env_no_url : Env :=
  {| props := {[ CONFIG.PROP_KEYS.SPREADSHEET_ID := "SS1" ]}; now := 0;
     UrlFetchApp_fetch := fun _ _ => Some demo_error;
     openById_error := fun _ => demo_error;
     appendRow_error := None |}.

(** [postData.contents] is absent from the event: the event itself, its
    [postData] or the contents are undefined or falsy. *)
Definition contents_absent (e : option json) : bool :=
  match e with
  | None => true
  | Some ev =>
      negb (truthy ev)
      || negb (truthy_u (get ev "postData"))
      || negb (truthy_u (opt (get ev "postData") (fun pd => get pd "contents")))
  end.

(** The configuration [loadConfig] returns when the spreadsheet id is [id]. *)
Definition config_of (env : Env) (id : string) : Config :=
  {| spreadsheetId := id;
     logSheetName :=
       match props env !! CONFIG.PROP_KEYS.LOG_SHEET_NAME with
       | Some (String c n) => String c n
       | _ => CONFIG.SHEETS.LOG.NAME_DEFAULT
       end;
     stateSheetName := CONFIG.SHEETS.STATE.NAME;
     discordUrl := props env !! CONFIG.PROP_KEYS.DISCORD_URL;
     discordUrlSharoushi := props env !! CONFIG.PROP_KEYS.DISCORD_URL_SHAROUSHI |}.

Definition header_row (headers : list string) : row :=
  List.map (fun h => CVal (JStr h)) headers.

(** The sheet exists in the world. *)
Definition sheet_exists (h : Sheet) (w : Store) : bool :=
  match drive w !! ss_id h with
  | Some spreadsheet => bool_decide (is_Some (spreadsheet !! sheet_name h))
  | None => false
  end.

(** The world after [getOrCreateSheet] found or created the sheet with a
    non-empty header row. *)
Definition acquire (h : Sheet) (headers : list string) (w : Store) : Store :=
  if sheet_exists h w then w else set_rows h [header_row headers] w.

Definition log_sheet_of (env : Env) (id : string) : Sheet :=
  {| ss_id := id; sheet_name := logSheetName (config_of env id) |}.

Definition state_sheet_of (id : string) : Sheet :=
  {| ss_id := id; sheet_name := CONFIG.SHEETS.STATE.NAME |}.

(** The state in which the [try] block of [processWebhook] has loaded the
    configuration and acquired the log sheet and the state sheet. *)
Definition after_setup (env : Env) (id : string) (st : St) : St :=
  upd_world (acquire (state_sheet_of id) CONFIG.SHEETS.STATE.HEADERS)
    (upd_logSheet (log_sheet_of env id)
       (upd_world (acquire (log_sheet_of env id) CONFIG.SHEETS.LOG.HEADERS)
          (add_logs ["Configuration loaded successfully."] st))).

(** The audit row of an invocation on which nothing was extracted. *)
Definition audit_row_NA (env : Env) (overall trace : string) (raw : json) (full : string)
  : row :=
  [ CDate (now env); CVal (JStr "N/A"); CVal (JStr "N/A"); CVal (JStr "N/A");
    CVal (JStr overall); CVal (JStr EmptyString); CVal (JStr trace); CVal raw;
    CVal (JStr full) ].

(** The row [logToSheet] appends for [logData] and the trace [logs]. *)
Definition audit_row (d : LogData) (logs : list string) : row :=
  let '(kigyoMei, status, tanto) :=
    match notionInfo d with
    | Some i => (kigyoMei i, status i, tanto i)
    | None => (JStr "N/A", JStr "N/A", JStr "N/A")
    end in
  [ CDate (timestamp d); CVal kigyoMei; CVal status; CVal tanto;
    CVal (JStr (overallStatus d));
    CVal (JStr (String.concat nl (discordSendStatus d)));
    CVal (JStr (String.concat nl logs));
    CVal (rawContents d);
    CVal (JStr (fullEventString d)) ].

(** An event with no [postData.contents], and an environment in which no
    script property is set. *)
Definition demo_event_no_contents : option json := Some (JObj [("postData", JObj [])]).

Definition demo_env_unconfigured : Env :=
  {| props := ∅; now := 0;
     UrlFetchApp_fetch := fun _ _ => None;
     openById_error := fun _ => demo_error;
     appendRow_error := None |}.

(** The row the loop of [getPreviousState] stops at, entered at [i]: the
    last row at or above [i], the header row apart, whose key is the page
    id. *)
Fixpoint last_match (data : list row) (pageId : json) (i : nat) : option nat :=
  match i with
  | O => None
  | S j =>
      if cell_strict_eq (at_ data i CONFIG.SHEETS.STATE.COLUMN_INDEX.PAGE_ID) pageId
      then Some i
      else last_match data pageId j
  end.

(** What [getPreviousState] returns on a sheet with the rows [sh]. *)
Definition lookup_previous `{Host} (sh : sheet) (pageId : json) : option PreviousState :=
  let data := getValues sh in
  match last_match data pageId (length data - 1) with
  | Some i =>
      match JSON_parse (cell_text (at_ data i CONFIG.SHEETS.STATE.COLUMN_INDEX.PROPERTIES_JSON)) with
      | Ret p => Some {| rowIndex := Z.of_nat i + 1; properties := p |}
      | Throw _ => None
      end
  | None => None
  end.

(** The cell [updateCurrentState] writes for the properties. *)
Definition payload_cell `{Host} (newProperties : option json) : cell :=
  match newProperties with
  | Some p => CVal (JStr (JSON_stringify p))
  | None => blank
  end.

(** The rows of the state sheet after [updateCurrentState]. *)
Definition updated_rows `{Host} (pageId : json) (newProperties : option json)
    (rowIndex : Z) (sh : sheet) : sheet :=
  if -1 <? rowIndex then
    set_cell (Z.to_nat (rowIndex - 1)) CONFIG.SHEETS.STATE.COLUMN_INDEX.PROPERTIES_JSON
             (payload_cell newProperties) sh
  else sh ++ [[CVal pageId; payload_cell newProperties]].

(** The record the extractor returns for page data whose last-edited time
    formats to [time] (or is absent, with [time] the placeholder). *)
Definition info_of (notionPageData : json) (time : string) : Info :=
  match get notionPageData "properties" with
  | Some properties =>
      if truthy properties then
        {| kigyoMei := or_else (getPlainText (get properties "企業名")) (JStr "企業名不明");
           status := or_else (getStatusName (get properties "商談ステータス")) JNull;
           tanto := or_else (getSelectName (get properties "担当")) JNull;
           sharoushi := or_else (getStatusName (get properties "社労士連携")) JNull;
           pageUrl := or_else (get notionPageData "url") (JStr "URL不明");
           lastEditedTime := time |}
      else unknown_info
  | None => unknown_info
  end.

(** The page data [processWebhook] builds around stored properties, and
    the record the extractor returns for it. *)
Definition previous_page (properties : json) : json := JObj [("properties", properties)].

Definition previous_info (properties : json) : Info :=
  info_of (previous_page properties) "日時不明".

(** The state after step 6 of [processWebhook] recorded the outcomes of
    the notifications. *)
Definition record_results (results : list NotificationResult) (st : St) : St :=
  let st' := upd_logData (set_discordSendStatus (sendStatus_of results)) st in
  if existsb has_error results
  then upd_logData (set_overallStatus status_partial) st'
  else st'.

(** The state after step 7 wrote the properties of the page to the state
    sheet of the spreadsheet [id]. *)
Definition persist `{Host} (id : string) (currentPageData : json)
    (previousState : option PreviousState) (st : St) : St :=
  upd_world
    (fun w => set_rows (state_sheet_of id)
                (updated_rows (pageId_of currentPageData)
                   (get currentPageData "properties") (rowIndex_of previousState)
                   (rows_of (state_sheet_of id) w)) w) st.

(** What the parser and the extractor return does not depend on the state
    they run in; these read it off a run in an empty state. *)
Definition empty_state : St :=
  {| executionLogs := [];
     logData := {| timestamp := 0; rawContents := JNull; fullEventString := EmptyString;
                   notionInfo := None; overallStatus := EmptyString;
                   discordSendStatus := [] |};
     logSheet := None;
     world := {| drive := ∅; outbox := []; Logger_log := [] |} |}.

(** The page data the event carries, if any. *)
Definition event_page `{Host} (e : option json) : option json :=
  match (parseWebhookEvent e empty_state).1 with
  | Ret wd => notionPageData wd
  | Throw _ => None
  end.

(** The record extracted from page data, or the exception. *)
Definition extracted `{Host} (notionPageData : json) : outcome Info :=
  (extractNotionInfo notionPageData empty_state).1.

(** A world whose state sheet holds, for page [P1], a payload that is not
    JSON. *)
Definition demo_world_corrupt : Store :=
  {| drive :=
       {[ "SS1" :=
            {[ CONFIG.SHEETS.STATE.NAME :=
                 [ header_row CONFIG.SHEETS.STATE.HEADERS;
                   [CVal (JStr "P1"); CVal (JStr "{oops")] ] ]} ]};
     outbox := []; Logger_log := [] |}.

(** [getDataRange().getValues()[i][j]] on a sheet with the rows [sh]. *)
Definition obs (sh : sheet) (i j : nat) : option cell := at_ (getValues sh) i j.

(** The contract of the JSON built-ins the script relies on: parsing the
    text [JSON.stringify] gives for a JSON value yields that value. *)
Definition JSON_round_trip `{Host} : Prop :=
  forall v, JSON_parse (JSON_stringify v) = Ret v.

(** The sheet [sh] holds [payload] for the page [pageId]: the row the loop
    of [getPreviousState] stops at is the row [k], and its second cell is
    [payload]. *)
Definition stored (sh : sheet) (pageId : json) (payload : cell) (k : nat) : Prop :=
  last_match (getValues sh) pageId (length (getValues sh) - 1) = Some k /\
  exists r, sh !! k = Some r /\ r !! 1%nat = Some payload.

(** The page data of the event is typed as Notion sends it, as far as the
    script looks: the page id and the three tracked values are primitives
    (strings, when present), and the page data has properties. *)
Definition typed_payload `{Host} (e : option json) : Prop :=
  forall cpd info,
    event_page e = Some cpd -> extracted cpd = Ret info ->
    primitive (pageId_of cpd) = true /\
    is_Some (get cpd "properties") /\
    primitive (status info) = true /\
    primitive (tanto info) = true /\
    primitive (sharoushi info) = true.

(** Every state sheet of the world has its header row. *)
Definition state_sheets_have_header (w : Store) : Prop :=
  forall id, sheet_exists (state_sheet_of id) w = true ->
             rows_of (state_sheet_of id) w <> [].

(** A page whose assignee name is an array, and the body that carries it. *)
Definition demo_page_array : json :=
  JObj [("id", JStr "P1");
        ("properties", JObj [("担当", JObj [("select", JObj [("name", JArr [JStr "田中"])])])])].

Definition demo_body_array : string := MiniJSON.print (JObj [("data", demo_page_array)]).

(** The state-history table as the script maintains it: a header row,
    then rows that hold a key and a payload that deserialises, with at
    most one row per page identifier. *)
Definition has_row (sh : sheet) (pageId : json) (k : nat) : Prop :=
  (0 < k)%nat /\
  exists r key, sh !! k = Some r /\ r !! 0%nat = Some (CVal key) /\
                strict_eq key pageId = true.

Definition state_inv `{Host} (sh : sheet) : Prop :=
  sh <> [] /\
  (forall j r, (0 < j)%nat -> sh !! j = Some r ->
     exists key c p, r !! 0%nat = Some (CVal key) /\ r !! 1%nat = Some c /\
                     JSON_parse (cell_text (Some c)) = Ret p) /\
  (forall pageId j1 j2, has_row sh pageId j1 -> has_row sh pageId j2 -> j1 = j2).

(** A page event that carries no properties. *)
Definition demo_page_bare : json := JObj [("id", JStr "P1")].

Definition demo_body_bare : string := MiniJSON.print (JObj [("data", demo_page_bare)]).

(** ** Vocabulary for the properties of the whole script *)

(** The request [sendDiscordMessage] issues for a message: none when the
    URL is absent or not a Discord webhook URL. *)
Definition request `{Host} (webhookUrl : option string) (message : string)
  : list (string * string) :=
  match webhookUrl with
  | Some url =>
      if url_unusable webhookUrl then []
      else [(url, JSON_stringify (JObj [("content", JStr message)]))]
  | None => []
  end.

(** Its outcome, in an environment. *)
Definition outcome_of `{Host} (env : Env) (webhookUrl : option string) (message : string)
  : SendResult :=
  match webhookUrl with
  | Some url =>
      if url_unusable webhookUrl
      then {| send_status := "URL未設定/不正のためスキップ"; error := None |}
      else
        match UrlFetchApp_fetch env url (JSON_stringify (JObj [("content", JStr message)])) with
        | None => {| send_status := "送信成功"; error := None |}
        | Some e => {| send_status := "送信エラー"; error := Some (toString e) |}
        end
  | None => {| send_status := "URL未設定/不正のためスキップ"; error := None |}
  end.

(** The requests of one invocation, in the order they are issued, and the
    results [handleNotifications] returns for them. *)
Definition requests_of `{Host} (previousInfo : option Info) (currentInfo : Info)
    (config : Config) : list (string * string) :=
  (if needsStatusNotification previousInfo currentInfo
   then request (discordUrl config) (createStatusChangeMessage previousInfo currentInfo)
   else [])
  ++ (if needsSharoushiNotification previousInfo currentInfo
      then request (discordUrlSharoushi config)
             (createSharoushiUpdateMessage previousInfo currentInfo)
      else []).

Definition results_of `{Host} (env : Env) (previousInfo : option Info) (currentInfo : Info)
    (config : Config) : list NotificationResult :=
  (if needsStatusNotification previousInfo currentInfo
   then [{| type_ := type_status;
            result := outcome_of env (discordUrl config)
                        (createStatusChangeMessage previousInfo currentInfo) |}]
   else [])
  ++ (if needsSharoushiNotification previousInfo currentInfo
      then [{| type_ := type_sharoushi;
               result := outcome_of env (discordUrlSharoushi config)
                           (createSharoushiUpdateMessage previousInfo currentInfo) |}]
      else []).

(** An environment in which the Discord URLs are set and every request
    fails. *)
Definition demo_env_failing : Env :=
  {| props := demo_props; now := 0;
     UrlFetchApp_fetch := fun _ _ => Some demo_error;
     openById_error := fun _ => demo_error;
     appendRow_error := None |}.

(** The page [demo_page] after its assignee changed, and the body that
    carries it. *)
Definition demo_page_changed : json :=
  JObj [("id", JStr "P1");
        ("properties", JObj [("担当", JObj [("select", JObj [("name", JStr "佐藤")])])])].

Definition demo_body_changed : string := MiniJSON.print (JObj [("data", demo_page_changed)]).

(** The event carries no page that [processWebhook] can work on: no page
    data, page data without an id, or page data whose last-edited time the
    host rejects. *)
Definition page_unusable `{Host} (e : option json) : Prop :=
  match event_page e with
  | None => True
  | Some currentPageData =>
      truthy_u (get currentPageData "id") = false \/
      exists err, extracted currentPageData = Throw err
  end.

(** The lines the last statements of [processWebhook] hand to [Logger.log]
    when no log sheet is available, for the caught error [err] and the
    trace [trace]. *)
Definition fallback_lines (err : Error) (trace : list string) : list string :=
  [ "Critical Error in processWebhook: " +:+ toString err;
    "CRITICAL: Log sheet was not available. Logs:" +:+ nl +:+ String.concat nl trace;
    String.concat nl (trace ++ ["--- Webhook Execution End ---"]) ].

(** A body that is not JSON. *)
Definition demo_body_garbled : string := "{oops".

(** The environment [env] in which appending to the log sheet fails with
    [o], or goes through when [o] is [None]. *)
Definition with_appendRow_error (env : Env) (o : option Error) : Env :=
  {| props := props env; now := now env;
     UrlFetchApp_fetch := UrlFetchApp_fetch env;
     openById_error := openById_error env;
     appendRow_error := o |}.

(** Every row of [sh] is still in [sh'], at its index and with its cells,
    the second one apart. *)
Definition rows_kept (sh sh' : sheet) : Prop :=
  forall j r, sh !! j = Some r ->
    exists r', sh' !! j = Some r' /\
               forall c x, c <> 1%nat -> r !! c = Some x -> r' !! c = Some x.

(** A tracked value as Notion gives it: null, or a name that is not empty,
    and that is not the text the messages show for an unset value. *)
Definition name_or_unset (v : json) : Prop :=
  v = JNull \/ exists s, v = JStr s /\ nonempty s = true /\ JStr s <> na.

(** The value a message compares and shows for the previous record. *)
Definition shown_before (field : Info -> json) (previousInfo : option Info) : json :=
  match previousInfo with
  | Some p => or_else (Some (field p)) na
  | None => na
  end.

(** The trace holds at least the lines [l], at its beginning. *)
Definition trace_from (l : list string) (st : St) : Prop :=
  l `prefix_of` executionLogs st.

(** [a !== b] as a proposition: [a] and [b] are not one and the same
    primitive value. An array or an object differs from every value it is
    compared with. *)
Definition differs (a b : json) : Prop := a <> b \/ primitive a = false.

(** When the status message and the liaison message are due, for the
    previous record (none for a new page) and the current one. *)
Definition status_notification_due (previousInfo : option Info) (currentInfo : Info)
  : Prop :=
  match previousInfo with
  | None => status currentInfo <> JNull \/ tanto currentInfo <> JNull
  | Some p => differs (status p) (status currentInfo) \/
              differs (tanto p) (tanto currentInfo)
  end.

Definition liaison_notification_due (previousInfo : option Info) (currentInfo : Info)
  : Prop :=
  match previousInfo with
  | None => sharoushi currentInfo <> JNull
  | Some p => differs (sharoushi p) (sharoushi currentInfo)
  end.

(** The two lines [createStatusChangeMessage] renders for the status and
    for the assignee. *)
Definition status_line (previousInfo : option Info) (currentInfo : Info) : string :=
  let prevStatus := shown_before status previousInfo in
  let currentStatus := or_else (Some (status currentInfo)) na in
  if strict_neq currentStatus prevStatus
  then status_line_changed prevStatus currentStatus
  else status_line_plain currentStatus.

Definition tanto_line (previousInfo : option Info) (currentInfo : Info) : string :=
  let prevTanto := shown_before tanto previousInfo in
  let currentTanto := or_else (Some (tanto currentInfo)) na in
  if strict_neq currentTanto prevTanto
  then tanto_line_changed prevTanto currentTanto
  else tanto_line_plain currentTanto.

(** A page with a URL, and the properties it carries. *)
Definition demo_properties : json :=
  JObj [("担当", JObj [("select", JObj [("name", JStr "田中")])])].

Definition demo_page_url : json :=
  JObj [("id", JStr "P1"); ("url", JStr "https://www.notion.so/P1");
        ("properties", demo_properties)].

(** A page with a status. *)
Definition demo_page_status : json :=
  JObj [("properties",
         JObj [("商談ステータス", JObj [("status", JObj [("name", JStr "商談中")])])])].

(** * The receipt-mail script of main.js

    Of the second script the column index of the send list is modelled:
    [getColumnIndexes], with the [trim] of ECMAScript on UTF-8 text. *)

(** White space and line terminators of ECMAScript: U+0009 to U+000D and
    U+0020; U+00A0; U+1680, U+2000 to U+200A, U+2028, U+2029, U+202F,
    U+205F, U+3000 and U+FEFF, by their bytes. *)
Definition ws1 (a : ascii) : bool :=
  let n := N_of_ascii a in (((9 <=? n) && (n <=? 13)) || (n =? 32))%N.

Definition ws2 (a b : ascii) : bool :=
  ((N_of_ascii a =? 194) && (N_of_ascii b =? 160))%N.

Definition ws3 (a b c : ascii) : bool :=
  let '(x, y, z) := (N_of_ascii a, N_of_ascii b, N_of_ascii c) in
  (((x =? 225) && (y =? 154) && (z =? 128))
   || ((x =? 226) && (y =? 128)
       && (((128 <=? z) && (z <=? 138)) || (z =? 168) || (z =? 169) || (z =? 175)))
   || ((x =? 226) && (y =? 129) && (z =? 159))
   || ((x =? 227) && (y =? 128) && (z =? 128))
   || ((x =? 239) && (y =? 187) && (z =? 191)))%N.

(** [s.trimStart()]. *)
Fixpoint trimStart (s : string) : string :=
  match s with
  | EmptyString => EmptyString
  | String a r =>
      if ws1 a then trimStart r
      else
        match r with
        | String b r1 =>
            if ws2 a b then trimStart r1
            else
              match r1 with
              | String c r2 => if ws3 a b c then trimStart r2 else s
              | EmptyString => s
              end
        | EmptyString => s
        end
  end.

(** [trimEnd] on the reversed text: the bytes of a character come last
    first. *)
Fixpoint trimEnd_rev (s : string) : string :=
  match s with
  | EmptyString => EmptyString
  | String c r =>
      if ws1 c then trimEnd_rev r
      else
        match r with
        | String b r1 =>
            if ws2 b c then trimEnd_rev r1
            else
              match r1 with
              | String a r2 => if ws3 a b c then trimEnd_rev r2 else s
              | EmptyString => s
              end
        | EmptyString => s
        end
  end.

(** [s.trim()]. *)
Definition js_trim (s : string) : string :=
  String.rev (trimEnd_rev (String.rev (trimStart s))).

(** ToBoolean of what [getValues] gives for a cell: a date is an object. *)
Definition cell_truthy (c : cell) : bool :=
  match c with
  | CDate _ => true
  | CVal v => truthy v
  end.

Section ReceiptMail.

(** The host's [TypeError] for a call of something that is not a function,
    given the text of the callee. *)
Variable TypeError_not_a_function : string -> Error.

(** [indexes[key] = i] on an object created by [{}]: the key [__proto__]
    is the accessor of the prototype, which ignores a number; every other
    key becomes, or stays, an own property. *)
Definition set_index (key : string) (i : nat) (indexes : gmap string nat)
  : gmap string nat :=
  if String.eqb key "__proto__" then indexes else <[key := i]> indexes.

(** [headers.forEach((header, i) => ...)], from the index [i] on. A truthy
    header that is not a string has no [trim]. *)
Fixpoint getColumnIndexes_from (i : nat) (headers : list cell)
    (indexes : gmap string nat) : outcome (gmap string nat) :=
  match headers with
  | [] => Ret indexes
  | header :: rest =>
      if cell_truthy header then
        match header with
        | CVal (JStr s) =>
            getColumnIndexes_from (S i) rest (set_index (js_trim s) i indexes)
        | _ => Throw (TypeError_not_a_function "header.trim")
        end
      else getColumnIndexes_from (S i) rest indexes
  end.

(** The object returned is read by [colIndex[key]] for keys that no
    prototype defines: a lookup in the map. *)
Definition getColumnIndexes (headers : list cell) : outcome (gmap string nat) :=
  getColumnIndexes_from 0 headers ∅.

End ReceiptMail.

(** The header at [i] is a string that is not empty and trims to [key]. *)
Definition header_named (key : string) (headers : list cell) (i : nat) : Prop :=
  exists s, headers !! i = Some (CVal (JStr s)) /\ nonempty s = true /\ js_trim s = key.

Definition names (key : string) (header : cell) : bool :=
  match header with
  | CVal (JStr s) => nonempty s && String.eqb (js_trim s) key
  | _ => false
  end.

(** The last index of a header that names [key]. *)
Fixpoint last_named (key : string) (headers : list cell) : option nat :=
  match headers with
  | [] => None
  | header :: rest =>
      match last_named key rest with
      | Some k => Some (S k)
      | None => if names key header then Some 0%nat else None
      end
  end.

(** The header row of a send list, with stray white space and a column
    that appears twice. *)
Definition demo_headers : list cell :=
  [ CVal (JStr "契約主名");
    CVal (JStr EmptyString);
    CVal (JStr (" メールアドレス" +:+ nl));
    CVal (JStr "処理ステータス");
    CVal (JStr "　契約主名　") ].

Definition demo_TypeError (callee : string) : Error :=
  {| message := callee +:+ " is not a function"; stack := None;
     toString := "TypeError: " +:+ callee +:+ " is not a function" |}.

(** * Properties *)

#[local] Arguments String.append : simpl never.

(** ** The monad *)

Lemma bind_Ret {A B} (m : M A) (k : A -> M B) st a st1 :
  m st = (Ret a, st1) -> bind m k st = k a st1.
Proof. intros E. unfold bind. now rewrite E. Qed.

Lemma bind_Throw {A B} (m : M A) (k : A -> M B) st e st1 :
  m st = (Throw e, st1) -> bind m k st = (Throw e, st1).
Proof. intros E. unfold bind. now rewrite E. Qed.

Lemma bind_inv {A B} (m : M A) (k : A -> M B) st b st2 :
  bind m k st = (Ret b, st2) ->
  exists a st1, m st = (Ret a, st1) /\ k a st1 = (Ret b, st2).
Proof.
  unfold bind. destruct (m st) as [[a|e] st1]; intros E.
  - exists a, st1. split; [reflexivity | exact E].
  - discriminate E.
Qed.

Lemma add_logs_app ls1 ls2 st : add_logs ls2 (add_logs ls1 st) = add_logs (ls1 ++ ls2) st.
Proof. unfold add_logs. simpl. now rewrite <- app_assoc. Qed.

Lemma add_logs_nil st : add_logs [] st = st.
Proof. destruct st. unfold add_logs. simpl. now rewrite app_nil_r. Qed.

Lemma push_eq line st : push line st = (Ret tt, add_logs [line] st).
Proof. reflexivity. Qed.

(** ** Property extractor *)

Lemma extractNotionInfo_no_properties `{Host} (notionPageData : json) (st : St) :
  truthy_u (get notionPageData "properties") = false ->
  extractNotionInfo notionPageData st
  = (Ret unknown_info,
     add_logs ["ERROR: 'properties' object is missing in notionPageData."] st).
Proof.
  intros Hmiss. unfold extractNotionInfo.
  destruct (get notionPageData "properties") as [p|]; simpl in Hmiss.
  - rewrite Hmiss. reflexivity.
  - reflexivity.
Qed.

(** C3, as the code has it: when the page data has no [properties] (absent,
    or null, false, 0 or the empty string), the extractor does not throw; it
    returns a record whose company name, URL and time are placeholders,
    while status, assignee and liaison status are null. *)
Theorem extractNotionInfo_missing_properties `{Host} (notionPageData : json) (st : St) :
  truthy_u (get notionPageData "properties") = false ->
  exists i st',
    extractNotionInfo notionPageData st = (Ret i, st') /\
    kigyoMei i = JStr "企業名不明" /\
    status i = JNull /\
    tanto i = JNull /\
    sharoushi i = JNull /\
    pageUrl i = JStr "URL不明" /\
    lastEditedTime i = "日時不明".
Proof.
  intros Hmiss. do 2 eexists. split.
  - now apply extractNotionInfo_no_properties.
  - repeat split.
Qed.

Lemma extractNotionInfo_missing_properties_witness :
  exists i st',
    extractNotionInfo (JObj [("id", JStr "P1")]) (initial demo_env demo_world)
    = (Ret i, st') /\
    kigyoMei i = JStr "企業名不明" /\
    status i = JNull /\
    tanto i = JNull /\
    sharoushi i = JNull /\
    pageUrl i = JStr "URL不明" /\
    lastEditedTime i = "日時不明".
Proof. apply extractNotionInfo_missing_properties. reflexivity. Defined.

(** C3 as stated fails: on page data without [properties] the status,
    assignee and liaison status of the record are null, not placeholders. *)
Lemma extractNotionInfo_missing_properties_null :
  let notionPageData := JObj [("id", JStr "P1")] in
  truthy_u (get notionPageData "properties") = false /\
  ~ (exists i st',
        extractNotionInfo notionPageData (initial demo_env demo_world) = (Ret i, st') /\
        kigyoMei i <> JNull /\ status i <> JNull /\ tanto i <> JNull /\
        sharoushi i <> JNull).
Proof.
  split; [reflexivity|].
  intros (i & st' & E & _ & Hs & _).
  rewrite extractNotionInfo_no_properties in E by reflexivity.
  inversion E; subst i. now apply Hs.
Qed.

(** What the extractor returns is null or truthy in the three tracked
    fields: a falsy name becomes null. *)
Lemma or_else_null_truthy (o : option json) :
  truthy (or_else o JNull) = true <-> or_else o JNull <> JNull.
Proof.
  unfold or_else. destruct o as [v|]; [destruct (truthy v) eqn:E|]; simpl.
  - rewrite E. split; [intros _ ->; discriminate E | reflexivity].
  - split; [discriminate | congruence].
  - split; [discriminate | congruence].
Qed.

Lemma extractNotionInfo_tracked `{Host} (notionPageData : json) st i st' :
  extractNotionInfo notionPageData st = (Ret i, st') ->
  exists ps ps' ps'',
    status i = or_else ps JNull /\ tanto i = or_else ps' JNull /\
    sharoushi i = or_else ps'' JNull.
Proof.
  unfold extractNotionInfo. intros E.
  assert (Hunk : (Ret unknown_info : outcome Info, add_logs
            ["ERROR: 'properties' object is missing in notionPageData."] st)
          = (Ret i, st') ->
          exists ps ps' ps'' : option json, status i = or_else ps JNull /\
            tanto i = or_else ps' JNull /\ sharoushi i = or_else ps'' JNull).
  { intros E'. inversion E'; subst. exists None, None, None. repeat split. }
  destruct (get notionPageData "properties") as [p|]; [|exact (Hunk E)].
  destruct (truthy p); [|exact (Hunk E)].
  apply bind_inv in E as (t & st1 & _ & E).
  inversion E; subst. do 3 eexists. repeat split.
Qed.

(** ** Notifier *)

Lemma sendDiscordMessage_skip `{Host} env webhookUrl payload st :
  url_unusable webhookUrl = true ->
  sendDiscordMessage env webhookUrl payload st
  = (Ret {| send_status := "URL未設定/不正のためスキップ"; error := None |},
     add_logs ["WARN: Discord Webhook URL is not configured or invalid. Skipping notification."]
              st).
Proof.
  intros Hu. unfold sendDiscordMessage.
  destruct webhookUrl as [url|]; [rewrite Hu|]; reflexivity.
Qed.

Lemma sendDiscordMessage_returns `{Host} env webhookUrl payload st :
  exists r st', sendDiscordMessage env webhookUrl payload st = (Ret r, st').
Proof.
  unfold sendDiscordMessage.
  destruct webhookUrl as [url|]; [|do 2 eexists; reflexivity].
  destruct (url_unusable (Some url)); [do 2 eexists; reflexivity|].
  unfold bind, modify_world.
  destruct (UrlFetchApp_fetch env url _); do 2 eexists; reflexivity.
Qed.

(** The types of the results of [handleNotifications] are decided by the
    two predicates, each on its own. *)
Lemma handleNotifications_types `{Host} env previousInfo currentInfo config st :
  exists results st',
    handleNotifications env previousInfo currentInfo config st = (Ret results, st') /\
    List.map type_ results
    = (if needsStatusNotification previousInfo currentInfo then [type_status] else [])
      ++ (if needsSharoushiNotification previousInfo currentInfo then [type_sharoushi]
          else []).
Proof.
  unfold handleNotifications.
  destruct (needsStatusNotification previousInfo currentInfo);
    destruct (needsSharoushiNotification previousInfo currentInfo).
  - destruct (sendDiscordMessage_returns env (discordUrl config)
       (JObj [("content", JStr (createStatusChangeMessage previousInfo currentInfo))])
       (add_logs ["Status or Tanto change detected. Preparing notification."] st))
      as (r1 & st1 & E1).
    destruct (sendDiscordMessage_returns env (discordUrlSharoushi config)
       (JObj [("content", JStr (createSharoushiUpdateMessage previousInfo currentInfo))])
       (add_logs ["Sharoushi status change detected. Preparing notification."] st1))
      as (r2 & st2 & E2).
    do 2 eexists. split.
    + unfold bind at 1. unfold bind at 1. rewrite push_eq. unfold bind at 1.
      rewrite E1. unfold ret at 1. unfold bind at 1. unfold bind at 1.
      rewrite push_eq. unfold bind at 1. rewrite E2. reflexivity.
    + reflexivity.
  - destruct (sendDiscordMessage_returns env (discordUrl config)
       (JObj [("content", JStr (createStatusChangeMessage previousInfo currentInfo))])
       (add_logs ["Status or Tanto change detected. Preparing notification."] st))
      as (r1 & st1 & E1).
    do 2 eexists. split.
    + unfold bind at 1. unfold bind at 1. rewrite push_eq. unfold bind at 1.
      rewrite E1. reflexivity.
    + reflexivity.
  - destruct (sendDiscordMessage_returns env (discordUrlSharoushi config)
       (JObj [("content", JStr (createSharoushiUpdateMessage previousInfo currentInfo))])
       (add_logs ["Sharoushi status change detected. Preparing notification."] st))
      as (r2 & st2 & E2).
    do 2 eexists. split.
    + unfold bind at 1. unfold ret at 1. unfold bind at 1. unfold bind at 1.
      rewrite push_eq. unfold bind at 1. rewrite E2. reflexivity.
    + reflexivity.
  - do 2 eexists. split; reflexivity.
Qed.

Lemma type_status_neq_sharoushi : type_status <> type_sharoushi.
Proof. intros E. vm_compute in E. discriminate E. Qed.

(** ** Composer *)

Lemma length_append (s1 s2 : string) :
  String.length (s1 +:+ s2) = (String.length s1 + String.length s2)%nat.
Proof. induction s1 as [|c s1 IH]; simpl; [reflexivity | now rewrite IH]. Qed.

Lemma strict_eq_primitive a b : strict_eq a b = true -> a = b /\ primitive a = true.
Proof.
  destruct a, b; simpl; try discriminate; intros E; split; try reflexivity.
  - apply Bool.eqb_prop in E. now subst.
  - apply Z.eqb_eq in E. now subst.
  - apply String.eqb_eq in E. now subst.
Qed.

Lemma strict_eq_refl a : primitive a = true -> strict_eq a a = true.
Proof.
  destruct a; simpl; try discriminate; intros _; try reflexivity.
  - now destruct b.
  - apply Z.eqb_refl.
  - apply String.eqb_refl.
Qed.

Lemma or_else_na_primitive a :
  primitive a = true -> primitive (or_else (Some a) na) = true.
Proof. intros Ha. unfold or_else. now destruct (truthy a). Qed.

Lemma status_line_plain_neq_changed prev cur :
  status_line_plain cur <> status_line_changed prev cur.
Proof.
  intros E. apply (f_equal String.length) in E.
  unfold status_line_plain, status_line_changed in E.
  rewrite !length_append in E. simpl in E. lia.
Qed.

Lemma tanto_line_plain_neq_changed prev cur :
  tanto_line_plain cur <> tanto_line_changed prev cur.
Proof.
  intros E. apply (f_equal String.length) in E.
  unfold tanto_line_plain, tanto_line_changed in E.
  rewrite !length_append in E. simpl in E. lia.
Qed.

Lemma createStatusChangeMessage_lines previousInfo currentInfo :
  createStatusChangeMessage previousInfo currentInfo
  = status_message_frame currentInfo (status_line previousInfo currentInfo)
      (tanto_line previousInfo currentInfo).
Proof. reflexivity. Qed.

Lemma length_status_message_frame currentInfo :
  exists n,
    forall statusLine tantoLine,
      String.length (status_message_frame currentInfo statusLine tantoLine)
      = (n + String.length statusLine + String.length tantoLine)%nat.
Proof.
  exists (String.length (status_message_frame currentInfo EmptyString EmptyString)).
  intros sl tl. unfold status_message_frame.
  rewrite !length_append. simpl String.length. lia.
Qed.

Lemma status_message_frame_status_neq currentInfo prev cur tantoLine :
  status_message_frame currentInfo (status_line_plain cur) tantoLine
  <> status_message_frame currentInfo (status_line_changed prev cur) tantoLine.
Proof.
  intros E. apply (f_equal String.length) in E.
  destruct (length_status_message_frame currentInfo) as (n & Hn).
  rewrite !Hn in E. unfold status_line_plain, status_line_changed in E.
  rewrite !length_append in E. simpl in E. lia.
Qed.

Lemma status_message_frame_tanto_neq currentInfo prev cur statusLine :
  status_message_frame currentInfo statusLine (tanto_line_plain cur)
  <> status_message_frame currentInfo statusLine (tanto_line_changed prev cur).
Proof.
  intros E. apply (f_equal String.length) in E.
  destruct (length_status_message_frame currentInfo) as (n & Hn).
  rewrite !Hn in E. unfold tanto_line_plain, tanto_line_changed in E.
  rewrite !length_append in E. simpl in E. lia.
Qed.

Lemma shown_unchanged (field : Info -> json) previousInfo currentInfo :
  match previousInfo with Some p => field p | None => JNull end = field currentInfo ->
  primitive (field currentInfo) = true ->
  strict_neq (or_else (Some (field currentInfo)) na) (shown_before field previousInfo)
  = false.
Proof.
  intros Heq Hprim.
  assert (Hshown : shown_before field previousInfo = or_else (Some (field currentInfo)) na).
  { rewrite <- Heq. now destruct previousInfo. }
  rewrite Hshown. unfold strict_neq.
  rewrite strict_eq_refl by now apply or_else_na_primitive. reflexivity.
Qed.

(** C9: when the status is unchanged between the previous and the current
    record (for a new page: is null) and is null or another primitive, as
    the names Notion sends are, the message is the frame around the plain
    status line with the current value, followed by the assignee line; it
    is not the message with an arrow line towards that value in its place.
    The same holds for the assignee. *)
Theorem createStatusChangeMessage_unchanged (previousInfo : option Info)
    (currentInfo : Info) :
  let before (field : Info -> json) :=
    match previousInfo with Some p => field p | None => JNull end in
  let message := createStatusChangeMessage previousInfo currentInfo in
  let currentStatus := or_else (Some (status currentInfo)) na in
  let currentTanto := or_else (Some (tanto currentInfo)) na in
  (before status = status currentInfo -> primitive (status currentInfo) = true ->
   message = status_message_frame currentInfo (status_line_plain currentStatus)
               (tanto_line previousInfo currentInfo) /\
   (forall prev,
      message <> status_message_frame currentInfo (status_line_changed prev currentStatus)
                   (tanto_line previousInfo currentInfo))) /\
  (before tanto = tanto currentInfo -> primitive (tanto currentInfo) = true ->
   message = status_message_frame currentInfo (status_line previousInfo currentInfo)
               (tanto_line_plain currentTanto) /\
   (forall prev,
      message <> status_message_frame currentInfo (status_line previousInfo currentInfo)
                   (tanto_line_changed prev currentTanto))) /\
  (before status = status currentInfo -> primitive (status currentInfo) = true ->
   before tanto = tanto currentInfo -> primitive (tanto currentInfo) = true ->
   message = status_message_frame currentInfo (status_line_plain currentStatus)
               (tanto_line_plain currentTanto)).
Proof.
  intros before message currentStatus currentTanto.
  subst message currentStatus currentTanto.
  assert (Hs : before status = status currentInfo -> primitive (status currentInfo) = true ->
               status_line previousInfo currentInfo
               = status_line_plain (or_else (Some (status currentInfo)) na)).
  { intros Heq Hprim. unfold status_line.
    now rewrite (shown_unchanged status previousInfo currentInfo Heq Hprim). }
  assert (Ht : before tanto = tanto currentInfo -> primitive (tanto currentInfo) = true ->
               tanto_line previousInfo currentInfo
               = tanto_line_plain (or_else (Some (tanto currentInfo)) na)).
  { intros Heq Hprim. unfold tanto_line.
    now rewrite (shown_unchanged tanto previousInfo currentInfo Heq Hprim). }
  rewrite createStatusChangeMessage_lines.
  split; [|split].
  - intros Heq Hprim. rewrite (Hs Heq Hprim). split; [reflexivity|].
    intros prev. apply status_message_frame_status_neq.
  - intros Heq Hprim. rewrite (Ht Heq Hprim). split; [reflexivity|].
    intros prev. apply status_message_frame_tanto_neq.
  - intros Heq Hprim Heq' Hprim'. now rewrite (Hs Heq Hprim), (Ht Heq' Hprim').
Qed.

Lemma createStatusChangeMessage_unchanged_witness :
  let p := {| kigyoMei := JStr "A社"; status := JStr "商談中"; tanto := JStr "田中";
              sharoushi := JNull; pageUrl := JStr "URL不明"; lastEditedTime := "日時不明" |} in
  let c := {| kigyoMei := JStr "A社"; status := JStr "商談中"; tanto := JStr "佐藤";
              sharoushi := JNull; pageUrl := JStr "URL不明"; lastEditedTime := "日時不明" |} in
  createStatusChangeMessage (Some p) c
  = status_message_frame c (status_line_plain (JStr "商談中"))
      (tanto_line_changed (JStr "田中") (JStr "佐藤")).
Proof.
  intros p c.
  destruct (createStatusChangeMessage_unchanged (Some p) c) as [Hs _].
  destruct Hs as [Hmsg _]; [reflexivity|reflexivity|].
  exact Hmsg.
Defined.

(** C9 as stated fails: with an assignee name that is an array, the same in
    the previous and in the current record, the message shows the arrow
    line from the value to itself, because two arrays are never [===]. *)
Lemma createStatusChangeMessage_arrow_on_equal_arrays :
  exists p c,
    extracted (previous_page
                 (JObj [("担当", JObj [("select", JObj [("name", JArr [JStr "田中"])])])]))
    = Ret p /\
    extracted demo_page_array = Ret c /\
    status p = status c /\ tanto p = tanto c /\
    js_to_string (tanto c) = "田中" /\
    createStatusChangeMessage (Some p) c
    = status_message_frame c (status_line_plain na)
        (tanto_line_changed (tanto p) (tanto c)) /\
    tanto_line_changed (tanto p) (tanto c)
    = "**担当:** **`田中`** → **`田中`** に変更" +:+ nl.
Proof.
  do 2 eexists. split; [vm_compute; reflexivity|]. split; [vm_compute; reflexivity|].
  repeat split; vm_compute; reflexivity.
Qed.

(** ** Reasoning about [M] *)

Lemma hoare_ret {A} (P : St -> Prop) (a : A) Q E :
  (forall st, P st -> Q a st) -> hoare P (ret a) Q E.
Proof. intros HQ st HP. now apply HQ. Qed.

Lemma hoare_throw {A} (P : St -> Prop) e (Q : A -> St -> Prop) (E : Error -> St -> Prop) :
  (forall st, P st -> E e st) -> hoare P (throw e) Q E.
Proof. intros HE st HP. now apply HE. Qed.

Lemma hoare_bind {A B} (P : St -> Prop) (m : M A) (k : A -> M B) R Q E :
  hoare P m R E -> (forall a, hoare (R a) (k a) Q E) -> hoare P (bind m k) Q E.
Proof.
  intros Hm Hk st HP. specialize (Hm st HP). unfold bind.
  destruct (m st) as [[a|e] st1]; [now apply Hk | exact Hm].
Qed.

Lemma hoare_try_catch {A} (P : St -> Prop) (m : M A) h Q E' E :
  hoare P m Q E' -> (forall e, hoare (E' e) (h e) Q E) -> hoare P (try_catch m h) Q E.
Proof.
  intros Hm Hh st HP. specialize (Hm st HP). unfold try_catch.
  destruct (m st) as [[a|e] st1]; [exact Hm | now apply Hh].
Qed.

Lemma hoare_conseq {A} (P P' : St -> Prop) (m : M A) (Q Q' : A -> St -> Prop)
    (E E' : Error -> St -> Prop) :
  hoare P' m Q' E' -> (forall st, P st -> P' st) ->
  (forall a st, Q' a st -> Q a st) -> (forall e st, E' e st -> E e st) ->
  hoare P m Q E.
Proof.
  intros Hm HP HQ HE st Hst. specialize (Hm st (HP st Hst)).
  destruct (m st) as [[a|e] st1]; auto.
Qed.

Lemma keeps_ret {A B} (proj : St -> B) (a : A) : keeps proj (ret a).
Proof. intros st. reflexivity. Qed.

Lemma keeps_throw {A B} (proj : St -> B) e : keeps proj (throw e : M A).
Proof. intros st. reflexivity. Qed.

Lemma keeps_lift {A B} (proj : St -> B) (o : outcome A) : keeps proj (lift o).
Proof. intros st. reflexivity. Qed.

Lemma keeps_bind {A B C} (proj : St -> C) (m : M A) (k : A -> M B) :
  keeps proj m -> (forall a, keeps proj (k a)) -> keeps proj (bind m k).
Proof.
  intros Hm Hk st. specialize (Hm st). unfold bind.
  destruct (m st) as [[a|e] st1]; simpl in *; [now rewrite Hk | exact Hm].
Qed.

Lemma keeps_try_catch {A C} (proj : St -> C) (m : M A) h :
  keeps proj m -> (forall e, keeps proj (h e)) -> keeps proj (try_catch m h).
Proof.
  intros Hm Hh st. specialize (Hm st). unfold try_catch.
  destruct (m st) as [[a|e] st1]; simpl in *; [exact Hm | now rewrite Hh].
Qed.

Lemma keeps_hoare {A B} (proj : St -> B) (m : M A) (R : B -> Prop) :
  keeps proj m ->
  hoare (fun st => R (proj st)) m (fun _ st => R (proj st)) (fun _ st => R (proj st)).
Proof.
  intros Hk st HR. specialize (Hk st).
  destruct (m st) as [[a|e] st1]; simpl in *; now rewrite Hk.
Qed.

(** Walks through a computation built from the combinators; the leaves are
    primitives, closed by computation, or calls, closed by [keeps] lemmas
    already proved. *)
Create HintDb keeps discriminated.

Ltac keeps_step :=
  first
    [ apply keeps_ret | apply keeps_throw | apply keeps_lift
    | apply keeps_bind; [|intros ?]
    | apply keeps_try_catch; [|intros ?]
    | match goal with
      | |- keeps _ (match ?x with _ => _ end) => destruct x
      | |- keeps _ (if ?x then _ else _) => destruct x
      end
    | solve [eauto with keeps]
    | solve [intros ?; reflexivity] ].

Ltac keeps_tac := repeat keeps_step.

Section Keeps.
Context `{Host} (env : Env).

(** What each callee leaves alone: [logData], [logSheet] and, for those
    that only log, the world. *)
Lemma loadConfig_keeps_logData : keeps logData (loadConfig env).
Proof. unfold loadConfig. keeps_tac. Qed.

Lemma loadConfig_keeps_logSheet : keeps logSheet (loadConfig env).
Proof. unfold loadConfig. keeps_tac. Qed.

Lemma loadConfig_keeps_world : keeps world (loadConfig env).
Proof. unfold loadConfig. keeps_tac. Qed.

Lemma getOrCreateSheet_keeps_logData id name headers :
  keeps logData (getOrCreateSheet env id name headers).
Proof. unfold getOrCreateSheet. keeps_tac. Qed.

Lemma getOrCreateSheet_keeps_logSheet id name headers :
  keeps logSheet (getOrCreateSheet env id name headers).
Proof. unfold getOrCreateSheet. keeps_tac. Qed.

Lemma getOrCreateSheet_keeps_outbox id name headers :
  keeps (fun st => outbox (world st)) (getOrCreateSheet env id name headers).
Proof. unfold getOrCreateSheet. keeps_tac. Qed.

Lemma read_keeps {B} (proj : St -> B) v k : keeps proj (read v k).
Proof. unfold read. keeps_tac. Qed.

Lemma parseWebhookEvent_keeps_logData e : keeps logData (parseWebhookEvent e).
Proof. unfold parseWebhookEvent, read. keeps_tac. Qed.

Lemma parseWebhookEvent_keeps_logSheet e : keeps logSheet (parseWebhookEvent e).
Proof. unfold parseWebhookEvent, read. keeps_tac. Qed.

Lemma parseWebhookEvent_keeps_world e : keeps world (parseWebhookEvent e).
Proof. unfold parseWebhookEvent, read. keeps_tac. Qed.

Lemma extractNotionInfo_keeps_logData pd : keeps logData (extractNotionInfo pd).
Proof. unfold extractNotionInfo. keeps_tac. Qed.

Lemma extractNotionInfo_keeps_logSheet pd : keeps logSheet (extractNotionInfo pd).
Proof. unfold extractNotionInfo. keeps_tac. Qed.

Lemma extractNotionInfo_keeps_world pd : keeps world (extractNotionInfo pd).
Proof. unfold extractNotionInfo. keeps_tac. Qed.

Lemma getPreviousState_loop_keeps {B} (proj : St -> B) data pageId i :
  (forall st ls, proj (add_logs ls st) = proj st) ->
  keeps proj (getPreviousState_loop data pageId i).
Proof.
  intros Hlogs. induction i as [|j IH]; simpl.
  - apply keeps_bind; [intros st; apply (Hlogs st [_]) | intros; apply keeps_ret].
  - destruct (cell_strict_eq _ _); [|exact IH].
    apply keeps_try_catch.
    + apply keeps_bind; [apply keeps_lift|]. intros p.
      apply keeps_bind; [intros st; apply (Hlogs st [_]) | intros; apply keeps_ret].
    + intros e.
      apply keeps_bind; [intros st; apply (Hlogs st [_]) | intros; apply keeps_ret].
Qed.

Lemma getPreviousState_keeps {B} (proj : St -> B) h pageId :
  (forall st ls, proj (add_logs ls st) = proj st) ->
  keeps proj (getPreviousState h pageId).
Proof.
  intros Hlogs. unfold getPreviousState.
  apply keeps_bind; [intros st; apply (Hlogs st [_])|]. intros _.
  apply keeps_bind; [intros st; reflexivity|]. intros w.
  now apply getPreviousState_loop_keeps.
Qed.

Lemma updateCurrentState_keeps_logData h pageId p r :
  keeps logData (updateCurrentState h pageId p r).
Proof. unfold updateCurrentState. keeps_tac. Qed.

Lemma updateCurrentState_keeps_logSheet h pageId p r :
  keeps logSheet (updateCurrentState h pageId p r).
Proof. unfold updateCurrentState. keeps_tac. Qed.

Lemma updateCurrentState_keeps_outbox h pageId p r :
  keeps (fun st => outbox (world st)) (updateCurrentState h pageId p r).
Proof. unfold updateCurrentState. keeps_tac. Qed.

Lemma sendDiscordMessage_keeps_logData url payload :
  keeps logData (sendDiscordMessage env url payload).
Proof. unfold sendDiscordMessage. keeps_tac. Qed.

Lemma sendDiscordMessage_keeps_logSheet url payload :
  keeps logSheet (sendDiscordMessage env url payload).
Proof. unfold sendDiscordMessage. keeps_tac. Qed.

Lemma sendDiscordMessage_keeps_drive url payload :
  keeps (fun st => drive (world st)) (sendDiscordMessage env url payload).
Proof. unfold sendDiscordMessage. keeps_tac. Qed.

#[local] Hint Resolve sendDiscordMessage_keeps_logData sendDiscordMessage_keeps_logSheet
  sendDiscordMessage_keeps_drive : keeps.

Lemma handleNotifications_keeps_logData p c config :
  keeps logData (handleNotifications env p c config).
Proof. unfold handleNotifications. keeps_tac. Qed.

Lemma handleNotifications_keeps_logSheet p c config :
  keeps logSheet (handleNotifications env p c config).
Proof. unfold handleNotifications. keeps_tac. Qed.

Lemma handleNotifications_keeps_drive p c config :
  keeps (fun st => drive (world st)) (handleNotifications env p c config).
Proof. unfold handleNotifications. keeps_tac. Qed.

Lemma logToSheet_keeps_logData h d : keeps logData (logToSheet env h d).
Proof. unfold logToSheet. destruct (notionInfo d); keeps_tac. Qed.

Lemma logToSheet_keeps_outbox h d :
  keeps (fun st => outbox (world st)) (logToSheet env h d).
Proof. unfold logToSheet. destruct (notionInfo d); keeps_tac. Qed.

End Keeps.

Lemma preserves_bind {A B} I (m : M A) (k : A -> M B) :
  preserves I m -> (forall a, preserves I (k a)) -> preserves I (bind m k).
Proof. intros Hm Hk. eapply hoare_bind; [exact Hm | exact Hk]. Qed.

Lemma preserves_try_catch {A} I (m : M A) h :
  preserves I m -> (forall e, preserves I (h e)) -> preserves I (try_catch m h).
Proof. intros Hm Hh. eapply hoare_try_catch; [exact Hm | exact Hh]. Qed.

Lemma preserves_ret {A} I (a : A) : preserves I (ret a).
Proof. now apply hoare_ret. Qed.

Lemma preserves_throw {A} I e : preserves I (throw e : M A).
Proof. now apply hoare_throw. Qed.

Lemma keeps_preserves {A B} (proj : St -> B) (R : B -> Prop) (m : M A) :
  keeps proj m -> preserves (fun st => R (proj st)) m.
Proof. apply keeps_hoare. Qed.

Lemma keeps_logData_status_not_fatal {A} (m : M A) :
  keeps logData m -> preserves status_not_fatal m.
Proof.
  intros Hk.
  apply (keeps_preserves logData
           (fun d => overallStatus d = status_success \/ overallStatus d = status_partial)).
  exact Hk.
Qed.

(** ** Orchestrator: the response *)

Section Response.
Context `{Host} (env : Env).

Lemma processWebhook_try_status_not_fatal e :
  preserves status_not_fatal (processWebhook_try env e).
Proof.
  unfold processWebhook_try.
  apply preserves_bind; [apply keeps_logData_status_not_fatal, loadConfig_keeps_logData|].
  intros config.
  apply preserves_bind;
    [apply keeps_logData_status_not_fatal, getOrCreateSheet_keeps_logData|].
  intros ls.
  apply preserves_bind; [intros st Hst; exact Hst|]. intros _.
  apply preserves_bind;
    [apply keeps_logData_status_not_fatal, getOrCreateSheet_keeps_logData|].
  intros ss.
  apply preserves_bind;
    [apply keeps_logData_status_not_fatal, parseWebhookEvent_keeps_logData|].
  intros wd.
  apply preserves_bind; [intros st Hst; exact Hst|]. intros _.
  destruct (notionPageData wd) as [cpd|]; [|apply preserves_throw].
  destruct (negb (truthy cpd) || negb (truthy_u (get cpd "id"))); [apply preserves_throw|].
  apply preserves_bind;
    [apply keeps_logData_status_not_fatal, extractNotionInfo_keeps_logData|].
  intros currentInfo.
  apply preserves_bind; [intros st Hst; exact Hst|]. intros _.
  apply preserves_bind;
    [apply keeps_logData_status_not_fatal, getPreviousState_keeps; reflexivity|].
  intros previousState.
  apply preserves_bind.
  { destruct previousState as [ps|]; [|apply preserves_ret].
    apply preserves_bind;
      [apply keeps_logData_status_not_fatal, extractNotionInfo_keeps_logData|].
    intros i. apply preserves_ret. }
  intros previousInfo.
  apply preserves_bind;
    [apply keeps_logData_status_not_fatal, handleNotifications_keeps_logData|].
  intros results.
  apply preserves_bind; [intros st Hst; exact Hst|]. intros _.
  apply preserves_bind.
  { destruct (existsb has_error results); [|apply preserves_ret].
    intros st _. right. reflexivity. }
  intros _.
  apply keeps_logData_status_not_fatal, updateCurrentState_keeps_logData.
Qed.

Lemma processWebhook_catch_eq error st :
  exists st', processWebhook_catch error st = (Ret tt, st') /\
    logData st' = set_overallStatus status_fatal (logData st) /\
    logSheet st' = logSheet st /\
    drive (world st') = drive (world st) /\
    outbox (world st') = outbox (world st).
Proof. eexists. split; [reflexivity|]. repeat split. Qed.

Lemma logToSheet_returns h d st :
  exists st', logToSheet env h d st = (Ret tt, st').
Proof.
  unfold logToSheet, try_catch, bind, get_logs.
  destruct (notionInfo d); destruct (appendRow_error env); eexists; reflexivity.
Qed.

Lemma processWebhook_finally_returns st :
  exists st', processWebhook_finally env st = (Ret tt, st') /\
    logData st' = logData st /\
    outbox (world st') = outbox (world st).
Proof.
  unfold processWebhook_finally, bind, get_logSheet, get_logData, get_logs.
  destruct (logSheet st) as [h|].
  - destruct (logToSheet_returns h (logData st) st) as (st' & E).
    exists st'. split; [exact E|].
    pose proof (logToSheet_keeps_logData env h (logData st) st) as K1.
    pose proof (logToSheet_keeps_outbox env h (logData st) st) as K2.
    rewrite E in K1, K2. simpl in K1, K2. now split.
  - eexists. split; [reflexivity|]. now split.
Qed.

(** The shape of every run: the [try] block returns or is caught, the
    [finally] block runs, and the response carries the overall status. *)
Lemma processWebhook_m_run e st :
  exists st1 st2 st3,
    try_catch (processWebhook_try env e) (processWebhook_catch) st = (Ret tt, st1) /\
    processWebhook_finally env st1 = (Ret tt, st2) /\
    processWebhook_m env e st
    = (Ret {| r_status := overallStatus (logData st2);
              r_message := "Webhook processed." |}, st3) /\
    logData st3 = logData st2 /\
    drive (world st3) = drive (world st2) /\
    outbox (world st3) = outbox (world st2).
Proof.
  assert (Htc : exists st1,
    try_catch (processWebhook_try env e) processWebhook_catch st = (Ret tt, st1)).
  { unfold try_catch. destruct (processWebhook_try env e st) as [[[]|err] st1].
    - now exists st1.
    - destruct (processWebhook_catch_eq err st1) as (st' & E & _). now exists st'. }
  destruct Htc as (st1 & Htc).
  destruct (processWebhook_finally_returns st1) as (st2 & Hfin & _).
  exists st1, st2. eexists. split; [exact Htc|]. split; [exact Hfin|].
  unfold processWebhook_m, try_catch_finally.
  unfold bind at 1. rewrite Htc, Hfin.
  split; [reflexivity|]. repeat split.
Qed.

End Response.

(** After the [try] and [catch] blocks the overall status is one of the
    three, and it is the fatal one exactly when the [try] block threw. *)
Lemma try_catch_status `{Host} env e w st1 :
  try_catch (processWebhook_try env e) processWebhook_catch (initial env w) = (Ret tt, st1) ->
  (exists st_try, processWebhook_try env e (initial env w) = (Ret tt, st_try) /\
                  st1 = st_try /\ status_not_fatal st1) \/
  (exists err st_try, processWebhook_try env e (initial env w) = (Throw err, st_try) /\
                      processWebhook_catch err st_try = (Ret tt, st1) /\
                      overallStatus (logData st1) = status_fatal).
Proof.
  unfold try_catch. intros E.
  pose proof (processWebhook_try_status_not_fatal env e (initial env w)) as Hinv.
  destruct (processWebhook_try env e (initial env w)) as [[[]|err] st_try].
  - left. exists st_try. inversion E; subst. repeat split. apply Hinv. now left.
  - right. exists err, st_try. split; [reflexivity|]. split; [exact E|].
    destruct (processWebhook_catch_eq err st_try) as (st' & E' & Hld & _).
    rewrite E' in E. inversion E; subst. now rewrite Hld.
Qed.

(** C10: every invocation returns a response, never an exception; its
    status is one of the three strings, its message is the constant
    ["Webhook processed."], and the body [doPost] answers with holds these
    two fields only. *)
Theorem processWebhook_response `{Host} env (e : option json) (w : Store) :
  exists resp st,
    processWebhook env e w = (Ret resp, st) /\
    (r_status resp = status_success \/ r_status resp = status_partial \/
     r_status resp = status_fatal) /\
    r_message resp = "Webhook processed." /\
    doPost env e w
    = (Ret {| content :=
                JSON_stringify (JObj [("status", JStr (r_status resp));
                                      ("message", JStr "Webhook processed.")]);
              mimeType := "JSON" |}, world st).
Proof.
  destruct (processWebhook_m_run env e (initial env w))
    as (st1 & st2 & st3 & Htc & Hfin & Hrun & _).
  do 2 eexists. split; [exact Hrun|].
  destruct (processWebhook_finally_returns env st1) as (st2' & Hfin' & Hld & _).
  rewrite Hfin in Hfin'. inversion Hfin'; subst st2'. clear Hfin'.
  split; [|split; [reflexivity|]].
  - simpl. rewrite Hld.
    destruct (try_catch_status env e w st1 Htc)
      as [(st_try & _ & _ & [Hs|Hs]) | (err & st_try & _ & _ & Hs)]; auto.
  - unfold doPost. unfold processWebhook in Hrun. unfold processWebhook.
    rewrite Hrun. reflexivity.
Qed.

(** ** Orchestrator: the steps of a run *)

Lemma processWebhook_try_steps `{Host} env e st st' :
  processWebhook_try env e st = (Ret tt, st') -> try_steps env e st st'.
Proof.
  unfold processWebhook_try. intros E.
  apply bind_inv in E as (config & st1 & E1 & E).
  apply bind_inv in E as (ls & st2 & E2 & E).
  apply bind_inv in E as ([] & st2' & E2' & E). inversion E2'; subst st2'; clear E2'.
  apply bind_inv in E as (ss & st3 & E3 & E).
  apply bind_inv in E as (wd & st4 & E4 & E).
  apply bind_inv in E as ([] & st4' & E4' & E). inversion E4'; subst st4'; clear E4'.
  destruct (notionPageData wd) as [cpd|] eqn:Hpd; [|discriminate E].
  destruct (truthy cpd) eqn:Htr; [|discriminate E].
  destruct (truthy_u (get cpd "id")) eqn:Hid; [|discriminate E].
  simpl in E.
  apply bind_inv in E as (currentInfo & st5 & E5 & E).
  apply bind_inv in E as ([] & st5' & E5' & E). inversion E5'; subst st5'; clear E5'.
  apply bind_inv in E as (previousState & st6 & E6 & E).
  apply bind_inv in E as (previousInfo & st7 & E7 & E).
  apply bind_inv in E as (results & st8 & E8 & E).
  apply bind_inv in E as ([] & st8' & E8' & E). inversion E8'; subst st8'; clear E8'.
  apply bind_inv in E as ([] & st9 & E9 & E).
  eapply (TrySteps env e st st' config ls ss wd cpd currentInfo previousState
            previousInfo results st1 st2 st3 st4 st5 st6 st7 st8); eauto.
  - destruct previousState as [ps|].
    + apply bind_inv in E7 as (i & st7' & E7a & E7b). inversion E7b; subst.
      exists i. split; [exact E7a | reflexivity].
    + inversion E7; subst. split; reflexivity.
  - destruct (existsb has_error results); inversion E9; subst st9; exact E.
Qed.

Lemma try_steps_processWebhook_try `{Host} env e st st' :
  try_steps env e st st' -> processWebhook_try env e st = (Ret tt, st').
Proof.
  intros [config ls ss wd cpd currentInfo previousState previousInfo results
            st1 st2 st3 st4 st5 st6 st7 st8 E1 E2 E3 E4 Hpd Htr Hid E5 E6 E7 E8 E9].
  unfold processWebhook_try.
  rewrite (bind_Ret _ _ _ _ _ E1), (bind_Ret _ _ _ _ _ E2).
  rewrite (bind_Ret _ _ _ tt (upd_logSheet ls st2)) by reflexivity.
  rewrite (bind_Ret _ _ _ _ _ E3), (bind_Ret _ _ _ _ _ E4).
  rewrite (bind_Ret _ _ _ tt (upd_logData (set_raw wd) st4)) by reflexivity.
  rewrite Hpd, Htr, Hid. simpl.
  rewrite (bind_Ret _ _ _ _ _ E5).
  rewrite (bind_Ret _ _ _ tt (upd_logData (set_notionInfo currentInfo) st5)) by reflexivity.
  rewrite (bind_Ret _ _ _ _ _ E6).
  rewrite (bind_Ret _ _ _ previousInfo st7).
  2:{ destruct previousState as [ps|].
      - destruct E7 as (i & E7 & ->). now rewrite (bind_Ret _ _ _ _ _ E7).
      - destruct E7 as [-> ->]. reflexivity. }
  rewrite (bind_Ret _ _ _ _ _ E8).
  rewrite (bind_Ret _ _ _ tt
             (upd_logData (set_discordSendStatus (sendStatus_of results)) st8))
    by reflexivity.
  destruct (existsb has_error results).
  - now rewrite (bind_Ret _ _ _ tt
             (upd_logData (set_overallStatus status_partial)
                (upd_logData (set_discordSendStatus (sendStatus_of results)) st8)))
      by reflexivity.
  - now rewrite (bind_Ret _ _ _ tt
                (upd_logData (set_discordSendStatus (sendStatus_of results)) st8))
      by reflexivity.
Qed.

Lemma keeps_eq {A B} (proj : St -> B) (m : M A) st o st' :
  keeps proj m -> m st = (o, st') -> proj st' = proj st.
Proof. intros Hk E. specialize (Hk st). now rewrite E in Hk. Qed.

Lemma loadConfig_Ret `{Host} env st config st' :
  loadConfig env st = (Ret config, st') ->
  props env !! CONFIG.PROP_KEYS.SPREADSHEET_ID = Some (spreadsheetId config) /\
  nonempty (spreadsheetId config) = true /\
  stateSheetName config = CONFIG.SHEETS.STATE.NAME /\
  discordUrl config = props env !! CONFIG.PROP_KEYS.DISCORD_URL /\
  discordUrlSharoushi config = props env !! CONFIG.PROP_KEYS.DISCORD_URL_SHAROUSHI /\
  st' = add_logs ["Configuration loaded successfully."] st.
Proof.
  unfold loadConfig, getProp.
  destruct (props env !! CONFIG.PROP_KEYS.SPREADSHEET_ID) as [[|c id]|];
    try discriminate.
  intros E. inversion E; subst. repeat split.
Qed.

Lemma sendDiscordMessage_no_error `{Host} env webhookUrl payload st r st' :
  (url_unusable webhookUrl = true \/
   forall url body, webhookUrl = Some url -> UrlFetchApp_fetch env url body = None) ->
  sendDiscordMessage env webhookUrl payload st = (Ret r, st') ->
  error r = None.
Proof.
  intros Hok. unfold sendDiscordMessage.
  destruct webhookUrl as [url|]; [|intros E; now inversion E].
  destruct (url_unusable (Some url)) eqn:Hu; [intros E; now inversion E|].
  destruct Hok as [Hok|Hok]; [discriminate Hok|].
  unfold bind, modify_world. rewrite (Hok url _ eq_refl).
  intros E. now inversion E.
Qed.

Lemma handleNotifications_no_error `{Host} env p c config st results st' :
  channel_cannot_fail env CONFIG.PROP_KEYS.DISCORD_URL ->
  channel_cannot_fail env CONFIG.PROP_KEYS.DISCORD_URL_SHAROUSHI ->
  discordUrl config = props env !! CONFIG.PROP_KEYS.DISCORD_URL ->
  discordUrlSharoushi config = props env !! CONFIG.PROP_KEYS.DISCORD_URL_SHAROUSHI ->
  handleNotifications env p c config st = (Ret results, st') ->
  existsb has_error results = false.
Proof.
  intros H1 H2 Hu1 Hu2. unfold channel_cannot_fail in H1, H2.
  rewrite <- Hu1 in H1. rewrite <- Hu2 in H2.
  unfold handleNotifications. intros E.
  apply bind_inv in E as (rs1 & st1 & E1 & E).
  apply bind_inv in E as (rs2 & st2 & E2 & E).
  apply bind_inv in E as ([] & st3 & _ & E). inversion E; subst; clear E.
  assert (Hrs1 : existsb has_error rs1 = false).
  { destruct (needsStatusNotification p c); [|now inversion E1].
    apply bind_inv in E1 as ([] & st0 & _ & E1).
    apply bind_inv in E1 as (r & st0' & Es & E1). inversion E1; subst.
    apply sendDiscordMessage_no_error in Es; [|exact H1].
    simpl. unfold has_error. simpl. now rewrite Es. }
  destruct (needsSharoushiNotification p c); [|inversion E2; subst; exact Hrs1].
  apply bind_inv in E2 as ([] & st0 & _ & E2).
  apply bind_inv in E2 as (r & st0' & Es & E2). inversion E2; subst.
  apply sendDiscordMessage_no_error in Es; [|exact H2].
  rewrite existsb_app, Hrs1. simpl. unfold has_error. simpl. now rewrite Es.
Qed.

(** The [logData] a [try] block leaves when it runs to its end. *)
Lemma try_steps_logData `{Host} env e st st' :
  try_steps env e st st' ->
  exists config webhookData currentInfo previousInfo results st7 st8,
    handleNotifications env previousInfo currentInfo config st7 = (Ret results, st8) /\
    discordUrl config = props env !! CONFIG.PROP_KEYS.DISCORD_URL /\
    discordUrlSharoushi config = props env !! CONFIG.PROP_KEYS.DISCORD_URL_SHAROUSHI /\
    logData st'
    = (if existsb has_error results then set_overallStatus status_partial else id)
        (set_discordSendStatus (sendStatus_of results)
           (set_notionInfo currentInfo (set_raw webhookData (logData st)))).
Proof.
  intros [config ls ss wd cpd currentInfo previousState previousInfo results
            st1 st2 st3 st4 st5 st6 st7 st8 E1 E2 E3 E4 Hpd Htr Hid E5 E6 E7 E8 E9].
  exists config, wd, currentInfo, previousInfo, results, st7, st8.
  destruct (loadConfig_Ret _ _ _ _ E1) as (_ & _ & _ & Hu1 & Hu2 & _).
  split; [exact E8|]. split; [exact Hu1|]. split; [exact Hu2|].
  apply (keeps_eq logData) in E1; [|apply loadConfig_keeps_logData].
  apply (keeps_eq logData) in E2; [|apply getOrCreateSheet_keeps_logData].
  apply (keeps_eq logData) in E3; [|apply getOrCreateSheet_keeps_logData].
  apply (keeps_eq logData) in E4; [|apply parseWebhookEvent_keeps_logData].
  apply (keeps_eq logData) in E5; [|apply extractNotionInfo_keeps_logData].
  apply (keeps_eq logData) in E6; [|apply getPreviousState_keeps; reflexivity].
  assert (E7' : logData st7 = logData st6).
  { destruct previousState as [ps|].
    - destruct E7 as (i & E7 & _).
      apply (keeps_eq logData) in E7; [exact E7|apply extractNotionInfo_keeps_logData].
    - destruct E7 as [-> _]. reflexivity. }
  apply (keeps_eq logData) in E8; [|apply handleNotifications_keeps_logData].
  apply (keeps_eq logData) in E9; [|apply updateCurrentState_keeps_logData].
  rewrite E9. simpl in *.
  destruct (existsb has_error results); simpl;
    rewrite E8, E7', E6; simpl; rewrite E5; simpl; rewrite E4, E3; simpl;
    rewrite E2, E1; reflexivity.
Qed.

(** C7: with a URL that is absent or does not start with the Discord
    webhook prefix, [sendDiscordMessage] returns the skip outcome with a
    null error and leaves the world, hence the network, untouched; and an
    invocation in which no delivery can fail for another reason and that
    does not end in the fatal status ends in the success status. *)
Theorem skipped_notification_is_no_error `{Host} env :
  (forall webhookUrl payload st,
     url_unusable webhookUrl = true ->
     exists st',
       sendDiscordMessage env webhookUrl payload st
       = (Ret {| send_status := "URL未設定/不正のためスキップ"; error := None |}, st') /\
       world st' = world st) /\
  (forall e w resp st,
     channel_cannot_fail env CONFIG.PROP_KEYS.DISCORD_URL ->
     channel_cannot_fail env CONFIG.PROP_KEYS.DISCORD_URL_SHAROUSHI ->
     processWebhook env e w = (Ret resp, st) ->
     r_status resp <> status_fatal ->
     r_status resp = status_success).
Proof.
  split.
  - intros url payload st Hu. eexists. split.
    + now apply sendDiscordMessage_skip.
    + reflexivity.
  - intros e w resp st H1 H2 Hrun Hnf.
    destruct (processWebhook_m_run env e (initial env w))
      as (st1 & st2 & st3 & Htc & Hfin & Hrun' & _).
    unfold processWebhook in Hrun. rewrite Hrun' in Hrun.
    inversion Hrun; subst resp st; clear Hrun. simpl in *.
    destruct (processWebhook_finally_returns env st1) as (st2' & Hfin' & Hld & _).
    rewrite Hfin in Hfin'. inversion Hfin'; subst st2'. clear Hfin'.
    rewrite Hld in *.
    destruct (try_catch_status env e w st1 Htc)
      as [(st_try & Htry & -> & _) | (err & st_try & _ & _ & Hs)];
      [|contradiction].
    apply processWebhook_try_steps, try_steps_logData in Htry
      as (config & wd & ci & pi & results & st7 & st8 & Hh & Hu1 & Hu2 & Hlog).
    rewrite Hlog.
    rewrite (handleNotifications_no_error env _ _ _ _ _ _ H1 H2 Hu1 Hu2 Hh).
    reflexivity.
Qed.

Lemma skipped_notification_is_no_error_witness :
  exists resp st,
    processWebhook demo_env_no_url (post demo_body) demo_world = (Ret resp, st) /\
    r_status resp = status_success.
Proof.
  destruct (processWebhook demo_env_no_url (post demo_body) demo_world)
    as [[resp|err] st] eqn:E.
  - exists resp, st. split; [reflexivity|].
    pose proof E as E'. vm_compute in E'. injection E' as Hresp _.
    destruct (skipped_notification_is_no_error demo_env_no_url) as [_ Hstatus].
    apply (Hstatus (post demo_body) demo_world resp st).
    + left. vm_compute. reflexivity.
    + left. vm_compute. reflexivity.
    + exact E.
    + rewrite <- Hresp. vm_compute. discriminate.
  - vm_compute in E. discriminate E.
Defined.

(** ** Sheets *)

Lemma rows_of_set_rows h rs w : rows_of h (set_rows h rs w) = rs.
Proof.
  unfold rows_of, set_rows. simpl. rewrite lookup_insert_eq. simpl.
  now rewrite lookup_insert_eq.
Qed.

Lemma rows_of_set_rows_ne h h' rs w :
  h <> h' -> rows_of h' (set_rows h rs w) = rows_of h' w.
Proof.
  intros Hne. unfold rows_of, set_rows. simpl.
  destruct (decide (ss_id h = ss_id h')) as [Eid|Nid].
  - rewrite Eid, lookup_insert_eq. simpl.
    destruct (decide (sheet_name h = sheet_name h')) as [En|Nn].
    + destruct h, h'; simpl in *; congruence.
    + now rewrite lookup_insert_ne.
  - now rewrite lookup_insert_ne.
Qed.

Lemma sheet_exists_set_rows h rs w : sheet_exists h (set_rows h rs w) = true.
Proof.
  unfold sheet_exists, set_rows. simpl. rewrite lookup_insert_eq.
  apply bool_decide_eq_true. rewrite lookup_insert_eq. now eexists.
Qed.

Lemma sheet_exists_set_rows_other h h' rs w :
  sheet_exists h' w = true -> sheet_exists h' (set_rows h rs w) = true.
Proof.
  unfold sheet_exists, set_rows. simpl.
  destruct (drive w !! ss_id h') as [b|] eqn:Eb; [|discriminate].
  intros Hex%bool_decide_eq_true.
  destruct (decide (ss_id h = ss_id h')) as [Eid|Nid].
  - rewrite Eid, lookup_insert_eq, Eb. simpl. apply bool_decide_eq_true.
    destruct (decide (sheet_name h = sheet_name h')) as [En|Nn].
    + rewrite En, lookup_insert_eq. now eexists.
    + now rewrite lookup_insert_ne.
  - rewrite lookup_insert_ne, Eb by exact Nid. now apply bool_decide_eq_true.
Qed.

Lemma drive_set_rows_is_Some h rs w id :
  is_Some (drive w !! id) -> is_Some (drive (set_rows h rs w) !! id).
Proof.
  intros Hs. unfold set_rows. simpl.
  destruct (decide (ss_id h = id)) as [<-|Nid].
  - rewrite lookup_insert_eq. now eexists.
  - now rewrite lookup_insert_ne.
Qed.

Lemma acquire_is_Some h headers w id :
  is_Some (drive w !! id) -> is_Some (drive (acquire h headers w) !! id).
Proof.
  intros Hs. unfold acquire. destruct (sheet_exists h w); [exact Hs|].
  now apply drive_set_rows_is_Some.
Qed.

Lemma sheet_exists_acquire h headers w : sheet_exists h (acquire h headers w) = true.
Proof.
  unfold acquire. destruct (sheet_exists h w) eqn:E; [exact E|].
  apply sheet_exists_set_rows.
Qed.

Lemma set_rows_set_rows h rs rs' w :
  set_rows h rs' (set_rows h rs w) = set_rows h rs' w.
Proof.
  unfold set_rows. simpl. f_equal.
  rewrite lookup_insert_eq. simpl.
  now rewrite insert_insert_eq, insert_insert_eq.
Qed.

Lemma getOrCreateSheet_eq `{Host} env id name (headers : list string) st :
  is_Some (drive (world st) !! id) -> headers <> [] ->
  getOrCreateSheet env id name headers st
  = (Ret {| ss_id := id; sheet_name := name |},
     upd_world (acquire {| ss_id := id; sheet_name := name |} headers) st).
Proof.
  intros [book Hb] Hh. unfold getOrCreateSheet, try_catch, bind, get_world.
  rewrite Hb. unfold upd_world, acquire, sheet_exists. simpl. rewrite Hb.
  destruct (book !! name) as [rs|] eqn:En.
  - rewrite bool_decide_eq_true_2 by (now eexists).
    unfold ret. destruct st; reflexivity.
  - rewrite bool_decide_eq_false_2 by (intros [? ?]; discriminate).
    destruct headers as [|h0 hs]; [contradiction|].
    unfold modify_world, appendRow, modify_world, ret. simpl.
    rewrite rows_of_set_rows, set_rows_set_rows. reflexivity.
Qed.

Lemma getOrCreateSheet_Throw `{Host} env id name (headers : list string) st :
  drive (world st) !! id = None ->
  exists err, getOrCreateSheet env id name headers st = (Throw err, st).
Proof.
  intros Hb. unfold getOrCreateSheet, try_catch, bind, get_world.
  rewrite Hb. eexists. reflexivity.
Qed.

Lemma loadConfig_eq `{Host} env id st :
  props env !! CONFIG.PROP_KEYS.SPREADSHEET_ID = Some id -> nonempty id = true ->
  loadConfig env st
  = (Ret (config_of env id), add_logs ["Configuration loaded successfully."] st).
Proof.
  intros Hp Hn. unfold loadConfig, getProp. rewrite Hp.
  destruct id as [|c id]; [discriminate Hn|]. reflexivity.
Qed.

Lemma loadConfig_Throw `{Host} env st :
  (forall id, props env !! CONFIG.PROP_KEYS.SPREADSHEET_ID = Some id -> nonempty id = false) ->
  exists err ls, loadConfig env st = (Throw err, add_logs ls st).
Proof.
  intros Hp. unfold loadConfig, getProp.
  destruct (props env !! CONFIG.PROP_KEYS.SPREADSHEET_ID) as [[|c id]|] eqn:E.
  - do 2 eexists. reflexivity.
  - specialize (Hp _ eq_refl). discriminate Hp.
  - do 2 eexists. reflexivity.
Qed.

(** ** Parsing *)

Lemma parseWebhookEvent_absent `{Host} e :
  contents_absent e = true ->
  exists wd ls,
    notionPageData wd = None /\
    forall st, parseWebhookEvent e st = (Ret wd, add_logs ls st).
Proof.
  unfold contents_absent, parseWebhookEvent. intros Ha.
  destruct e as [ev|].
  - destruct (truthy ev); simpl in Ha.
    + destruct (truthy_u (get ev "postData")); simpl in Ha.
      * rewrite negb_true_iff in Ha. rewrite Ha. simpl.
        do 2 eexists. split; [|intros st; unfold bind; rewrite push_eq;
                                  unfold bind; rewrite push_eq; unfold ret;
                                  rewrite add_logs_app; reflexivity].
        reflexivity.
      * simpl. do 2 eexists.
        split; [|intros st; unfold bind; rewrite push_eq;
                  unfold bind; rewrite push_eq; unfold ret;
                  rewrite add_logs_app; reflexivity].
        reflexivity.
    + do 2 eexists.
      split; [|intros st; unfold bind; rewrite push_eq;
                unfold bind; rewrite push_eq; unfold ret;
                rewrite add_logs_app; reflexivity].
      reflexivity.
  - do 2 eexists.
    split; [|intros st; unfold bind; rewrite push_eq;
              unfold bind; rewrite push_eq; unfold ret;
              rewrite add_logs_app; reflexivity].
    reflexivity.
Qed.

(** ** Orchestrator: set-up *)

Section Setup.
Context `{Host} (env : Env).

(** With a spreadsheet id in the properties and that spreadsheet in the
    drive, the first steps of the [try] block succeed. *)
Lemma setup_eq {A} id st (k : Config -> Sheet -> Sheet -> M A) :
  props env !! CONFIG.PROP_KEYS.SPREADSHEET_ID = Some id -> nonempty id = true ->
  is_Some (drive (world st) !! id) ->
  (let* config := loadConfig env in
   let* logSheet :=
     getOrCreateSheet env (spreadsheetId config) (logSheetName config)
                      CONFIG.SHEETS.LOG.HEADERS in
   set_logSheet logSheet ;;
   let* stateSheet :=
     getOrCreateSheet env (spreadsheetId config) (stateSheetName config)
                      CONFIG.SHEETS.STATE.HEADERS in
   k config logSheet stateSheet) st
  = k (config_of env id) (log_sheet_of env id) (state_sheet_of id) (after_setup env id st).
Proof.
  intros Hp Hn Hd.
  rewrite (bind_Ret _ _ _ _ _ (loadConfig_eq env id st Hp Hn)).
  erewrite bind_Ret; [|apply getOrCreateSheet_eq; [exact Hd | discriminate]].
  erewrite bind_Ret; [|reflexivity].
  erewrite bind_Ret; [reflexivity|].
  apply getOrCreateSheet_eq; [|discriminate].
  simpl. now apply acquire_is_Some.
Qed.

Lemma rows_of_after_setup_log id st :
  rows_of (log_sheet_of env id) (world (after_setup env id st))
  = if sheet_exists (log_sheet_of env id) (world st)
    then rows_of (log_sheet_of env id) (world st)
    else [header_row CONFIG.SHEETS.LOG.HEADERS].
Proof.
  unfold after_setup. simpl.
  set (lh := log_sheet_of env id). set (sh := state_sheet_of id).
  set (w := world st).
  assert (Hl : rows_of lh (acquire lh CONFIG.SHEETS.LOG.HEADERS w)
               = if sheet_exists lh w then rows_of lh w
                 else [header_row CONFIG.SHEETS.LOG.HEADERS]).
  { unfold acquire. destruct (sheet_exists lh w); [reflexivity|].
    apply rows_of_set_rows. }
  transitivity (rows_of lh (acquire lh CONFIG.SHEETS.LOG.HEADERS w)); [|exact Hl].
  unfold acquire at 1.
  destruct (sheet_exists sh _) eqn:Es; [reflexivity|].
  apply rows_of_set_rows_ne. intros ->.
  rewrite sheet_exists_acquire in Es. discriminate Es.
Qed.

End Setup.

(** ** Orchestrator: the audit row *)

Lemma rows_of_drive h w w' : drive w = drive w' -> rows_of h w = rows_of h w'.
Proof. unfold rows_of. now intros ->. Qed.

Lemma logToSheet_append `{Host} env h d st :
  appendRow_error env = None ->
  logToSheet env h d st
  = (Ret tt,
     upd_world (fun w => set_rows h (rows_of h w ++ [audit_row d (executionLogs st)]) w) st).
Proof.
  intros Hap. unfold logToSheet, audit_row, try_catch, bind, get_logs.
  destruct (notionInfo d); rewrite Hap; reflexivity.
Qed.

Lemma processWebhook_finally_append `{Host} env h st :
  logSheet st = Some h -> appendRow_error env = None ->
  processWebhook_finally env st
  = (Ret tt,
     upd_world (fun w => set_rows h (rows_of h w
                                     ++ [audit_row (logData st) (executionLogs st)]) w) st).
Proof.
  intros Hh Hap. unfold processWebhook_finally, bind, get_logSheet, get_logData.
  rewrite Hh. now apply logToSheet_append.
Qed.

Lemma processWebhook_finally_no_sheet `{Host} env st :
  logSheet st = None ->
  exists st', processWebhook_finally env st = (Ret tt, st') /\
              drive (world st') = drive (world st).
Proof.
  intros Hh. unfold processWebhook_finally, bind, get_logSheet, get_logs.
  rewrite Hh. eexists. split; reflexivity.
Qed.

(** ** Orchestrator: an event without contents *)

(** C8: for every event whose [postData.contents] is absent, with the
    spreadsheet id configured, the spreadsheet opened and the append to
    the log sheet going through, the status is the fatal one and exactly
    one row is appended to the log sheet (after its header row, if the
    sheet had to be created), with ["N/A"] as company name, status and
    assignee. *)
Theorem processWebhook_contents_absent `{Host} env (e : option json) (w : Store) id :
  contents_absent e = true ->
  props env !! CONFIG.PROP_KEYS.SPREADSHEET_ID = Some id -> nonempty id = true ->
  is_Some (drive w !! id) ->
  appendRow_error env = None ->
  exists resp st trace raw full,
    processWebhook env e w = (Ret resp, st) /\
    r_status resp = status_fatal /\
    rows_of (log_sheet_of env id) (world st)
    = (if sheet_exists (log_sheet_of env id) w
       then rows_of (log_sheet_of env id) w
       else [header_row CONFIG.SHEETS.LOG.HEADERS])
      ++ [audit_row_NA env status_fatal trace raw full].
Proof.
  intros Habs Hp Hn Hd Hap.
  destruct (parseWebhookEvent_absent e Habs) as (wd & ls & Hnone & Hparse).
  set (st0 := initial env w).
  assert (Htry : processWebhook_try env e st0
                 = (Throw (new_Error "Notion page data or Page ID could not be parsed."),
                    upd_logData (set_raw wd) (add_logs ls (after_setup env id st0)))).
  { unfold processWebhook_try. rewrite (setup_eq env id st0 _ Hp Hn Hd).
    rewrite (bind_Ret _ _ _ _ _ (Hparse _)).
    erewrite bind_Ret; [|reflexivity].
    rewrite Hnone. reflexivity. }
  destruct (processWebhook_m_run env e st0)
    as (st1 & st2 & st3 & Htc & Hfin & Hrun & Hld & Hdr & _).
  unfold try_catch in Htc. rewrite Htry in Htc.
  destruct (processWebhook_catch_eq
              (new_Error "Notion page data or Page ID could not be parsed.")
              (upd_logData (set_raw wd) (add_logs ls (after_setup env id st0))))
    as (st1' & Hc & Hld1 & Hls1 & Hdr1 & _).
  rewrite Hc in Htc. inversion Htc; subst st1'; clear Htc Hc.
  rewrite (processWebhook_finally_append env (log_sheet_of env id) st1 Hls1 Hap) in Hfin.
  inversion Hfin; subst st2; clear Hfin.
  exists {| r_status := overallStatus (logData st1); r_message := "Webhook processed." |},
         st3, (String.concat nl (executionLogs st1)), (wd_rawContents wd),
         (wd_fullEventString wd).
  split; [exact Hrun|]. split; [simpl; now rewrite Hld1|].
  rewrite (rows_of_drive _ _ _ Hdr). simpl. rewrite rows_of_set_rows.
  rewrite (rows_of_drive _ _ _ Hdr1).
  change (world (upd_logData (set_raw wd) (add_logs ls (after_setup env id st0))))
    with (world (after_setup env id st0)).
  rewrite rows_of_after_setup_log. f_equal.
  unfold audit_row. rewrite Hld1. reflexivity.
Qed.

Lemma processWebhook_contents_absent_witness :
  exists resp st trace raw full,
    processWebhook demo_env demo_event_no_contents demo_world = (Ret resp, st) /\
    r_status resp = status_fatal /\
    rows_of (log_sheet_of demo_env "SS1") (world st)
    = [header_row CONFIG.SHEETS.LOG.HEADERS;
       audit_row_NA demo_env status_fatal trace raw full].
Proof.
  apply (processWebhook_contents_absent demo_env demo_event_no_contents demo_world "SS1").
  - reflexivity.
  - vm_compute. reflexivity.
  - reflexivity.
  - exists ∅. apply lookup_singleton_eq.
  - reflexivity.
Defined.

(** The log sheet is acquired after the configuration is loaded: when the
    spreadsheet id is not configured, an event without contents ends in
    the fatal status and no row is written to any sheet. *)
Lemma processWebhook_contents_absent_unconfigured :
  contents_absent demo_event_no_contents = true /\
  exists resp st,
    processWebhook demo_env_unconfigured demo_event_no_contents demo_world
    = (Ret resp, st) /\
    r_status resp = status_fatal /\
    forall h, rows_of h (world st) = rows_of h demo_world.
Proof.
  split; [reflexivity|].
  destruct (processWebhook demo_env_unconfigured demo_event_no_contents demo_world)
    as [[resp|err] st] eqn:E; vm_compute in E; [|discriminate E].
  injection E as <- <-.
  do 2 eexists. split; [reflexivity|]. split; [reflexivity|].
  intros h. reflexivity.
Qed.

(** ** Callees that only log *)

Lemma read_cases `{Host} v k :
  (v = JNull /\ read v k = throw (TypeError_null k)) \/ read v k = ret (get v k).
Proof. destruct v; [left; split; reflexivity | right; reflexivity ..]. Qed.

Lemma parseWebhookEvent_pure `{Host} e :
  exists wd ls,
    (forall st, parseWebhookEvent e st = (Ret wd, add_logs ls st)) /\
    (forall cpd, notionPageData wd = Some cpd -> truthy cpd = true).
Proof.
  destruct (contents_absent e) eqn:Habs.
  { destruct (parseWebhookEvent_absent e Habs) as (wd & ls & Hn & E).
    exists wd, ls. split; [exact E|]. rewrite Hn. discriminate. }
  unfold contents_absent in Habs. destruct e as [ev|]; [|discriminate].
  rewrite !orb_false_iff, !negb_false_iff in Habs. destruct Habs as [[Hev Hpd] Hc].
  unfold parseWebhookEvent. rewrite Hev, Hpd, Hc. simpl.
  set (raw := or_else _ JNull).
  unfold try_catch, bind, lift.
  destruct (JSON_parse (js_to_string raw)) as [eventData|err].
  - destruct (read_cases eventData "data") as [[_ Hr]|Hr]; rewrite Hr;
      unfold throw, ret.
    + do 2 eexists; split;
        [intros st; rewrite !push_eq; rewrite ?add_logs_app; reflexivity|].
      discriminate.
    + destruct (truthy_u (get eventData "data")) eqn:Ht;
        (do 2 eexists; split;
         [intros st; rewrite !push_eq; rewrite ?add_logs_app; reflexivity|]).
      * simpl. intros cpd Hc'. rewrite Hc' in Ht. exact Ht.
      * discriminate.
  - do 2 eexists; split;
      [intros st; rewrite !push_eq; unfold ret; rewrite ?add_logs_app; reflexivity|].
    discriminate.
Qed.

Lemma parseWebhookEvent_event_page `{Host} e :
  exists wd ls,
    (forall st, parseWebhookEvent e st = (Ret wd, add_logs ls st)) /\
    notionPageData wd = event_page e /\
    (forall cpd, event_page e = Some cpd -> truthy cpd = true).
Proof.
  destruct (parseWebhookEvent_pure e) as (wd & ls & E & Ht).
  exists wd, ls. split; [exact E|].
  unfold event_page. rewrite E. simpl. split; [reflexivity | exact Ht].
Qed.

Lemma extractNotionInfo_pure `{Host} pd :
  exists o ls, forall st, extractNotionInfo pd st = (o, add_logs ls st).
Proof.
  destruct (truthy_u (get pd "properties")) eqn:Hp.
  2:{ do 2 eexists. intros st. now apply extractNotionInfo_no_properties. }
  unfold extractNotionInfo.
  destruct (get pd "properties") as [p|]; [|discriminate]. simpl in Hp. rewrite Hp.
  set (t := match get pd "last_edited_time" with
            | Some t => if truthy t
                        then lift (Utilities_formatDate t "Asia/Tokyo" "yyyy/MM/dd HH:mm:ss")
                        else ret "日時不明"
            | None => ret "日時不明"
            end).
  assert (Ht : exists o, forall st, t st = (o, st)).
  { subst t. destruct (get pd "last_edited_time") as [v|]; [destruct (truthy v)|];
      eexists; intros st; reflexivity. }
  destruct Ht as ([s|err] & Ht).
  - do 2 eexists. intros st. unfold bind. rewrite Ht, push_eq. reflexivity.
  - exists (Throw err), []. intros st. unfold bind. rewrite Ht, add_logs_nil. reflexivity.
Qed.

Lemma extractNotionInfo_extracted `{Host} pd :
  exists ls, forall st, extractNotionInfo pd st = (extracted pd, add_logs ls st).
Proof.
  destruct (extractNotionInfo_pure pd) as (o & ls & E).
  exists ls. intros st. unfold extracted. now rewrite !E.
Qed.

(** ** State store *)

Lemma getPreviousState_loop_eq `{Host} data pageId i :
  exists ls, forall st,
    getPreviousState_loop data pageId i st
    = (Ret match last_match data pageId i with
           | Some i =>
               match JSON_parse (cell_text (at_ data i CONFIG.SHEETS.STATE.COLUMN_INDEX.PROPERTIES_JSON)) with
               | Ret p => Some {| rowIndex := Z.of_nat i + 1; properties := p |}
               | Throw _ => None
               end
           | None => None
           end,
       add_logs ls st).
Proof.
  induction i as [|j IH].
  - eexists. intros st. reflexivity.
  - cbn [getPreviousState_loop last_match].
    destruct (cell_strict_eq _ pageId); [|exact IH].
    unfold try_catch, bind, lift.
    destruct (JSON_parse _) as [p|err]; eexists; intros st; reflexivity.
Qed.

Lemma getPreviousState_eq `{Host} h pageId st :
  exists ls,
    getPreviousState h pageId st
    = (Ret (lookup_previous (rows_of h (world st)) pageId), add_logs ls st).
Proof.
  unfold getPreviousState, lookup_previous.
  destruct (getPreviousState_loop_eq (getValues (rows_of h (world st))) pageId
              (length (getValues (rows_of h (world st))) - 1)) as (ls & E).
  eexists. unfold bind at 1. rewrite push_eq.
  unfold bind, get_world. cbn [world add_logs]. rewrite E, add_logs_app. reflexivity.
Qed.

Lemma updateCurrentState_eq `{Host} h pageId newProperties r st :
  (r = -1 \/ 1 <= r) ->
  exists ls,
    updateCurrentState h pageId newProperties r st
    = (Ret tt,
       add_logs ls
         (upd_world (fun w => set_rows h (updated_rows pageId newProperties r (rows_of h w)) w)
                    st)).
Proof.
  intros Hr. unfold updateCurrentState, updated_rows.
  fold (payload_cell newProperties).
  destruct (-1 <? r) eqn:E.
  - assert (Hlt : (r <? 1) = false) by (apply Z.ltb_ge; apply Z.ltb_lt in E; lia).
    rewrite Hlt. eexists. reflexivity.
  - eexists. reflexivity.
Qed.

(** ** The extractor as a function *)

Lemma extractNotionInfo_Ret `{Host} pd st i st' :
  extractNotionInfo pd st = (Ret i, st') -> exists t, i = info_of pd t.
Proof.
  unfold extractNotionInfo, info_of.
  destruct (get pd "properties") as [p|];
    [|intros E; inversion E; now exists EmptyString].
  destruct (truthy p); [|intros E; inversion E; now exists EmptyString].
  intros E. apply bind_inv in E as (t & st1 & _ & E). inversion E. now exists t.
Qed.

Lemma extractNotionInfo_previous `{Host} properties :
  exists ls, forall st,
    extractNotionInfo (previous_page properties) st
    = (Ret (previous_info properties), add_logs ls st).
Proof.
  unfold previous_info, previous_page, extractNotionInfo, info_of.
  cbn [get assoc String.eqb Ascii.eqb Bool.eqb].
  destruct (truthy properties); eexists; intros st; reflexivity.
Qed.

(** The tracked fields depend on the properties only. *)
Lemma info_of_tracked pd properties t :
  get pd "properties" = Some properties ->
  status (info_of pd t) = status (previous_info properties) /\
  tanto (info_of pd t) = tanto (previous_info properties) /\
  sharoushi (info_of pd t) = sharoushi (previous_info properties) /\
  kigyoMei (info_of pd t) = kigyoMei (previous_info properties).
Proof.
  intros Hp. unfold previous_info, previous_page, info_of. rewrite Hp.
  cbn [get assoc String.eqb Ascii.eqb Bool.eqb].
  destruct (truthy properties); repeat split.
Qed.

(** ** Orchestrator: a run that reaches the end of the [try] block *)

Lemma rowIndex_of_lookup_previous `{Host} sh pageId :
  rowIndex_of (lookup_previous sh pageId) = -1 \/ 1 <= rowIndex_of (lookup_previous sh pageId).
Proof.
  unfold lookup_previous. destruct (last_match _ _ _) as [i|]; [|now left].
  destruct (JSON_parse _); [right; simpl; lia | now left].
Qed.

Lemma processWebhook_try_forward `{Host} env e st id wd cpd t lsp lse :
  props env !! CONFIG.PROP_KEYS.SPREADSHEET_ID = Some id -> nonempty id = true ->
  is_Some (drive (world st) !! id) ->
  (forall st, parseWebhookEvent e st = (Ret wd, add_logs lsp st)) ->
  notionPageData wd = Some cpd -> truthy cpd = true -> truthy_u (get cpd "id") = true ->
  (forall st, extractNotionInfo cpd st = (Ret (info_of cpd t), add_logs lse st)) ->
  let w0 := world (after_setup env id st) in
  let previousState := lookup_previous (rows_of (state_sheet_of id) w0) (pageId_of cpd) in
  let previousInfo := option_map (fun ps => previous_info (properties ps)) previousState in
  exists st7 results st8 ls,
    world st7 = w0 /\
    logData st7 = set_notionInfo (info_of cpd t) (set_raw wd (logData st)) /\
    logSheet st7 = Some (log_sheet_of env id) /\
    handleNotifications env previousInfo (info_of cpd t) (config_of env id) st7
    = (Ret results, st8) /\
    processWebhook_try env e st
    = (Ret tt, add_logs ls (persist id cpd previousState (record_results results st8))).
Proof.
  intros Hp Hn Hd Hparse Hpd Htr Hid Hext w0 previousState previousInfo.
  set (st3 := after_setup env id st).
  set (st5 := upd_logData (set_notionInfo (info_of cpd t))
                (add_logs lse (upd_logData (set_raw wd) (add_logs lsp st3)))).
  destruct (getPreviousState_eq (state_sheet_of id) (pageId_of cpd) st5) as (ls6 & E6).
  change (lookup_previous (rows_of (state_sheet_of id) (world st5)) (pageId_of cpd))
    with previousState in E6.
  set (st6 := add_logs ls6 st5) in E6.
  assert (E7 : exists ls7,
    (match previousState with
     | Some ps => let* i := extractNotionInfo (JObj [("properties", properties ps)]) in
                  ret (Some i)
     | None => ret None
     end) st6 = (Ret previousInfo, add_logs ls7 st6)).
  { subst previousInfo. destruct previousState as [ps|]; simpl.
    - destruct (extractNotionInfo_previous (properties ps)) as (ls7 & E7).
      exists ls7. unfold bind. unfold previous_page in E7. rewrite E7. reflexivity.
    - exists []. now rewrite add_logs_nil. }
  destruct E7 as (ls7 & E7). set (st7 := add_logs ls7 st6) in E7.
  destruct (handleNotifications_types env previousInfo (info_of cpd t) (config_of env id) st7)
    as (results & st8 & E8 & _).
  destruct (updateCurrentState_eq (state_sheet_of id) (pageId_of cpd)
              (get cpd "properties") (rowIndex_of previousState)
              (record_results results st8)
              (rowIndex_of_lookup_previous _ _)) as (ls9 & E9).
  exists st7, results, st8, ls9.
  split; [reflexivity|]. split; [reflexivity|]. split; [reflexivity|].
  split; [exact E8|].
  unfold processWebhook_try. rewrite (setup_eq env id st _ Hp Hn Hd).
  fold st3. rewrite (bind_Ret _ _ _ _ _ (Hparse st3)).
  erewrite bind_Ret; [|reflexivity].
  rewrite Hpd, Htr, Hid. cbn [negb orb].
  rewrite (bind_Ret _ _ _ _ _ (Hext _)).
  erewrite bind_Ret; [|reflexivity].
  change (modify_logData (set_notionInfo (info_of cpd t))
            (add_logs lse (modify_logData (set_raw wd) (add_logs lsp st3)).2)).2
    with st5.
  change (or_else (get cpd "id") JNull) with (pageId_of cpd).
  cbn [stateSheetName config_of]. 
  rewrite (bind_Ret _ _ _ _ _ E6).
  rewrite (bind_Ret _ _ _ _ _ E7).
  rewrite (bind_Ret _ _ _ _ _ E8).
  erewrite bind_Ret; [|reflexivity].
  erewrite bind_Ret.
  2:{ instantiate (1 := record_results results st8). instantiate (1 := tt).
      unfold record_results. destruct (existsb has_error results); reflexivity. }
  exact E9.
Qed.

(** The [try] block on an event that carries page data with an id, from
    which a record can be extracted, in a world where the spreadsheet can
    be opened: it runs to its end, and this is the state it leaves. *)
Lemma processWebhook_try_explicit `{Host} env e st id cpd currentInfo :
  props env !! CONFIG.PROP_KEYS.SPREADSHEET_ID = Some id -> nonempty id = true ->
  is_Some (drive (world st) !! id) ->
  event_page e = Some cpd -> truthy_u (get cpd "id") = true ->
  extracted cpd = Ret currentInfo ->
  let w0 := world (after_setup env id st) in
  let previousState := lookup_previous (rows_of (state_sheet_of id) w0) (pageId_of cpd) in
  let previousInfo := option_map (fun ps => previous_info (properties ps)) previousState in
  exists wd st7 results st8 ls,
    world st7 = w0 /\
    logData st7 = set_notionInfo currentInfo (set_raw wd (logData st)) /\
    logSheet st7 = Some (log_sheet_of env id) /\
    handleNotifications env previousInfo currentInfo (config_of env id) st7
    = (Ret results, st8) /\
    processWebhook_try env e st
    = (Ret tt, add_logs ls (persist id cpd previousState (record_results results st8))).
Proof.
  intros Hp Hn Hd Hev Hid Hex w0 previousState previousInfo.
  destruct (parseWebhookEvent_event_page e) as (wd & lsp & Hparse & Hwd & Htr).
  destruct (extractNotionInfo_extracted cpd) as (lse & Hext).
  rewrite Hex in Hext.
  destruct (extractNotionInfo_Ret _ _ _ _ (Hext empty_state)) as (t & ->).
  destruct (processWebhook_try_forward env e st id wd cpd t lsp lse Hp Hn Hd Hparse
              ltac:(now rewrite Hwd) (Htr _ Hev) Hid Hext)
    as (st7 & results & st8 & ls & H1 & H2 & H3 & H4 & H5).
  exists wd, st7, results, st8, ls. repeat split; assumption.
Qed.

(** Conversely, a [try] block that ran to its end did so on such an event
    in such a world. *)
Lemma processWebhook_try_Ret `{Host} env e st st' :
  processWebhook_try env e st = (Ret tt, st') ->
  exists id cpd currentInfo,
    props env !! CONFIG.PROP_KEYS.SPREADSHEET_ID = Some id /\ nonempty id = true /\
    is_Some (drive (world st) !! id) /\
    event_page e = Some cpd /\ truthy_u (get cpd "id") = true /\
    extracted cpd = Ret currentInfo.
Proof.
  intros E. apply processWebhook_try_steps in E
    as [config ls ss wd cpd currentInfo previousState previousInfo results
          st1 st2 st3 st4 st5 st6 st7 st8 E1 E2 E3 E4 Hpd Htr Hid E5 E6 E7 E8 E9].
  exists (spreadsheetId config), cpd, currentInfo.
  destruct (loadConfig_Ret _ _ _ _ E1) as (Hp & Hn & _).
  split; [exact Hp|]. split; [exact Hn|]. split.
  - destruct (drive (world st) !! spreadsheetId config) as [b|] eqn:Hd; [now eexists|].
    pose proof (keeps_eq world _ _ _ _ (loadConfig_keeps_world env) E1) as Hw.
    rewrite <- Hw in Hd.
    destruct (getOrCreateSheet_Throw env (spreadsheetId config) (logSheetName config)
                CONFIG.SHEETS.LOG.HEADERS st1 Hd) as (err & E2').
    rewrite E2' in E2. discriminate E2.
  - destruct (parseWebhookEvent_event_page e) as (wd' & lsp & Hparse & Hwd & _).
    rewrite Hparse in E4. inversion E4; subst wd'.
    split; [now rewrite <- Hwd|]. split; [exact Hid|].
    destruct (extractNotionInfo_extracted cpd) as (lse & Hext).
    rewrite Hext in E5. now inversion E5.
Qed.

(** ** Corrupted stored JSON *)

Lemma rows_of_persist `{Host} id cpd previousState st :
  rows_of (state_sheet_of id) (world (persist id cpd previousState st))
  = updated_rows (pageId_of cpd) (get cpd "properties") (rowIndex_of previousState)
      (rows_of (state_sheet_of id) (world st)).
Proof. unfold persist. simpl. apply rows_of_set_rows. Qed.

Lemma world_record_results results st : world (record_results results st) = world st.
Proof. unfold record_results. now destruct (existsb has_error results). Qed.

Lemma discordSendStatus_record_results results st :
  discordSendStatus (logData (record_results results st)) = sendStatus_of results.
Proof. unfold record_results. now destruct (existsb has_error results). Qed.

(** C4: when the row [getPreviousState] stops at, the last one whose key
    is the page id, holds a payload on which [JSON.parse] throws, it
    returns null and does not throw; and the invocation goes on as for a
    page without previous state: the notifications are decided against a
    null previous record, the new state is appended as a new row, and the
    [try] block runs to its end. *)
Theorem getPreviousState_fail_open `{Host} :
  (forall stateSheet pageId st i err,
     let data := getValues (rows_of stateSheet (world st)) in
     last_match data pageId (length data - 1) = Some i ->
     JSON_parse (cell_text (at_ data i CONFIG.SHEETS.STATE.COLUMN_INDEX.PROPERTIES_JSON))
     = Throw err ->
     exists ls, getPreviousState stateSheet pageId st = (Ret None, add_logs ls st)) /\
  (forall env e w id cpd currentInfo i err,
     props env !! CONFIG.PROP_KEYS.SPREADSHEET_ID = Some id -> nonempty id = true ->
     is_Some (drive w !! id) ->
     event_page e = Some cpd -> truthy_u (get cpd "id") = true ->
     extracted cpd = Ret currentInfo ->
     let sh := rows_of (state_sheet_of id) (world (after_setup env id (initial env w))) in
     let data := getValues sh in
     last_match data (pageId_of cpd) (length data - 1) = Some i ->
     JSON_parse (cell_text (at_ data i CONFIG.SHEETS.STATE.COLUMN_INDEX.PROPERTIES_JSON))
     = Throw err ->
     exists st' st7 results st8,
       processWebhook_try env e (initial env w) = (Ret tt, st') /\
       handleNotifications env None currentInfo (config_of env id) st7 = (Ret results, st8) /\
       discordSendStatus (logData st') = sendStatus_of results /\
       List.map type_ results
       = (if truthy (status currentInfo) || truthy (tanto currentInfo)
          then [type_status] else [])
         ++ (if truthy (sharoushi currentInfo) then [type_sharoushi] else []) /\
       rows_of (state_sheet_of id) (world st')
       = sh ++ [[CVal (pageId_of cpd); payload_cell (get cpd "properties")]]).
Proof.
  split.
  - intros stateSheet pageId st i err data Hm Hparse.
    destruct (getPreviousState_eq stateSheet pageId st) as (ls & E).
    exists ls. rewrite E. unfold lookup_previous. fold data. now rewrite Hm, Hparse.
  - intros env e w id cpd currentInfo i err Hp Hn Hd Hev Hid Hex sh data Hm Hparse.
    destruct (processWebhook_try_explicit env e (initial env w) id cpd currentInfo
                Hp Hn Hd Hev Hid Hex)
      as (wd & st7 & results & st8 & ls & Hw7 & _ & _ & Hh & Htry).
    assert (Hnone : lookup_previous sh (pageId_of cpd) = None).
    { unfold lookup_previous. fold data. now rewrite Hm, Hparse. }
    fold sh in Htry, Hh. rewrite Hnone in Htry, Hh. simpl in Hh.
    eexists _, st7, results, st8. split; [exact Htry|]. split; [exact Hh|].
    split; [|split].
    + cbn [logData add_logs persist upd_world]. apply discordSendStatus_record_results.
    + destruct (handleNotifications_types env None currentInfo (config_of env id) st7)
        as (results' & st8' & Hh' & Htypes).
      rewrite Hh in Hh'. inversion Hh'; subst. exact Htypes.
    + change (world (add_logs ls (persist id cpd None (record_results results st8))))
        with (world (persist id cpd None (record_results results st8))).
      rewrite rows_of_persist, world_record_results.
      unfold updated_rows, rowIndex_of. simpl.
      f_equal. apply rows_of_drive.
      pose proof (keeps_eq _ _ _ _ _ (handleNotifications_keeps_drive env None currentInfo
                                        (config_of env id)) Hh) as Hdr.
      simpl in Hdr. rewrite Hdr, Hw7. reflexivity.
Qed.

Lemma getPreviousState_fail_open_witness :
  exists st' results,
    processWebhook_try demo_env (post demo_body) (initial demo_env demo_world_corrupt)
    = (Ret tt, st') /\
    List.map type_ results = [type_status] /\
    discordSendStatus (logData st') = sendStatus_of results /\
    rows_of (state_sheet_of "SS1") (world st')
    = [ header_row CONFIG.SHEETS.STATE.HEADERS;
        [CVal (JStr "P1"); CVal (JStr "{oops")];
        [CVal (JStr "P1"); payload_cell (get demo_page "properties")] ].
Proof.
  destruct getPreviousState_fail_open as [_ Hrun].
  destruct (Hrun demo_env (post demo_body) demo_world_corrupt "SS1" demo_page
              (previous_info (JObj [("担当", JObj [("select", JObj [("name", JStr "田中")])])]))
              1%nat (MiniJSON.SyntaxError "{oops"))
    as (st' & st7 & results & st8 & Htry & _ & Hsend & Htypes & Hrows).
  - vm_compute. reflexivity.
  - reflexivity.
  - eexists. apply lookup_singleton_eq.
  - vm_compute. reflexivity.
  - reflexivity.
  - vm_compute. reflexivity.
  - vm_compute. reflexivity.
  - vm_compute. reflexivity.
  - exists st', results. split; [exact Htry|]. split; [exact Htypes|].
    split; [exact Hsend|]. rewrite Hrows. vm_compute. reflexivity.
Defined.

(** ** What [getValues] shows of a sheet *)

Lemma pad_lookup {A} (n : nat) (d : A) (l : list A) (j : nat) :
  pad n d l !! j
  = match l !! j with
    | Some c => Some c
    | None => if (j <? n)%nat then Some d else None
    end.
Proof.
  unfold pad. destruct (l !! j) as [c|] eqn:E.
  - now rewrite (lookup_app_l_Some _ _ _ _ E).
  - apply lookup_ge_None in E. rewrite lookup_app_r by exact E.
    destruct (j <? n)%nat eqn:Hlt.
    + apply Nat.ltb_lt in Hlt. apply lookup_replicate_2. lia.
    + apply Nat.ltb_ge in Hlt. apply lookup_ge_None. rewrite length_replicate. lia.
Qed.

Lemma pad_length_le {A} (n : nat) (d : A) (l : list A) :
  (n <= length l)%nat -> pad n d l = l.
Proof.
  intros Hle. unfold pad. replace (n - length l)%nat with 0%nat by lia.
  simpl. apply app_nil_r.
Qed.

Lemma length_getValues sh : sh <> [] -> length (getValues sh) = length sh.
Proof. destruct sh; [congruence|]. intros _. unfold getValues. apply length_map. Qed.

Lemma getValues_nonempty sh :
  sh <> [] -> getValues sh = List.map (pad (width sh) blank) sh.
Proof. destruct sh; [congruence | reflexivity]. Qed.

Lemma obs_spec sh i j :
  sh <> [] ->
  obs sh i j
  = match sh !! i with
    | None => None
    | Some r =>
        match r !! j with
        | Some c => Some c
        | None => if (j <? width sh)%nat then Some blank else None
        end
    end.
Proof.
  intros Hne. unfold obs, at_. rewrite (getValues_nonempty sh Hne).
  rewrite list_lookup_fmap. unfold sheet, row in *.
  destruct (sh !! i) as [r|]; simpl; [apply pad_lookup | reflexivity].
Qed.

Lemma width_ge sh i r : sh !! i = Some r -> (length r <= width sh)%nat.
Proof.
  revert i. induction sh as [|r0 sh IH]; intros i Hi; [discriminate|].
  destruct i as [|i]; simpl in *.
  - inversion Hi; subst. lia.
  - specialize (IH _ Hi). lia.
Qed.

Lemma last_match_ext data data' pageId i :
  (forall j, at_ data j CONFIG.SHEETS.STATE.COLUMN_INDEX.PAGE_ID
             = at_ data' j CONFIG.SHEETS.STATE.COLUMN_INDEX.PAGE_ID) ->
  last_match data pageId i = last_match data' pageId i.
Proof.
  intros Hk. induction i as [|j IH]; [reflexivity|].
  cbn [last_match]. now rewrite Hk, IH.
Qed.

Lemma last_match_Some data pageId i k :
  last_match data pageId i = Some k ->
  (0 < k <= i)%nat /\
  cell_strict_eq (at_ data k CONFIG.SHEETS.STATE.COLUMN_INDEX.PAGE_ID) pageId = true /\
  forall j, (k < j <= i)%nat ->
    cell_strict_eq (at_ data j CONFIG.SHEETS.STATE.COLUMN_INDEX.PAGE_ID) pageId = false.
Proof.
  induction i as [|j IH]; [discriminate|]. cbn [last_match].
  destruct (cell_strict_eq (at_ data (S j) _) pageId) eqn:E.
  - intros Hm. inversion Hm; subst. split; [lia|]. split; [exact E|].
    intros j' Hj'. lia.
  - intros Hm. destruct (IH Hm) as (Hk & Hkm & Hnone).
    split; [lia|]. split; [exact Hkm|]. intros j' Hj'.
    destruct (decide (j' = S j)) as [->|Hne]; [exact E|]. apply Hnone. lia.
Qed.

Lemma last_match_None data pageId i :
  last_match data pageId i = None ->
  forall j, (0 < j <= i)%nat ->
    cell_strict_eq (at_ data j CONFIG.SHEETS.STATE.COLUMN_INDEX.PAGE_ID) pageId = false.
Proof.
  induction i as [|k IH]; [intros _ j Hj; lia|]. cbn [last_match].
  destruct (cell_strict_eq (at_ data (S k) _) pageId) eqn:E; [discriminate|].
  intros Hm j Hj. destruct (decide (j = S k)) as [->|Hne]; [exact E|].
  apply IH; [exact Hm | lia].
Qed.

(** *** After appending a row *)

Lemma obs_append sh r j c :
  r !! j = Some c -> obs (sh ++ [r]) (length sh) j = Some c.
Proof.
  intros Hc. rewrite obs_spec by (now destruct sh).
  rewrite lookup_app_r by lia. rewrite Nat.sub_diag. simpl. now rewrite Hc.
Qed.

Lemma lookup_previous_append `{Host} sh pageId payload p :
  sh <> [] -> primitive pageId = true ->
  JSON_parse (cell_text (Some payload)) = Ret p ->
  lookup_previous (sh ++ [[CVal pageId; payload]]) pageId
  = Some {| rowIndex := Z.of_nat (length sh) + 1; properties := p |}.
Proof.
  intros Hne Hprim Hparse. unfold lookup_previous.
  rewrite length_getValues by (now destruct sh).
  rewrite length_app. simpl length.
  replace (length sh + 1 - 1)%nat with (length sh) by lia.
  destruct (length sh) as [|n] eqn:Hlen; [destruct sh; [congruence | discriminate]|].
  cbn [last_match]. rewrite <- Hlen.
  fold (obs (sh ++ [[CVal pageId; payload]]) (length sh) CONFIG.SHEETS.STATE.COLUMN_INDEX.PAGE_ID).
  rewrite (obs_append sh _ _ (CVal pageId)) by reflexivity.
  simpl cell_strict_eq. rewrite strict_eq_refl by exact Hprim.
  fold (obs (sh ++ [[CVal pageId; payload]]) (length sh)
            CONFIG.SHEETS.STATE.COLUMN_INDEX.PROPERTIES_JSON).
  rewrite (obs_append sh _ _ payload) by reflexivity.
  now rewrite Hparse.
Qed.

(** *** After writing a payload in place *)

Lemma length_pad {A} (n : nat) (d : A) (l : list A) :
  length (pad n d l) = (length l `max` n)%nat.
Proof. unfold pad. rewrite length_app, length_replicate. lia. Qed.

Lemma insert_nonempty {A} (l : list A) i x : l <> [] -> <[i := x]> l <> [].
Proof. destruct l, i; simpl; congruence. Qed.

Lemma set_cell_in_range i c v sh r :
  sh !! i = Some r ->
  set_cell i c v sh = <[i := <[c := v]> (pad (S c) blank r)]> sh.
Proof.
  intros Hi. unfold set_cell. unfold sheet, row in *.
  rewrite (pad_length_le (S i) [] sh) by (apply lookup_lt_Some in Hi; lia).
  now rewrite Hi.
Qed.

Lemma obs_set_cell_key i v sh r j :
  sh !! i = Some r -> (0 < width sh)%nat ->
  obs (set_cell i 1 v sh) j 0 = obs sh j 0.
Proof.
  intros Hi Hw. rewrite (set_cell_in_range _ _ _ _ _ Hi).
  pose proof (lookup_lt_Some _ _ _ Hi) as Hlt.
  set (r' := <[1%nat := v]> (pad 2 blank r)).
  assert (Hne : sh <> []) by (intros ->; discriminate Hi).
  assert (Hne' : <[i := r']> sh <> []) by now apply insert_nonempty.
  rewrite !obs_spec by assumption.
  assert (Hw' : (0 < width (<[i := r']> sh))%nat).
  { assert (Hr' : (<[i := r']> sh) !! i = Some r') by now apply list_lookup_insert_eq.
    apply width_ge in Hr'. subst r'. rewrite length_insert, length_pad in Hr'. lia. }
  unfold sheet, row in *.
  destruct (decide (j = i)) as [->|Hji].
  - rewrite list_lookup_insert_eq by exact Hlt. rewrite Hi.
    subst r'. rewrite list_lookup_insert_ne by lia. rewrite pad_lookup.
    destruct (r !! 0%nat); [reflexivity|].
    apply Nat.ltb_lt in Hw. now rewrite Hw.
  - rewrite list_lookup_insert_ne by congruence.
    unfold sheet, row in *.
    destruct (sh !! j) as [rj|]; [|reflexivity].
    destruct (rj !! 0%nat); [reflexivity|].
    apply Nat.ltb_lt in Hw, Hw'. now rewrite Hw, Hw'.
Qed.

Lemma obs_set_cell_payload i v sh r :
  sh !! i = Some r -> obs (set_cell i 1 v sh) i 1 = Some v.
Proof.
  intros Hi. rewrite (set_cell_in_range _ _ _ _ _ Hi).
  pose proof (lookup_lt_Some _ _ _ Hi) as Hlt.
  rewrite obs_spec.
  - unfold sheet, row in *. rewrite list_lookup_insert_eq by exact Hlt.
    rewrite list_lookup_insert_eq; [reflexivity|]. rewrite length_pad. lia.
  - apply insert_nonempty. intros ->. discriminate Hi.
Qed.

Lemma length_set_cell i c v sh r :
  sh !! i = Some r -> length (set_cell i c v sh) = length sh.
Proof. intros Hi. rewrite (set_cell_in_range _ _ _ _ _ Hi). apply length_insert. Qed.

(** A row the loop stops at exists, and the sheet has a first column. *)
Lemma last_match_row sh pageId k :
  sh <> [] ->
  last_match (getValues sh) pageId (length (getValues sh) - 1) = Some k ->
  (0 < k)%nat /\ (exists r, sh !! k = Some r) /\ (0 < width sh)%nat.
Proof.
  intros Hne Hm. apply last_match_Some in Hm as (Hk & Hkey & _).
  rewrite length_getValues in Hk by exact Hne.
  split; [lia|].
  destruct (sh !! k) as [r|] eqn:Hr; [|apply lookup_ge_None in Hr; lia].
  split; [now exists r|].
  fold (obs sh k CONFIG.SHEETS.STATE.COLUMN_INDEX.PAGE_ID) in Hkey.
  rewrite obs_spec in Hkey by exact Hne. unfold sheet, row in *. rewrite Hr in Hkey.
  destruct (r !! CONFIG.SHEETS.STATE.COLUMN_INDEX.PAGE_ID) as [c|] eqn:Hc.
  - apply lookup_lt_Some in Hc. apply width_ge in Hr. lia.
  - destruct (CONFIG.SHEETS.STATE.COLUMN_INDEX.PAGE_ID <? width sh)%nat eqn:Hw;
      [apply Nat.ltb_lt in Hw; exact Hw | discriminate Hkey].
Qed.

Lemma lookup_previous_update `{Host} sh pageId k payload p :
  sh <> [] ->
  last_match (getValues sh) pageId (length (getValues sh) - 1) = Some k ->
  JSON_parse (cell_text (Some payload)) = Ret p ->
  lookup_previous (set_cell k 1 payload sh) pageId
  = Some {| rowIndex := Z.of_nat k + 1; properties := p |}.
Proof.
  intros Hne Hm Hparse.
  destruct (last_match_row sh pageId k Hne Hm) as (Hk & (r & Hr) & Hw).
  unfold lookup_previous.
  assert (Hne' : set_cell k 1 payload sh <> []).
  { rewrite (set_cell_in_range _ _ _ _ _ Hr). now apply insert_nonempty. }
  rewrite (length_getValues _ Hne'), (length_set_cell _ _ _ _ _ Hr).
  rewrite (length_getValues _ Hne) in Hm.
  rewrite (last_match_ext _ (getValues sh)).
  2:{ intros j. apply (obs_set_cell_key k payload sh r j Hr Hw). }
  rewrite Hm.
  change (at_ (getValues (set_cell k 1 payload sh)) k
              CONFIG.SHEETS.STATE.COLUMN_INDEX.PROPERTIES_JSON)
    with (obs (set_cell k 1 payload sh) k 1).
  rewrite (obs_set_cell_payload k payload sh r Hr). now rewrite Hparse.
Qed.

(** ** Round trip through the state sheet *)

Lemma lookup_previous_Some `{Host} sh pageId ps :
  lookup_previous sh pageId = Some ps ->
  exists k,
    last_match (getValues sh) pageId (length (getValues sh) - 1) = Some k /\
    rowIndex ps = Z.of_nat k + 1.
Proof.
  unfold lookup_previous.
  destruct (last_match _ _ _) as [k|]; [|discriminate].
  destruct (JSON_parse (cell_text (at_ (getValues sh) k _))) as [p|]; [|discriminate].
  intros E. inversion E. now exists k.
Qed.

Lemma lookup_previous_updated `{Host} sh pageId rawProperties :
  JSON_round_trip -> sh <> [] -> primitive pageId = true ->
  exists r,
    lookup_previous
      (updated_rows pageId (Some rawProperties) (rowIndex_of (lookup_previous sh pageId)) sh)
      pageId
    = Some {| rowIndex := r; properties := rawProperties |} /\
    (lookup_previous sh pageId <> None -> r = rowIndex_of (lookup_previous sh pageId)).
Proof.
  intros Hrt Hne Hprim.
  assert (Hparse : JSON_parse (cell_text (Some (payload_cell (Some rawProperties))))
                   = Ret rawProperties) by apply Hrt.
  unfold updated_rows. destruct (lookup_previous sh pageId) as [ps|] eqn:Hps.
  - apply lookup_previous_Some in Hps as (k & Hm & Hk).
    cbn [rowIndex_of]. rewrite Hk.
    replace (-1 <? Z.of_nat k + 1) with true by (symmetry; apply Z.ltb_lt; lia).
    replace (Z.to_nat (Z.of_nat k + 1 - 1)) with k by lia.
    eexists. split; [now apply lookup_previous_update|]. reflexivity.
  - cbn [rowIndex_of]. cbn [Z.ltb Z.compare].
    eexists. split; [now apply lookup_previous_append|]. congruence.
Qed.

Lemma previous_info_placeholders properties :
  pageUrl (previous_info properties) = JStr "URL不明" /\
  lastEditedTime (previous_info properties) = "日時不明".
Proof.
  unfold previous_info, previous_page, info_of.
  cbn [get assoc String.eqb Ascii.eqb Bool.eqb].
  destruct (truthy properties); split; reflexivity.
Qed.

(** C6: on a state sheet that has its header row, once the properties of
    a page are persisted by [updateCurrentState] at the row index
    [processWebhook] passes (that of [getPreviousState], or -1),
    [getPreviousState] for the same page id retrieves these very
    properties. The record the extractor returns for them, wrapped as
    [processWebhook] wraps them, has the company name, status, assignee
    and liaison status of the record extracted from any page data that
    holds these properties; its URL and its time are the placeholders,
    whatever the original page data held. *)
Theorem state_round_trip `{Host} (stateSheet : Sheet) (pageId : string)
    (rawProperties : json) (st st1 st2 : St) (previousState : option PreviousState) :
  JSON_round_trip ->
  rows_of stateSheet (world st) <> [] ->
  getPreviousState stateSheet (JStr pageId) st = (Ret previousState, st1) ->
  updateCurrentState stateSheet (JStr pageId) (Some rawProperties)
    (rowIndex_of previousState) st1 = (Ret tt, st2) ->
  exists r st3 retrieved,
    getPreviousState stateSheet (JStr pageId) st2
    = (Ret (Some {| rowIndex := r; properties := rawProperties |}), st3) /\
    (forall st4, exists st5,
       extractNotionInfo (previous_page rawProperties) st4 = (Ret retrieved, st5)) /\
    pageUrl retrieved = JStr "URL不明" /\
    lastEditedTime retrieved = "日時不明" /\
    (forall notionPageData st4 original st5,
       get notionPageData "properties" = Some rawProperties ->
       extractNotionInfo notionPageData st4 = (Ret original, st5) ->
       kigyoMei retrieved = kigyoMei original /\
       status retrieved = status original /\
       tanto retrieved = tanto original /\
       sharoushi retrieved = sharoushi original).
Proof.
  intros Hrt Hne Hget Hupd.
  destruct (getPreviousState_eq stateSheet (JStr pageId) st) as (ls & E).
  rewrite E in Hget. inversion Hget; subst previousState st1. clear Hget E.
  set (sh := rows_of stateSheet (world st)) in *.
  destruct (updateCurrentState_eq stateSheet (JStr pageId) (Some rawProperties)
              (rowIndex_of (lookup_previous sh (JStr pageId))) (add_logs ls st)
              (rowIndex_of_lookup_previous _ _)) as (ls' & E).
  rewrite E in Hupd. inversion Hupd; subst st2. clear Hupd E.
  destruct (lookup_previous_updated sh (JStr pageId) rawProperties Hrt Hne eq_refl)
    as (r & Hlook & _).
  destruct (getPreviousState_eq stateSheet (JStr pageId)
              (add_logs ls'
                 (upd_world (fun w => set_rows stateSheet
                    (updated_rows (JStr pageId) (Some rawProperties)
                       (rowIndex_of (lookup_previous sh (JStr pageId)))
                       (rows_of stateSheet w)) w) (add_logs ls st))))
    as (ls'' & E).
  cbn [world add_logs upd_world] in E. rewrite rows_of_set_rows in E.
  fold sh in E. rewrite Hlook in E.
  destruct (previous_info_placeholders rawProperties) as [Hurl Htime].
  exists r. eexists. exists (previous_info rawProperties).
  split; [exact E|]. split; [|split; [exact Hurl|split; [exact Htime|]]].
  - intros st4. destruct (extractNotionInfo_previous rawProperties) as (l & El).
    eexists. apply El.
  - intros pd st4 i st5 Hp Hext.
    destruct (extractNotionInfo_Ret _ _ _ _ Hext) as (t & ->).
    destruct (info_of_tracked pd rawProperties t Hp) as (H1 & H2 & H3 & H4).
    repeat split; congruence.
Qed.

(** ** A payload stored in the state sheet *)

Lemma last_match_ext_le data data' pageId i :
  (forall j, (j <= i)%nat ->
             at_ data j CONFIG.SHEETS.STATE.COLUMN_INDEX.PAGE_ID
             = at_ data' j CONFIG.SHEETS.STATE.COLUMN_INDEX.PAGE_ID) ->
  last_match data pageId i = last_match data' pageId i.
Proof.
  induction i as [|j IH]; intros Hk; [reflexivity|].
  cbn [last_match]. rewrite Hk by lia. rewrite IH; [reflexivity|].
  intros j' Hj'. apply Hk. lia.
Qed.

Lemma stored_nonempty sh pageId payload k : stored sh pageId payload k -> sh <> [].
Proof. intros (_ & r & Hr & _) ->. discriminate Hr. Qed.

Lemma stored_lookup `{Host} sh pageId payload k p :
  stored sh pageId payload k ->
  JSON_parse (cell_text (Some payload)) = Ret p ->
  lookup_previous sh pageId = Some {| rowIndex := Z.of_nat k + 1; properties := p |}.
Proof.
  intros Hst Hparse. pose proof (stored_nonempty _ _ _ _ Hst) as Hne.
  destruct Hst as (Hm & r & Hr & Hp).
  unfold lookup_previous. rewrite Hm.
  change (at_ (getValues sh) k CONFIG.SHEETS.STATE.COLUMN_INDEX.PROPERTIES_JSON)
    with (obs sh k 1).
  rewrite obs_spec by exact Hne. unfold sheet, row in *. rewrite Hr, Hp.
  now rewrite Hparse.
Qed.

Lemma stored_append sh pageId payload :
  sh <> [] -> primitive pageId = true ->
  stored (sh ++ [[CVal pageId; payload]]) pageId payload (length sh).
Proof.
  intros Hne Hprim. split.
  - rewrite length_getValues by (now destruct sh).
    rewrite length_app. simpl length.
    replace (length sh + 1 - 1)%nat with (length sh) by lia.
    destruct (length sh) as [|n] eqn:Hlen; [destruct sh; [congruence | discriminate]|].
    cbn [last_match]. rewrite <- Hlen.
    change (at_ (getValues (sh ++ [[CVal pageId; payload]])) (length sh)
                CONFIG.SHEETS.STATE.COLUMN_INDEX.PAGE_ID)
      with (obs (sh ++ [[CVal pageId; payload]]) (length sh) 0).
    rewrite (obs_append sh _ _ (CVal pageId)) by reflexivity.
    simpl cell_strict_eq. now rewrite strict_eq_refl.
  - exists [CVal pageId; payload]. split; [|reflexivity].
    unfold sheet, row in *.
    rewrite lookup_app_r by lia. now rewrite Nat.sub_diag.
Qed.

Lemma stored_update sh pageId payload k :
  sh <> [] ->
  last_match (getValues sh) pageId (length (getValues sh) - 1) = Some k ->
  stored (set_cell k 1 payload sh) pageId payload k.
Proof.
  intros Hne Hm.
  destruct (last_match_row sh pageId k Hne Hm) as (Hk & (r & Hr) & Hw).
  assert (Hne' : set_cell k 1 payload sh <> []).
  { rewrite (set_cell_in_range _ _ _ _ _ Hr). now apply insert_nonempty. }
  split.
  - rewrite (length_getValues _ Hne'), (length_set_cell _ _ _ _ _ Hr).
    rewrite (length_getValues _ Hne) in Hm.
    rewrite (last_match_ext _ (getValues sh)); [exact Hm|].
    intros j. apply (obs_set_cell_key k payload sh r j Hr Hw).
  - rewrite (set_cell_in_range _ _ _ _ _ Hr).
    exists (<[1%nat := payload]> (pad 2 blank r)). split.
    + apply list_lookup_insert_eq. now apply lookup_lt_Some in Hr.
    + apply list_lookup_insert_eq. rewrite length_pad. lia.
Qed.

(** A row whose key is a date, appended below, does not hide it. *)
Lemma stored_append_date sh pageId payload k a t :
  stored sh pageId payload k -> a !! 0%nat = Some (CDate t) ->
  stored (sh ++ [a]) pageId payload k.
Proof.
  intros Hst Ha. pose proof (stored_nonempty _ _ _ _ Hst) as Hne.
  destruct Hst as (Hm & r & Hr & Hp).
  assert (Hne' : sh ++ [a] <> []) by (now destruct sh).
  assert (Hw : (0 < width sh)%nat).
  { apply width_ge in Hr. apply lookup_lt_Some in Hp. lia. }
  assert (Hw' : (0 < width (sh ++ [a]))%nat).
  { assert (Hr' : (sh ++ [a]) !! k = Some r) by now apply lookup_app_l_Some.
    apply width_ge in Hr'. apply lookup_lt_Some in Hp. lia. }
  rewrite (length_getValues _ Hne) in Hm.
  split.
  - rewrite (length_getValues _ Hne'), length_app. simpl length.
    replace (length sh + 1 - 1)%nat with (length sh) by lia.
    destruct (length sh) as [|n] eqn:Hlen; [destruct sh; [congruence | discriminate]|].
    cbn [last_match]. rewrite <- Hlen.
    change (at_ (getValues (sh ++ [a])) (length sh) CONFIG.SHEETS.STATE.COLUMN_INDEX.PAGE_ID)
      with (obs (sh ++ [a]) (length sh) 0).
    rewrite (obs_append sh a 0 (CDate t) Ha). cbn [cell_strict_eq].
    replace (S n - 1)%nat with n in Hm by lia. rewrite <- Hm.
    apply last_match_ext_le. intros j Hj.
    change (obs (sh ++ [a]) j 0 = obs sh j 0).
    rewrite !obs_spec by assumption.
    rewrite lookup_app_l by lia. unfold sheet, row in *.
    destruct (sh !! j) as [rj|]; [|reflexivity].
    destruct (rj !! 0%nat); [reflexivity|].
    apply Nat.ltb_lt in Hw, Hw'. now rewrite Hw, Hw'.
  - exists r. split; [now apply lookup_app_l_Some | exact Hp].
Qed.

Lemma stored_updated `{Host} sh pageId payload :
  sh <> [] -> primitive pageId = true ->
  exists k,
    stored (if -1 <? rowIndex_of (lookup_previous sh pageId)
            then set_cell (Z.to_nat (rowIndex_of (lookup_previous sh pageId) - 1)) 1
                          payload sh
            else sh ++ [[CVal pageId; payload]])
           pageId payload k.
Proof.
  intros Hne Hprim. destruct (lookup_previous sh pageId) as [ps|] eqn:Hps.
  - apply lookup_previous_Some in Hps as (k & Hm & Hk).
    cbn [rowIndex_of]. rewrite Hk.
    replace (-1 <? Z.of_nat k + 1) with true by (symmetry; apply Z.ltb_lt; lia).
    replace (Z.to_nat (Z.of_nat k + 1 - 1)) with k by lia.
    exists k. now apply stored_update.
  - cbn [rowIndex_of]. cbn [Z.ltb Z.compare]. eexists. now apply stored_append.
Qed.

(** ** Orchestrator: from the [try] block to the response *)

Lemma status_strings_distinct :
  status_success <> status_fatal /\ status_partial <> status_fatal.
Proof. split; intros E; vm_compute in E; discriminate E. Qed.

Lemma processWebhook_of_try `{Host} env e w st_try :
  processWebhook_try env e (initial env w) = (Ret tt, st_try) ->
  exists resp st st_fin,
    processWebhook env e w = (Ret resp, st) /\
    processWebhook_finally env st_try = (Ret tt, st_fin) /\
    r_status resp = overallStatus (logData st_try) /\
    r_status resp <> status_fatal /\
    logData st = logData st_try /\
    outbox (world st) = outbox (world st_try) /\
    drive (world st) = drive (world st_fin).
Proof.
  intros Htry.
  destruct (processWebhook_m_run env e (initial env w))
    as (st1 & st2 & st3 & Htc & Hfin & Hrun & Hld & Hdr & Hob).
  unfold try_catch in Htc. rewrite Htry in Htc. inversion Htc; subst st1. clear Htc.
  destruct (processWebhook_finally_returns env st_try) as (st2' & Hfin' & Hld2 & Hob2).
  rewrite Hfin in Hfin'. inversion Hfin'; subst st2'. clear Hfin'.
  do 3 eexists. split; [exact Hrun|]. split; [exact Hfin|].
  cbn [r_status]. rewrite Hld2.
  split; [reflexivity|]. split.
  - pose proof (processWebhook_try_status_not_fatal env e (initial env w)) as Hinv.
    rewrite Htry in Hinv.
    destruct status_strings_distinct as [Hs Hp].
    destruct (Hinv (or_introl eq_refl)) as [E|E]; rewrite E; assumption.
  - split; [congruence|]. split; [congruence | exact Hdr].
Qed.

Lemma processWebhook_not_fatal `{Host} env e w resp st :
  processWebhook env e w = (Ret resp, st) -> r_status resp <> status_fatal ->
  exists st_try, processWebhook_try env e (initial env w) = (Ret tt, st_try).
Proof.
  intros Hrun Hnf.
  destruct (processWebhook_m_run env e (initial env w))
    as (st1 & st2 & st3 & Htc & Hfin & Hrun' & _).
  unfold processWebhook in Hrun. rewrite Hrun' in Hrun.
  inversion Hrun; subst resp st; clear Hrun. cbn [r_status] in Hnf.
  destruct (processWebhook_finally_returns env st1) as (st2' & Hfin' & Hld & _).
  rewrite Hfin in Hfin'. inversion Hfin'; subst st2'. clear Hfin'.
  rewrite Hld in Hnf.
  destruct (try_catch_status env e w st1 Htc)
    as [(st_try & Htry & _) | (err & st_try & _ & _ & Hs)]; [|contradiction].
  now exists st_try.
Qed.

(** ** Notifications that are not needed *)

Lemma handleNotifications_quiet `{Host} env previousInfo currentInfo config st :
  needsStatusNotification previousInfo currentInfo = false ->
  needsSharoushiNotification previousInfo currentInfo = false ->
  handleNotifications env previousInfo currentInfo config st
  = (Ret [], add_logs ["No significant changes detected for notification."] st).
Proof. intros H1 H2. unfold handleNotifications. rewrite H1, H2. reflexivity. Qed.

Lemma strict_neq_same a b : a = b -> primitive b = true -> strict_neq a b = false.
Proof. intros -> Hp. unfold strict_neq. now rewrite strict_eq_refl. Qed.

(** ** Sheets that exist already *)

Lemma acquire_exists h headers w : sheet_exists h w = true -> acquire h headers w = w.
Proof. intros Hex. unfold acquire. now rewrite Hex. Qed.

Lemma sheet_exists_drive h w w' : drive w = drive w' -> sheet_exists h w = sheet_exists h w'.
Proof. unfold sheet_exists. now intros ->. Qed.

Lemma sheet_exists_acquire_other h h' headers w :
  sheet_exists h' w = true -> sheet_exists h' (acquire h headers w) = true.
Proof.
  intros Hex. unfold acquire. destruct (sheet_exists h w); [exact Hex|].
  now apply sheet_exists_set_rows_other.
Qed.

(** ** Idempotence *)

(** A call on a known page whose stored properties are those of the
    payload, with primitive tracked values, sends nothing. *)
Lemma second_run_quiet `{Host} env e W id cpd info rawProperties k :
  JSON_round_trip ->
  props env !! CONFIG.PROP_KEYS.SPREADSHEET_ID = Some id -> nonempty id = true ->
  event_page e = Some cpd -> truthy_u (get cpd "id") = true ->
  extracted cpd = Ret info ->
  is_Some (drive W !! id) ->
  sheet_exists (log_sheet_of env id) W = true ->
  sheet_exists (state_sheet_of id) W = true ->
  get cpd "properties" = Some rawProperties ->
  stored (rows_of (state_sheet_of id) W) (pageId_of cpd)
         (payload_cell (Some rawProperties)) k ->
  primitive (status info) = true -> primitive (tanto info) = true ->
  primitive (sharoushi info) = true ->
  exists resp st2,
    processWebhook env e W = (Ret resp, st2) /\
    r_status resp = status_success /\
    discordSendStatus (logData st2) = [] /\
    outbox (world st2) = outbox W.
Proof.
  intros Hrt Hp Hn Hev Hid Hex Hd Hlog Hstate Hprops Hst Hp1 Hp2 Hp3.
  destruct (processWebhook_try_explicit env e (initial env W) id cpd info
              Hp Hn Hd Hev Hid Hex)
    as (wd & st7 & results & st8 & ls & Hw7 & Hld7 & _ & Hh & Htry).
  assert (Hw0 : world (after_setup env id (initial env W)) = W).
  { unfold after_setup. cbn [world upd_world upd_logSheet add_logs initial].
    rewrite (acquire_exists (log_sheet_of env id)) by exact Hlog.
    now apply acquire_exists. }
  rewrite Hw0 in Hh, Htry, Hw7.
  rewrite (stored_lookup _ _ _ _ rawProperties Hst (Hrt rawProperties)) in Hh, Htry.
  cbn [option_map properties] in Hh.
  destruct (extractNotionInfo_extracted cpd) as (lse & Hext). rewrite Hex in Hext.
  destruct (extractNotionInfo_Ret _ _ _ _ (Hext empty_state)) as (t & Hinfo).
  destruct (info_of_tracked cpd rawProperties t Hprops) as (E1 & E2 & E3 & _).
  rewrite <- Hinfo in E1, E2, E3.
  rewrite handleNotifications_quiet in Hh.
  2:{ cbn [needsStatusNotification]. apply orb_false_iff.
      split; apply strict_neq_same; congruence. }
  2:{ cbn [needsSharoushiNotification]. apply strict_neq_same; congruence. }
  inversion Hh; subst results st8. clear Hh.
  destruct (processWebhook_of_try env e W _ Htry)
    as (resp & st2 & st_fin & Hrun & _ & Hstat & _ & Hld & Hob & _).
  exists resp, st2. split; [exact Hrun|].
  split; [|split].
  - rewrite Hstat. cbn [logData add_logs persist upd_world record_results existsb
                        upd_logData set_discordSendStatus overallStatus].
    rewrite Hld7. reflexivity.
  - rewrite Hld. reflexivity.
  - rewrite Hob. cbn [world add_logs persist upd_world record_results existsb
                      upd_logData outbox set_rows].
    now rewrite Hw7.
Qed.

Lemma sheet_exists_set_rows_ne h h' rs w :
  h <> h' -> sheet_exists h' (set_rows h rs w) = sheet_exists h' w.
Proof.
  intros Hne. unfold sheet_exists, set_rows. simpl.
  destruct (decide (ss_id h = ss_id h')) as [Eid|Nid].
  - rewrite Eid, lookup_insert_eq.
    assert (Nn : sheet_name h <> sheet_name h').
    { intros En. destruct h, h'; simpl in *; congruence. }
    rewrite lookup_insert_ne by exact Nn.
    destruct (drive w !! ss_id h') as [b|]; simpl; [reflexivity|].
    apply bool_decide_eq_false. rewrite lookup_empty. intros [? ?]. discriminate.
  - now rewrite lookup_insert_ne.
Qed.

Lemma same_sheet_dec (h h' : Sheet) : {h = h'} + {h <> h'}.
Proof.
  destruct h as [i n], h' as [i' n'].
  destruct (decide (i = i')) as [->|Hi]; [|right; congruence].
  destruct (decide (n = n')) as [->|Hn]; [left; reflexivity | right; congruence].
Qed.

(** If the state sheet, where it exists, has its header row, then after
    set-up it has one. *)
Lemma rows_after_setup_nonempty env id st :
  (sheet_exists (state_sheet_of id) (world st) = true ->
   rows_of (state_sheet_of id) (world st) <> []) ->
  rows_of (state_sheet_of id) (world (after_setup env id st)) <> [].
Proof.
  intros Hhdr. unfold after_setup.
  cbn [world upd_world upd_logSheet add_logs].
  set (lh := log_sheet_of env id). set (sh := state_sheet_of id). set (w := world st) in *.
  assert (Hw' : sheet_exists sh (acquire lh CONFIG.SHEETS.LOG.HEADERS w) = true ->
                rows_of sh (acquire lh CONFIG.SHEETS.LOG.HEADERS w) <> []).
  { unfold acquire. destruct (sheet_exists lh w); [exact Hhdr|].
    destruct (same_sheet_dec lh sh) as [->|Hne].
    - intros _. rewrite rows_of_set_rows. discriminate.
    - rewrite sheet_exists_set_rows_ne, rows_of_set_rows_ne by exact Hne. exact Hhdr. }
  unfold acquire at 1.
  destruct (sheet_exists sh (acquire lh CONFIG.SHEETS.LOG.HEADERS w)) eqn:Hex.
  - now apply Hw'.
  - rewrite rows_of_set_rows. discriminate.
Qed.

Lemma sheet_exists_after_setup env id st :
  sheet_exists (log_sheet_of env id) (world (after_setup env id st)) = true /\
  sheet_exists (state_sheet_of id) (world (after_setup env id st)) = true.
Proof.
  unfold after_setup. cbn [world upd_world upd_logSheet add_logs]. split.
  - apply sheet_exists_acquire_other, sheet_exists_acquire.
  - apply sheet_exists_acquire.
Qed.

Lemma is_Some_after_setup env id st :
  is_Some (drive (world st) !! id) ->
  is_Some (drive (world (after_setup env id st)) !! id).
Proof.
  intros Hd. unfold after_setup. cbn [world upd_world upd_logSheet add_logs].
  now do 2 apply acquire_is_Some.
Qed.

Lemma audit_row_key d logs : audit_row d logs !! 0%nat = Some (CDate (timestamp d)).
Proof. unfold audit_row. now destruct (notionInfo d). Qed.

Lemma processWebhook_finally_drive `{Host} env h st :
  logSheet st = Some h ->
  exists st',
    processWebhook_finally env st = (Ret tt, st') /\
    (drive (world st') = drive (world st) \/
     drive (world st')
     = drive (set_rows h (rows_of h (world st)
                          ++ [audit_row (logData st) (executionLogs st)]) (world st))).
Proof.
  intros Hh. destruct (appendRow_error env) as [err|] eqn:Hap.
  - unfold processWebhook_finally, bind, get_logSheet, get_logData. rewrite Hh.
    unfold logToSheet, try_catch, bind, get_logs.
    destruct (notionInfo (logData st)); rewrite Hap;
      (eexists; split; [reflexivity | left; reflexivity]).
  - rewrite (processWebhook_finally_append env h st Hh Hap).
    eexists. split; [reflexivity | right; reflexivity].
Qed.

Lemma set_rows_drive h rs w w' :
  drive w = drive w' -> drive (set_rows h rs w) = drive (set_rows h rs w').
Proof. unfold set_rows. simpl. now intros ->. Qed.

(** The sheets the [try] block leaves when it runs to its end. *)
Lemma processWebhook_try_drive `{Host} env e st id cpd info :
  props env !! CONFIG.PROP_KEYS.SPREADSHEET_ID = Some id -> nonempty id = true ->
  is_Some (drive (world st) !! id) ->
  event_page e = Some cpd -> truthy_u (get cpd "id") = true ->
  extracted cpd = Ret info ->
  let w0 := world (after_setup env id st) in
  let sh0 := rows_of (state_sheet_of id) w0 in
  exists st_try,
    processWebhook_try env e st = (Ret tt, st_try) /\
    logSheet st_try = Some (log_sheet_of env id) /\
    drive (world st_try)
    = drive (set_rows (state_sheet_of id)
               (updated_rows (pageId_of cpd) (get cpd "properties")
                  (rowIndex_of (lookup_previous sh0 (pageId_of cpd))) sh0) w0).
Proof.
  intros Hp Hn Hd Hev Hid Hex w0 sh0.
  destruct (processWebhook_try_explicit env e st id cpd info Hp Hn Hd Hev Hid Hex)
    as (wd & st7 & results & st8 & ls & Hw7 & _ & Hls7 & Hh & Htry).
  fold w0 in Hw7, Hh, Htry. fold sh0 in Hh, Htry.
  eexists. split; [exact Htry|].
  pose proof (keeps_eq _ _ _ _ _ (handleNotifications_keeps_logSheet env _ _ _) Hh) as Hls8.
  pose proof (keeps_eq _ _ _ _ _ (handleNotifications_keeps_drive env _ _ _) Hh) as Hdr8.
  cbn beta in Hls8, Hdr8. rewrite Hw7 in Hdr8.
  split.
  - cbn [logSheet add_logs persist upd_world]. unfold record_results.
    destruct (existsb has_error results); cbn [logSheet upd_logData]; congruence.
  - cbn [world add_logs persist upd_world]. rewrite world_record_results.
    rewrite (rows_of_drive _ _ _ Hdr8). fold sh0.
    now apply set_rows_drive.
Qed.

(** After a call that did not end in the fatal status, the state sheet
    holds the properties of the page of the payload. *)
Lemma first_run_stores `{Host} env e w resp st1 :
  processWebhook env e w = (Ret resp, st1) -> r_status resp <> status_fatal ->
  (forall id, sheet_exists (state_sheet_of id) w = true ->
              rows_of (state_sheet_of id) w <> []) ->
  exists id cpd info,
    props env !! CONFIG.PROP_KEYS.SPREADSHEET_ID = Some id /\ nonempty id = true /\
    event_page e = Some cpd /\ truthy_u (get cpd "id") = true /\
    extracted cpd = Ret info /\
    is_Some (drive (world st1) !! id) /\
    sheet_exists (log_sheet_of env id) (world st1) = true /\
    sheet_exists (state_sheet_of id) (world st1) = true /\
    (primitive (pageId_of cpd) = true ->
     exists k, stored (rows_of (state_sheet_of id) (world st1)) (pageId_of cpd)
                      (payload_cell (get cpd "properties")) k).
Proof.
  intros Hrun Hnf Hhdr.
  destruct (processWebhook_not_fatal env e w resp st1 Hrun Hnf) as (st_try & Htry).
  destruct (processWebhook_try_Ret env e _ _ Htry)
    as (id & cpd & info & Hp & Hn & Hd & Hev & Hid & Hex).
  exists id, cpd, info. do 5 (split; [assumption|]).
  destruct (processWebhook_try_drive env e (initial env w) id cpd info
              Hp Hn Hd Hev Hid Hex) as (st_try' & Htry' & Hls & Hdr).
  rewrite Htry in Htry'. inversion Htry'; subst st_try'. clear Htry'.
  destruct (processWebhook_of_try env e w st_try Htry)
    as (resp' & st1' & st_fin & Hrun' & Hfin & _ & _ & _ & _ & Hdr1).
  rewrite Hrun in Hrun'. inversion Hrun'; subst resp' st1'. clear Hrun'.
  destruct (processWebhook_finally_drive env _ st_try Hls) as (st_fin' & Hfin' & Hdrf).
  rewrite Hfin in Hfin'. inversion Hfin'; subst st_fin'. clear Hfin'.
  set (lh := log_sheet_of env id) in *. set (sh := state_sheet_of id) in *.
  set (w0 := world (after_setup env id (initial env w))) in *.
  set (sh0 := rows_of sh w0) in *.
  set (rs := updated_rows (pageId_of cpd) (get cpd "properties")
               (rowIndex_of (lookup_previous sh0 (pageId_of cpd))) sh0) in *.
  destruct (sheet_exists_after_setup env id (initial env w)) as [Hexl Hexs].
  fold w0 lh in Hexl. fold w0 sh in Hexs.
  pose proof (is_Some_after_setup env id (initial env w) Hd) as Hd0. fold w0 in Hd0.
  assert (Hne0 : sh0 <> []).
  { apply rows_after_setup_nonempty. apply Hhdr. }
  (* the world the try block leaves *)
  assert (Ht1 : is_Some (drive (world st_try) !! id))
    by (rewrite Hdr; now apply drive_set_rows_is_Some).
  assert (Ht2 : sheet_exists lh (world st_try) = true).
  { rewrite (sheet_exists_drive _ _ _ Hdr). now apply sheet_exists_set_rows_other. }
  assert (Ht3 : sheet_exists sh (world st_try) = true).
  { rewrite (sheet_exists_drive _ _ _ Hdr). apply sheet_exists_set_rows. }
  assert (Ht4 : rows_of sh (world st_try) = rs).
  { rewrite (rows_of_drive _ _ _ Hdr). apply rows_of_set_rows. }
  assert (Hst : primitive (pageId_of cpd) = true ->
                exists k, stored rs (pageId_of cpd) (payload_cell (get cpd "properties")) k).
  { intros Hprim. subst rs. unfold updated_rows.
    now apply stored_updated. }
  destruct Hdrf as [Hdrf|Hdrf]; rewrite Hdrf in Hdr1.
  - split; [now rewrite Hdr1|].
    split; [now rewrite (sheet_exists_drive _ _ _ Hdr1)|].
    split; [now rewrite (sheet_exists_drive _ _ _ Hdr1)|].
    rewrite (rows_of_drive _ _ _ Hdr1), Ht4. exact Hst.
  - split; [rewrite Hdr1; now apply drive_set_rows_is_Some|].
    split; [rewrite (sheet_exists_drive _ _ _ Hdr1); apply sheet_exists_set_rows|].
    split; [rewrite (sheet_exists_drive _ _ _ Hdr1);
            now apply sheet_exists_set_rows_other|].
    rewrite (rows_of_drive _ _ _ Hdr1).
    destruct (same_sheet_dec lh sh) as [Heq|Hne].
    + rewrite Heq, rows_of_set_rows, Ht4. intros Hprim.
      destruct (Hst Hprim) as (k & Hk). exists k.
      eapply stored_append_date; [exact Hk | apply audit_row_key].
    + rewrite rows_of_set_rows_ne by exact Hne. rewrite Ht4. exact Hst.
Qed.

(** ** The concrete host keeps the JSON contract *)

Section MiniJSON_facts.
Import MiniJSON.

Lemma json_rect_nested (P : json -> Prop) :
  P JNull -> (forall b, P (JBool b)) -> (forall n, P (JNum n)) -> (forall s, P (JStr s)) ->
  (forall l, Forall P l -> P (JArr l)) ->
  (forall ms, Forall (fun kv => P kv.2) ms -> P (JObj ms)) ->
  forall v, P v.
Proof.
  intros HNull HBool HNum HStr HArr HObj.
  fix IH 1. intros [| b | n | s | l | ms].
  - exact HNull.
  - apply HBool.
  - apply HNum.
  - apply HStr.
  - apply HArr. induction l as [|x xs IHl]; constructor; [apply IH | exact IHl].
  - apply HObj. induction ms as [|[k x] xs IHl]; constructor; [apply IH | exact IHl].
Qed.

Lemma print_k_JArr x xs k :
  print_k (JArr (x :: xs)) k = String "[" (print_k x (print_elements_tail xs k)).
Proof.
  cbn [print_k]. do 2 f_equal.
  induction xs as [|y ys IHl]; [reflexivity|]. cbn [print_elements_tail].
  now rewrite <- IHl.
Qed.

Lemma print_k_JObj key x xs k :
  print_k (JObj ((key, x) :: xs)) k
  = String "{" (print_string_k key (String ":" (print_k x (print_members_tail xs k)))).
Proof.
  cbn [print_k]. do 4 f_equal.
  induction xs as [|[key' y] ys IHl]; [reflexivity|]. cbn [print_members_tail].
  now rewrite <- IHl.
Qed.

Lemma size_JArr l : size (JArr l) = S (size_elements l).
Proof.
  reflexivity.
Qed.

Lemma size_JObj ms : size (JObj ms) = S (size_members ms).
Proof.
  reflexivity.
Qed.

Lemma size_pos v : (1 <= size v)%nat.
Proof. destruct v; cbn [size]; lia. Qed.

(** *** Strings *)

Lemma parse_string_escape s k :
  parse_string (escape_k s (String quote k)) = Some (s, k).
Proof.
  induction s as [|c r IH]; [reflexivity|].
  cbn [escape_k]. destruct (needs_escape c) eqn:Hesc.
  - cbn [parse_string]. 
    change (Ascii.eqb backslash quote) with false.
    change (Ascii.eqb backslash backslash) with true. cbv iota.
    now rewrite Hesc, IH.
  - cbn [parse_string]. unfold needs_escape in Hesc.
    apply orb_false_iff in Hesc as [Hq Hb]. now rewrite Hq, Hb, IH.
Qed.

(** *** Numbers *)

Lemma span_num_uint d k :
  ends_number k ->
  span_num (NilEmpty.string_of_uint d +:+ k) = (NilEmpty.string_of_uint d, k).
Proof.
  intros Hk. induction d as [|d IH|d IH|d IH|d IH|d IH|d IH|d IH|d IH|d IH|d IH];
    cbn [NilEmpty.string_of_uint];
    try (change (String ?c ?r +:+ k) with (String c (r +:+ k));
         cbn [span_num]; 
         match goal with |- context [is_num ?c] => change (is_num c) with true end;
         cbv iota; now rewrite IH).
  change (EmptyString +:+ k) with k.
  destruct k as [|c r]; [reflexivity|]. cbn [span_num]. simpl in Hk. now rewrite Hk.
Qed.

Lemma string_of_uint_NilZero d :
  d <> Decimal.Nil -> NilZero.string_of_uint d = NilEmpty.string_of_uint d.
Proof. destruct d; [congruence | reflexivity ..]. Qed.

Lemma to_int_cases n :
  (exists d, Z.to_int n = Decimal.Pos d /\ d <> Decimal.Nil) \/
  (exists d, Z.to_int n = Decimal.Neg d /\ d <> Decimal.Nil).
Proof.
  destruct n as [|p|p]; cbn [Z.to_int].
  - left. eexists. split; [reflexivity | discriminate].
  - left. eexists. split; [reflexivity | apply Unsigned.to_uint_nonnil].
  - right. eexists. split; [reflexivity | apply Unsigned.to_uint_nonnil].
Qed.

Lemma int_of_string_of_Z n :
  NilZero.int_of_string (string_of_Z n) = Some (Z.to_int n).
Proof.
  unfold string_of_Z. apply NilZero.isi.
  - intros E. destruct (to_int_cases n) as [(d & Hd & Hnil)|(d & Hd & Hnil)];
      rewrite Hd in E; congruence.
  - intros E. destruct (to_int_cases n) as [(d & Hd & Hnil)|(d & Hd & Hnil)];
      rewrite Hd in E; congruence.
Qed.

Lemma span_num_string_of_Z n k :
  ends_number k -> span_num (string_of_Z n +:+ k) = (string_of_Z n, k).
Proof.
  intros Hk. unfold string_of_Z.
  destruct (to_int_cases n) as [(d & Hd & Hnil)|(d & Hd & Hnil)]; rewrite Hd;
    cbn [NilZero.string_of_int]; rewrite (string_of_uint_NilZero d Hnil).
  - now apply span_num_uint.
  - change (String "-" ?r +:+ k) with (String "-" (r +:+ k)).
    cbn [span_num]. change (is_num "-") with true. cbv iota.
    now rewrite span_num_uint.
Qed.

Lemma parse_number_string_of_Z n k :
  ends_number k -> parse_number (string_of_Z n +:+ k) = Some (JNum n, k).
Proof.
  intros Hk. unfold parse_number. rewrite (span_num_string_of_Z n k Hk).
  rewrite int_of_string_of_Z. now rewrite DecimalZ.of_to.
Qed.

(** The first character of the text of a number. *)
Lemma string_of_Z_head n :
  exists c r, string_of_Z n = String c r /\ is_num c = true.
Proof.
  unfold string_of_Z.
  destruct (to_int_cases n) as [(d & Hd & Hnil)|(d & Hd & Hnil)]; rewrite Hd;
    cbn [NilZero.string_of_int].
  - rewrite (string_of_uint_NilZero d Hnil).
    destruct d; [congruence | ..]; cbn [NilEmpty.string_of_uint];
      do 2 eexists; (split; [reflexivity|]); reflexivity.
  - do 2 eexists. split; reflexivity.
Qed.

Lemma is_num_not c x : is_num c = true -> is_num x = false -> Ascii.eqb c x = false.
Proof.
  intros Hc Hx. destruct (Ascii.eqb_spec c x) as [->|]; [congruence | reflexivity].
Qed.

(** *** Values *)

Lemma print_k_head v k :
  exists c r, print_k v k = String c r /\
              Ascii.eqb c "]" = false /\ is_num "]" = false.
Proof.
  destruct v as [| [|] | n | s | [|x xs] | [|[key x] xs]];
    try (do 2 eexists; split; [reflexivity|]; split; reflexivity).
  destruct (string_of_Z_head n) as (c & r & E & Hc).
  exists c, (r +:+ k). cbn [print_k]. rewrite E. split; [reflexivity|].
  split; [|reflexivity]. now apply is_num_not.
Qed.

Lemma ends_number_elements_tail xs k : ends_number (print_elements_tail xs k).
Proof. destruct xs; reflexivity. Qed.

Lemma ends_number_members_tail xs k : ends_number (print_members_tail xs k).
Proof. destruct xs as [|[key y] ys]; reflexivity. Qed.

Lemma parse_elements_print x xs :
  Forall parses (x :: xs) ->
  forall fuel k, (size_elements (x :: xs) <= fuel)%nat ->
    parse_elements fuel (print_k x (print_elements_tail xs k)) = Some (x :: xs, k).
Proof.
  revert x. induction xs as [|y ys IH]; intros x Hall fuel k Hfuel;
    inversion Hall as [|? ? Hx Hxs]; subst;
    (destruct fuel as [|fuel]; [cbn [size_elements] in Hfuel; lia|]);
    cbn [size_elements] in Hfuel; cbn [parse_elements].
  - rewrite (Hx fuel (print_elements_tail [] k)) by (lia || reflexivity).
    reflexivity.
  - rewrite (Hx fuel (print_elements_tail (y :: ys) k)) by (lia || reflexivity).
    cbn [print_elements_tail]. change (Ascii.eqb "," ",") with true. cbv iota.
    rewrite (IH y Hxs fuel k) by (cbn [size_elements]; lia). reflexivity.
Qed.

Lemma parse_members_print key x xs :
  Forall (fun kv => parses kv.2) ((key, x) :: xs) ->
  forall fuel k, (size_members ((key, x) :: xs) <= fuel)%nat ->
    parse_members fuel
      (print_string_k key (String ":" (print_k x (print_members_tail xs k))))
    = Some ((key, x) :: xs, k).
Proof.
  revert key x. induction xs as [|[key' y] ys IH]; intros key x Hall fuel k Hfuel;
    inversion Hall as [|? ? Hx Hxs]; subst; simpl in Hx;
    (destruct fuel as [|fuel]; [cbn [size_members] in Hfuel; lia|]);
    cbn [size_members] in Hfuel; unfold print_string_k; cbn [parse_members];
    change (Ascii.eqb quote quote) with true; cbv iota;
    rewrite parse_string_escape; change (Ascii.eqb ":" ":") with true; cbv iota.
  - rewrite (Hx fuel (print_members_tail [] k)) by (lia || reflexivity).
    reflexivity.
  - rewrite (Hx fuel (print_members_tail ((key', y) :: ys) k)) by (lia || reflexivity).
    cbn [print_members_tail]. change (Ascii.eqb "," ",") with true. cbv iota.
    fold (print_string_k key' (String ":" (print_k y (print_members_tail ys k)))).
    rewrite (IH key' y Hxs fuel k) by (cbn [size_members]; lia). reflexivity.
Qed.

Lemma parse_value_print v : parses v.
Proof.
  induction v as [| b | n | s | l IHl | ms IHms] using json_rect_nested;
    intros fuel k Hfuel Hk;
    (destruct fuel as [|fuel]; [cbn [size] in Hfuel; lia|]).
  - reflexivity.
  - destruct b; reflexivity.
  - destruct (string_of_Z_head n) as (c & r & E & Hc).
    cbn [print_k]. pose proof (parse_number_string_of_Z n k Hk) as Hnum.
    rewrite E in *. change (String c r +:+ k) with (String c (r +:+ k)) in *.
    cbn [parse_value].
    rewrite !(is_num_not c _ Hc) by reflexivity. now rewrite Hc.
  - cbn [print_k]. unfold print_string_k. cbn [parse_value].
    change (Ascii.eqb quote "n") with false. change (Ascii.eqb quote "t") with false.
    change (Ascii.eqb quote "f") with false. change (Ascii.eqb quote "[") with false.
    change (Ascii.eqb quote "{") with false. change (Ascii.eqb quote quote) with true.
    cbv iota. now rewrite parse_string_escape.
  - destruct l as [|x xs]; [reflexivity|].
    rewrite print_k_JArr. rewrite size_JArr in Hfuel.
    destruct (print_k_head x (print_elements_tail xs k)) as (c & r & E & Hc & _).
    cbn [parse_value]. change (Ascii.eqb "[" "n") with false.
    change (Ascii.eqb "[" "t") with false. change (Ascii.eqb "[" "f") with false.
    change (Ascii.eqb "[" "[") with true. cbv iota.
    rewrite E, Hc, <- E.
    rewrite (parse_elements_print x xs IHl fuel k) by lia. reflexivity.
  - destruct ms as [|[key x] xs]; [reflexivity|].
    rewrite print_k_JObj. rewrite size_JObj in Hfuel.
    cbn [parse_value]. change (Ascii.eqb "{" "n") with false.
    change (Ascii.eqb "{" "t") with false. change (Ascii.eqb "{" "f") with false.
    change (Ascii.eqb "{" "[") with false. change (Ascii.eqb "{" "{") with true.
    cbv iota. unfold print_string_k at 1.
    change (Ascii.eqb quote "}") with false. cbv iota.
    fold (print_string_k key (String ":" (print_k x (print_members_tail xs k)))).
    rewrite (parse_members_print key x xs IHms fuel k) by lia. reflexivity.
Qed.

(** *** Enough fuel *)

Lemma length_escape_k s k : (String.length k <= String.length (escape_k s k))%nat.
Proof.
  induction s as [|c r IH]; cbn [escape_k]; [lia|].
  destruct (needs_escape c); cbn [String.length]; lia.
Qed.

Lemma length_elements_tail xs k :
  Forall fits xs ->
  (size_elements xs + 1 + String.length k
   <= String.length (print_elements_tail xs k))%nat.
Proof.
  induction 1 as [|y ys Hy _ IH]; cbn [print_elements_tail size_elements String.length];
    [lia|].
  specialize (Hy (print_elements_tail ys k)). lia.
Qed.

Lemma length_members_tail xs k :
  Forall (fun kv => fits kv.2) xs ->
  (size_members xs + 1 + String.length k
   <= String.length (print_members_tail xs k))%nat.
Proof.
  induction 1 as [|[key y] ys Hy _ IH];
    cbn [print_members_tail size_members String.length]; [lia|].
  simpl in Hy. specialize (Hy (print_members_tail ys k)).
  unfold print_string_k. cbn [String.length].
  pose proof (length_escape_k key
                (String quote (String ":" (print_k y (print_members_tail ys k))))) as He.
  cbn [String.length] in He. lia.
Qed.

Lemma length_print_k v : fits v.
Proof.
  induction v as [| b | n | s | l IHl | ms IHms] using json_rect_nested; intros k.
  - cbn [print_k size]. rewrite length_append. cbn [String.length]. lia.
  - destruct b; cbn [print_k size]; rewrite length_append; cbn [String.length]; lia.
  - destruct (string_of_Z_head n) as (c & r & E & _).
    cbn [print_k size]. rewrite length_append, E. cbn [String.length]. lia.
  - cbn [print_k size]. unfold print_string_k. cbn [String.length].
    pose proof (length_escape_k s (String quote k)) as He.
    cbn [String.length] in He. lia.
  - destruct l as [|x xs]; [cbn [print_k size String.length]; lia|].
    rewrite print_k_JArr, size_JArr. cbn [size_elements String.length].
    inversion IHl as [|? ? Hx Hxs]; subst.
    specialize (Hx (print_elements_tail xs k)).
    pose proof (length_elements_tail xs k Hxs). lia.
  - destruct ms as [|[key x] xs]; [cbn [print_k size String.length]; lia|].
    rewrite print_k_JObj, size_JObj. cbn [size_members String.length].
    inversion IHms as [|? ? Hx Hxs]; subst. simpl in Hx.
    specialize (Hx (print_members_tail xs k)).
    pose proof (length_members_tail xs k Hxs).
    unfold print_string_k. cbn [String.length].
    pose proof (length_escape_k key
                  (String quote (String ":" (print_k x (print_members_tail xs k))))) as He.
    cbn [String.length] in He. lia.
Qed.

(** The codec of the concrete host keeps the contract of the built-ins. *)
Lemma MiniJSON_round_trip : @JSON_round_trip MiniJSON.host.
Proof.
  intros v. cbn [JSON_parse JSON_stringify host]. unfold parse, print.
  rewrite (parse_value_print v); [reflexivity | | exact I].
  pose proof (length_print_k v EmptyString) as Hl. cbn [String.length] in Hl. lia.
Qed.

End MiniJSON_facts.

Lemma state_round_trip_witness :
  let stateSheet := state_sheet_of "SS1" in
  let st := initial demo_env demo_world_corrupt in
  exists previousState st1 st2 r st3 retrieved st5,
    getPreviousState stateSheet (JStr "P1") st = (Ret previousState, st1) /\
    updateCurrentState stateSheet (JStr "P1") (Some demo_properties)
      (rowIndex_of previousState) st1 = (Ret tt, st2) /\
    getPreviousState stateSheet (JStr "P1") st2
    = (Ret (Some {| rowIndex := r; properties := demo_properties |}), st3) /\
    extractNotionInfo (previous_page demo_properties) st3 = (Ret retrieved, st5) /\
    tanto retrieved = JStr "田中".
Proof.
  intros stateSheet st.
  destruct (getPreviousState stateSheet (JStr "P1") st) as [[previousState|err] st1] eqn:E1;
    [|vm_compute in E1; discriminate E1].
  destruct (updateCurrentState stateSheet (JStr "P1") (Some demo_properties)
              (rowIndex_of previousState) st1) as [[[]|err] st2] eqn:E2.
  - destruct (state_round_trip stateSheet "P1" demo_properties st st1 st2 previousState
                MiniJSON_round_trip) as (r & st3 & retrieved & Hget & Hx & _ & _ & Hsame).
    + vm_compute. discriminate.
    + exact E1.
    + exact E2.
    + destruct (Hx st3) as (st5 & Hext).
      exists previousState, st1, st2, r, st3, retrieved, st5.
      split; [reflexivity|]. split; [exact E2|]. split; [exact Hget|].
      split; [exact Hext|].
      assert (Eo : extractNotionInfo demo_page empty_state = (Ret _, _))
        by (vm_compute; reflexivity).
      destruct (Hsame demo_page _ _ _ eq_refl Eo) as (_ & _ & Ht & _).
      exact Ht.
  - exfalso. pose proof E1 as E1'. vm_compute in E1'. injection E1' as <- <-.
    vm_compute in E2. discriminate E2.
Defined.

(** C6 as stated fails: the URL of a page is not stored with its
    properties, so the record extracted after the round trip has the
    placeholder where the record extracted from the original page data has
    the URL. *)
Lemma state_round_trip_loses_url :
  let stateSheet := state_sheet_of "SS1" in
  let st := initial demo_env demo_world_corrupt in
  get demo_page_url "properties" = Some demo_properties /\
  exists previousState st1 st2 r st3 original retrieved,
    getPreviousState stateSheet (JStr "P1") st = (Ret previousState, st1) /\
    updateCurrentState stateSheet (JStr "P1") (get demo_page_url "properties")
      (rowIndex_of previousState) st1 = (Ret tt, st2) /\
    getPreviousState stateSheet (JStr "P1") st2
    = (Ret (Some {| rowIndex := r; properties := demo_properties |}), st3) /\
    extracted demo_page_url = Ret original /\
    extracted (previous_page demo_properties) = Ret retrieved /\
    pageUrl original = JStr "https://www.notion.so/P1" /\
    pageUrl retrieved = JStr "URL不明".
Proof.
  intros stateSheet st. split; [reflexivity|].
  do 7 eexists. split; [vm_compute; reflexivity|].
  split; [vm_compute; reflexivity|]. split; [vm_compute; reflexivity|].
  split; [vm_compute; reflexivity|]. split; [vm_compute; reflexivity|].
  split; reflexivity.
Qed.

(** ** Idempotence of the orchestrator *)

(** C2, as the code has it: for every payload that carries a page id and
    properties and whose page id, status, assignee and liaison status are
    primitives, after a first call persisted the properties (it did not end
    in the fatal status; the state sheet had its header row), a second call
    with the same payload and the same script properties dispatches no
    notification: it records none and sends no request. *)
Theorem processWebhook_idempotent `{Host} env1 env2 (e : option json) (w : Store)
    resp1 st1 :
  JSON_round_trip ->
  typed_payload e ->
  state_sheets_have_header w ->
  processWebhook env1 e w = (Ret resp1, st1) -> r_status resp1 <> status_fatal ->
  props env2 = props env1 ->
  exists resp2 st2,
    processWebhook env2 e (world st1) = (Ret resp2, st2) /\
    r_status resp2 = status_success /\
    discordSendStatus (logData st2) = [] /\
    outbox (world st2) = outbox (world st1).
Proof.
  intros Hrt Htyped Hhdr Hrun Hnf Hprops.
  destruct (first_run_stores env1 e w resp1 st1 Hrun Hnf Hhdr)
    as (id & cpd & info & Hp & Hn & Hev & Hid & Hex & Hd & Hlog & Hstate & Hst).
  destruct (Htyped cpd info Hev Hex) as (Hpid & [raw Hraw] & Hp1 & Hp2 & Hp3).
  destruct (Hst Hpid) as (k & Hk). rewrite Hraw in Hk.
  assert (Hlh : log_sheet_of env2 id = log_sheet_of env1 id).
  { unfold log_sheet_of, config_of. now rewrite Hprops. }
  apply (second_run_quiet env2 e (world st1) id cpd info raw k); try assumption.
  - now rewrite Hprops.
  - now rewrite Hlh.
Qed.

Lemma demo_world_has_header : state_sheets_have_header demo_world.
Proof.
  intros id Hex. exfalso. unfold sheet_exists, demo_world in Hex. cbn [drive] in Hex.
  destruct (decide (id = "SS1")) as [->|Hne].
  - cbn [state_sheet_of ss_id sheet_name] in Hex.
    rewrite lookup_singleton_eq in Hex. apply bool_decide_eq_true in Hex.
    rewrite lookup_empty in Hex. destruct Hex as [? ?]. discriminate.
  - cbn [state_sheet_of ss_id] in Hex. rewrite lookup_singleton_ne in Hex by congruence.
    discriminate Hex.
Qed.

Lemma demo_body_typed : typed_payload (post demo_body).
Proof.
  intros cpd info Hev Hex.
  vm_compute in Hev. injection Hev as <-.
  vm_compute in Hex. injection Hex as <-.
  repeat split; try reflexivity. eexists. reflexivity.
Qed.

Lemma processWebhook_idempotent_witness :
  exists resp1 st1 resp2 st2,
    processWebhook demo_env (post demo_body) demo_world = (Ret resp1, st1) /\
    r_status resp1 = status_success /\
    processWebhook demo_env (post demo_body) (world st1) = (Ret resp2, st2) /\
    discordSendStatus (logData st2) = [] /\
    outbox (world st2) = outbox (world st1).
Proof.
  destruct (processWebhook demo_env (post demo_body) demo_world)
    as [[resp1|err] st1] eqn:E1.
  - pose proof E1 as E1'. vm_compute in E1'. injection E1' as Hresp _.
    assert (Hs : r_status resp1 = status_success) by (now rewrite <- Hresp).
    destruct (processWebhook_idempotent demo_env demo_env (post demo_body) demo_world
                resp1 st1 MiniJSON_round_trip demo_body_typed demo_world_has_header E1)
      as (resp2 & st2 & Hrun2 & _ & Hquiet & Hout).
    + rewrite Hs. intros E. vm_compute in E. discriminate E.
    + reflexivity.
    + exists resp1, st1, resp2, st2. repeat split; assumption.
  - vm_compute in E1. discriminate E1.
Defined.

(** C2 as stated fails: with an assignee name that is an array, the first
    call succeeds and persists the properties, and the second call with
    the same payload sends the status message again, because two arrays
    are never [===]. *)
Lemma processWebhook_not_idempotent_on_array :
  exists resp1 st1,
    processWebhook demo_env (post demo_body_array) demo_world = (Ret resp1, st1) /\
    r_status resp1 = status_success /\
    rows_of (state_sheet_of "SS1") (world st1)
    = [ header_row CONFIG.SHEETS.STATE.HEADERS;
        [CVal (JStr "P1"); payload_cell (get demo_page_array "properties")] ] /\
    exists resp2 st2,
      processWebhook demo_env (post demo_body_array) (world st1) = (Ret resp2, st2) /\
      discordSendStatus (logData st2) = [type_status +:+ ": 送信成功"] /\
      length (outbox (world st2)) = S (length (outbox (world st1))).
Proof.
  destruct (processWebhook demo_env (post demo_body_array) demo_world)
    as [[resp1|err] st1] eqn:E1; vm_compute in E1; [|discriminate E1].
  injection E1 as <- <-.
  do 2 eexists. split; [reflexivity|]. split; [reflexivity|].
  split; [vm_compute; reflexivity|].
  match goal with
  | |- context [processWebhook demo_env (post demo_body_array) ?w] =>
      destruct (processWebhook demo_env (post demo_body_array) w)
        as [[resp2|err] st2] eqn:E2; vm_compute in E2; [|discriminate E2]
  end.
  injection E2 as <- <-.
  do 2 eexists. split; [reflexivity|].
  split; vm_compute; reflexivity.
Qed.

(** ** The state-history table *)

Lemma last_match_found data pageId i k :
  (0 < k <= i)%nat ->
  cell_strict_eq (at_ data k CONFIG.SHEETS.STATE.COLUMN_INDEX.PAGE_ID) pageId = true ->
  (forall j, (k < j <= i)%nat ->
     cell_strict_eq (at_ data j CONFIG.SHEETS.STATE.COLUMN_INDEX.PAGE_ID) pageId = false) ->
  last_match data pageId i = Some k.
Proof.
  induction i as [|i IH]; intros Hk Hm Hnone; [lia|].
  cbn [last_match]. destruct (decide (k = S i)) as [->|Hne].
  - now rewrite Hm.
  - rewrite Hnone by lia. apply IH; [lia | exact Hm |]. intros j Hj. apply Hnone. lia.
Qed.

Lemma obs_key_inv `{Host} sh j r :
  state_inv sh -> (0 < j)%nat -> sh !! j = Some r ->
  obs sh j 0 = r !! 0%nat /\ obs sh j 1 = r !! 1%nat.
Proof.
  intros (Hne & Hwf & _) Hj Hr.
  destruct (Hwf j r Hj Hr) as (key & c & p & H0 & H1 & _).
  rewrite !obs_spec by exact Hne. unfold sheet, row in *. now rewrite Hr, H0, H1.
Qed.

Lemma last_match_has_row `{Host} sh pageId k :
  state_inv sh ->
  last_match (getValues sh) pageId (length (getValues sh) - 1) = Some k ->
  has_row sh pageId k.
Proof.
  intros Hinv Hm. pose proof Hinv as (Hne & Hwf & _).
  destruct (last_match_row sh pageId k Hne Hm) as (Hk & (r & Hr) & _).
  apply last_match_Some in Hm as (_ & Hkey & _).
  change (at_ (getValues sh) k CONFIG.SHEETS.STATE.COLUMN_INDEX.PAGE_ID)
    with (obs sh k 0) in Hkey.
  destruct (obs_key_inv sh k r Hinv Hk Hr) as [H0 _]. rewrite H0 in Hkey.
  destruct (Hwf k r Hk Hr) as (key & c & p & Hk0 & _). rewrite Hk0 in Hkey.
  split; [exact Hk|]. now exists r, key.
Qed.

Lemma has_row_last_match `{Host} sh pageId k :
  state_inv sh -> has_row sh pageId k ->
  last_match (getValues sh) pageId (length (getValues sh) - 1) = Some k.
Proof.
  intros Hinv Hrow. pose proof Hinv as (Hne & Hwf & Huniq).
  pose proof Hrow as (Hk & r & key & Hr & Hk0 & Hkey).
  rewrite (length_getValues _ Hne).
  pose proof (lookup_lt_Some _ _ _ Hr) as Hlt.
  apply last_match_found; [lia | |].
  - change (at_ (getValues sh) k CONFIG.SHEETS.STATE.COLUMN_INDEX.PAGE_ID)
      with (obs sh k 0).
    destruct (obs_key_inv sh k r Hinv Hk Hr) as [-> _]. now rewrite Hk0.
  - intros j Hj.
    change (at_ (getValues sh) j CONFIG.SHEETS.STATE.COLUMN_INDEX.PAGE_ID)
      with (obs sh j 0).
    destruct (sh !! j) as [rj|] eqn:Hrj; [|apply lookup_ge_None in Hrj; lia].
    destruct (obs_key_inv sh j rj Hinv ltac:(lia) Hrj) as [-> _].
    destruct (Hwf j rj ltac:(lia) Hrj) as (keyj & c & p & Hj0 & _). rewrite Hj0.
    cbn [cell_strict_eq]. destruct (strict_eq keyj pageId) eqn:E; [|reflexivity].
    exfalso. assert (Hrowj : has_row sh pageId j).
    { split; [lia|]. now exists rj, keyj. }
    specialize (Huniq pageId j k Hrowj Hrow). lia.
Qed.

Lemma lookup_previous_inv `{Host} sh pageId :
  state_inv sh ->
  match lookup_previous sh pageId with
  | Some ps => exists k, has_row sh pageId k /\ rowIndex ps = Z.of_nat k + 1
  | None => forall k, ~ has_row sh pageId k
  end.
Proof.
  intros Hinv. destruct (lookup_previous sh pageId) as [ps|] eqn:Hps.
  - apply lookup_previous_Some in Hps as (k & Hm & Hk).
    exists k. split; [now apply last_match_has_row | exact Hk].
  - intros k Hrow. pose proof (has_row_last_match sh pageId k Hinv Hrow) as Hm.
    unfold lookup_previous in Hps. rewrite Hm in Hps.
    destruct Hrow as (Hk & r & key & Hr & Hk0 & _).
    destruct Hinv as (Hne & Hwf & _).
    destruct (Hwf k r Hk Hr) as (key' & c & p & _ & H1 & Hparse).
    change (at_ (getValues sh) k CONFIG.SHEETS.STATE.COLUMN_INDEX.PROPERTIES_JSON)
      with (obs sh k 1) in Hps.
    rewrite obs_spec in Hps by exact Hne. unfold sheet, row in *.
    rewrite Hr, H1, Hparse in Hps. discriminate Hps.
Qed.

Lemma state_inv_fresh `{Host} : state_inv [header_row CONFIG.SHEETS.STATE.HEADERS].
Proof.
  split; [discriminate|]. split.
  - intros [|[|j]] r Hj Hr; [lia | discriminate Hr | discriminate Hr].
  - intros pageId [|[|j1]] j2 (Hj1 & r & key & Hr & _) _;
      [lia | discriminate Hr | discriminate Hr].
Qed.

Lemma has_row_app sh r pageId j :
  has_row (sh ++ [r]) pageId j <->
  has_row sh pageId j \/
  ((0 < j)%nat /\ j = length sh /\
   exists key, r !! 0%nat = Some (CVal key) /\ strict_eq key pageId = true).
Proof.
  unfold has_row. unfold sheet, row in *. split.
  - intros (Hj & r' & key & Hr & Hk & He).
    destruct (decide (j < length sh)%nat) as [Hlt|Hge].
    + rewrite lookup_app_l in Hr by exact Hlt. left. split; [exact Hj|]. now exists r', key.
    + rewrite lookup_app_r in Hr by lia.
      destruct (j - length sh)%nat as [|n] eqn:En; [|now destruct n].
      inversion Hr; subst r'. right. split; [exact Hj|]. split; [lia|]. now exists key.
  - intros [(Hj & r' & key & Hr & Hk & He)|(Hj & -> & key & Hk & He)].
    + split; [exact Hj|]. exists r', key. split; [|now split].
      rewrite lookup_app_l; [exact Hr | now apply lookup_lt_Some in Hr].
    + split; [exact Hj|]. exists r, key. split; [|now split].
      rewrite lookup_app_r by lia. now rewrite Nat.sub_diag.
Qed.

Lemma state_inv_append `{Host} sh (pageId rawProperties : json) :
  JSON_round_trip -> state_inv sh -> (forall k, ~ has_row sh pageId k) ->
  state_inv (sh ++ [[CVal pageId; payload_cell (Some rawProperties)]]).
Proof.
  intros Hrt (Hne & Hwf & Huniq) Hnone. split; [now destruct sh|]. split.
  - intros j r Hj Hr. unfold sheet, row in *.
    destruct (decide (j < length sh)%nat) as [Hlt|Hge].
    + rewrite lookup_app_l in Hr by exact Hlt. now apply (Hwf j).
    + rewrite lookup_app_r in Hr by lia.
      destruct (j - length sh)%nat as [|n] eqn:En; [|now destruct n].
      inversion Hr; subst r. exists pageId, (payload_cell (Some rawProperties)), rawProperties.
      split; [reflexivity|]. split; [reflexivity|]. apply Hrt.
  - intros q j1 j2 H1 H2. apply has_row_app in H1, H2.
    assert (Hq : forall key, strict_eq key q = true ->
                 [CVal pageId; payload_cell (Some rawProperties)] !! 0%nat = Some (CVal key) ->
                 q = pageId).
    { intros key He Hk. inversion Hk; subst key. now apply strict_eq_primitive in He as [-> _]. }
    destruct H1 as [H1|(_ & -> & key1 & Hk1 & He1)],
             H2 as [H2|(_ & -> & key2 & Hk2 & He2)].
    + now apply (Huniq q).
    + rewrite (Hq key2 He2 Hk2) in H1. now apply Hnone in H1.
    + rewrite (Hq key1 He1 Hk1) in H2. now apply Hnone in H2.
    + reflexivity.
Qed.

Lemma has_row_insert sh k r v pageId j :
  sh !! k = Some r ->
  has_row (<[k := <[1%nat := v]> r]> sh) pageId j <-> has_row sh pageId j.
Proof.
  intros Hr. pose proof (lookup_lt_Some _ _ _ Hr) as Hlt.
  unfold has_row. unfold sheet, row in *.
  destruct (decide (j = k)) as [->|Hjk].
  - rewrite list_lookup_insert_eq by exact Hlt. split.
    + intros (Hj & r' & key & Hr' & Hk & He). inversion Hr'; subst r'.
      rewrite list_lookup_insert_ne in Hk by lia.
      split; [exact Hj|]. now exists r, key.
    + intros (Hj & r' & key & Hr' & Hk & He). rewrite Hr in Hr'. inversion Hr'; subst r'.
      split; [exact Hj|]. exists (<[1%nat := v]> r), key. split; [reflexivity|].
      split; [|exact He]. now rewrite list_lookup_insert_ne by lia.
  - now rewrite list_lookup_insert_ne by congruence.
Qed.

Lemma set_cell_payload `{Host} sh k r v :
  state_inv sh -> (0 < k)%nat -> sh !! k = Some r ->
  set_cell k CONFIG.SHEETS.STATE.COLUMN_INDEX.PROPERTIES_JSON v sh
  = <[k := <[1%nat := v]> r]> sh.
Proof.
  intros (_ & Hwf & _) Hk Hr. destruct (Hwf k r Hk Hr) as (key & c & p & _ & H1 & _).
  rewrite (set_cell_in_range _ _ _ _ _ Hr). unfold pad.
  apply lookup_lt_Some in H1.
  change CONFIG.SHEETS.STATE.COLUMN_INDEX.PROPERTIES_JSON with 1%nat.
  replace (2 - length r)%nat with 0%nat by lia.
  change (replicate 0 blank) with (@nil cell). now rewrite (app_nil_r r).
Qed.

Lemma state_inv_update `{Host} sh k r (rawProperties : json) :
  JSON_round_trip -> state_inv sh -> (0 < k)%nat -> sh !! k = Some r ->
  state_inv (<[k := <[1%nat := payload_cell (Some rawProperties)]> r]> sh).
Proof.
  intros Hrt (Hne & Hwf & Huniq) Hk Hr. pose proof (lookup_lt_Some _ _ _ Hr) as Hlt.
  split; [now apply insert_nonempty|]. split.
  - intros j r' Hj Hr'. unfold sheet, row in *.
    destruct (decide (j = k)) as [->|Hjk].
    + rewrite list_lookup_insert_eq in Hr' by exact Hlt. inversion Hr'; subst r'.
      destruct (Hwf k r Hk Hr) as (key & c & p & H0 & H1 & _).
      exists key, (payload_cell (Some rawProperties)), rawProperties.
      split; [now rewrite list_lookup_insert_ne by lia|].
      split; [|apply Hrt].
      apply list_lookup_insert_eq. now apply lookup_lt_Some in H1.
    + rewrite list_lookup_insert_ne in Hr' by congruence. now apply (Hwf j).
  - intros q j1 j2 H1 H2.
    apply (has_row_insert sh k r _ q j1 Hr) in H1.
    apply (has_row_insert sh k r _ q j2 Hr) in H2. now apply (Huniq q).
Qed.

(** C5, as the code has it: the state-history table keeps an invariant: it has its
    header row, every data row holds a key and a payload that
    deserialises, and at most one row matches any page identifier.  The
    state sheet [getOrCreateSheet] creates satisfies it, and on every
    table that satisfies it a sighting of a page with properties (the
    lookup of [getPreviousState] followed by [updateCurrentState] at the
    row index the lookup gave) returns and keeps it.  The first sighting
    of a page identifier appends exactly one row for it; a later sighting
    replaces the payload cell of its row in place and appends nothing;
    every row stays at its index with its key, so none is ever deleted. *)
Theorem state_table_invariant `{Host} (env : Env) :
  JSON_round_trip ->
  (forall id st,
     is_Some (drive (world st) !! id) ->
     sheet_exists (state_sheet_of id) (world st) = false ->
     exists st',
       getOrCreateSheet env id CONFIG.SHEETS.STATE.NAME CONFIG.SHEETS.STATE.HEADERS st
       = (Ret (state_sheet_of id), st') /\
       state_inv (rows_of (state_sheet_of id) (world st'))) /\
  (forall (stateSheet : Sheet) (pageId : string) (rawProperties : json) (st : St),
     state_inv (rows_of stateSheet (world st)) ->
     exists previousState st1 st2,
       getPreviousState stateSheet (JStr pageId) st = (Ret previousState, st1) /\
       updateCurrentState stateSheet (JStr pageId) (Some rawProperties)
         (rowIndex_of previousState) st1 = (Ret tt, st2) /\
       let sh := rows_of stateSheet (world st) in
       let sh' := rows_of stateSheet (world st2) in
       state_inv sh' /\
       ((forall k, ~ has_row sh (JStr pageId) k) ->
        previousState = None /\
        sh' = sh ++ [[CVal (JStr pageId); payload_cell (Some rawProperties)]]) /\
       (forall k r, has_row sh (JStr pageId) k -> sh !! k = Some r ->
        rowIndex_of previousState = Z.of_nat k + 1 /\
        sh' = <[k := <[1%nat := payload_cell (Some rawProperties)]> r]> sh) /\
       (forall j r, sh !! j = Some r ->
        exists r', sh' !! j = Some r' /\ r' !! 0%nat = r !! 0%nat)).
Proof.
  intros Hrt. split.
  - intros id st Hd Hex. eexists. split.
    + apply getOrCreateSheet_eq; [exact Hd | discriminate].
    + cbn [world upd_world]. unfold acquire.
      change {| ss_id := id; sheet_name := CONFIG.SHEETS.STATE.NAME |}
        with (state_sheet_of id).
      rewrite Hex, rows_of_set_rows. apply state_inv_fresh.
  - intros stateSheet pageId rawProperties st Hinv.
    destruct (getPreviousState_eq stateSheet (JStr pageId) st) as (ls & Eg).
    set (sh := rows_of stateSheet (world st)) in *.
    destruct (updateCurrentState_eq stateSheet (JStr pageId) (Some rawProperties)
                (rowIndex_of (lookup_previous sh (JStr pageId))) (add_logs ls st)
                (rowIndex_of_lookup_previous _ _)) as (ls' & Eu).
    eexists _, _, _. split; [exact Eg|]. split; [exact Eu|].
    cbn [world add_logs upd_world]. rewrite rows_of_set_rows. fold sh.
    pose proof (lookup_previous_inv sh (JStr pageId) Hinv) as Hlook.
    pose proof Hinv as (Hne & Hwf & Huniq).
    assert (Hrows :
      match lookup_previous sh (JStr pageId) with
      | Some ps =>
          exists k r, has_row sh (JStr pageId) k /\ sh !! k = Some r /\
            rowIndex ps = Z.of_nat k + 1 /\
            updated_rows (JStr pageId) (Some rawProperties)
              (rowIndex_of (lookup_previous sh (JStr pageId))) sh
            = <[k := <[1%nat := payload_cell (Some rawProperties)]> r]> sh
      | None =>
          updated_rows (JStr pageId) (Some rawProperties)
            (rowIndex_of (lookup_previous sh (JStr pageId))) sh
          = sh ++ [[CVal (JStr pageId); payload_cell (Some rawProperties)]]
      end).
    { unfold updated_rows. destruct (lookup_previous sh (JStr pageId)) as [ps|].
      - destruct Hlook as (k & Hrow & Hk). pose proof Hrow as (Hk0 & r & key & Hr & _).
        exists k, r. split; [exact Hrow|]. split; [exact Hr|]. split; [exact Hk|].
        cbn [rowIndex_of]. rewrite Hk.
        replace (-1 <? Z.of_nat k + 1) with true by (symmetry; apply Z.ltb_lt; lia).
        replace (Z.to_nat (Z.of_nat k + 1 - 1)) with k by lia.
        now apply set_cell_payload.
      - reflexivity. }
    destruct (lookup_previous sh (JStr pageId)) as [ps|] eqn:Hps.
    + destruct Hrows as (k & r & Hrow & Hr & Hk & ->).
      pose proof Hrow as (Hk0 & _).
      pose proof (lookup_lt_Some _ _ _ Hr) as Hlt.
      split; [now apply state_inv_update|]. split; [|split].
      * intros Hnone. now apply Hnone in Hrow.
      * intros k' r' Hrow' Hr'. rewrite (Huniq _ _ _ Hrow' Hrow) in *.
        unfold sheet, row in *. rewrite Hr in Hr'. inversion Hr'; subst r'.
        split; [exact Hk | reflexivity].
      * intros j rj Hj. unfold sheet, row in *. destruct (decide (j = k)) as [->|Hjk].
        -- rewrite Hr in Hj. inversion Hj; subst rj. eexists. split.
           ++ now apply list_lookup_insert_eq.
           ++ now rewrite list_lookup_insert_ne by lia.
        -- exists rj. split; [|reflexivity]. now rewrite list_lookup_insert_ne by congruence.
    + rewrite Hrows. split; [now apply state_inv_append|]. split; [|split].
      * intros _. split; reflexivity.
      * intros k r Hrow _. now apply Hlook in Hrow.
      * intros j rj Hj. exists rj. split; [|reflexivity].
        unfold sheet, row in *. rewrite lookup_app_l; [exact Hj | now apply lookup_lt_Some in Hj].
Qed.

Lemma state_table_invariant_witness :
  let st := initial demo_env
              (acquire (state_sheet_of "SS1") CONFIG.SHEETS.STATE.HEADERS demo_world) in
  let rawProperties := JObj [("担当", JObj [("select", JObj [("name", JStr "田中")])])] in
  state_inv (rows_of (state_sheet_of "SS1") (world st)) /\
  exists previousState st1 st2,
    getPreviousState (state_sheet_of "SS1") (JStr "P1") st = (Ret previousState, st1) /\
    updateCurrentState (state_sheet_of "SS1") (JStr "P1") (Some rawProperties)
      (rowIndex_of previousState) st1 = (Ret tt, st2) /\
    state_inv (rows_of (state_sheet_of "SS1") (world st2)) /\
    rows_of (state_sheet_of "SS1") (world st2)
    = [ header_row CONFIG.SHEETS.STATE.HEADERS;
        [CVal (JStr "P1"); payload_cell (Some rawProperties)] ].
Proof.
  intros st rawProperties.
  assert (Hsh : rows_of (state_sheet_of "SS1") (world st)
                = [header_row CONFIG.SHEETS.STATE.HEADERS]) by (vm_compute; reflexivity).
  assert (Hinv : state_inv (rows_of (state_sheet_of "SS1") (world st))).
  { rewrite Hsh. apply state_inv_fresh. }
  split; [exact Hinv|].
  destruct (state_table_invariant demo_env MiniJSON_round_trip) as [_ Hstep].
  destruct (Hstep (state_sheet_of "SS1") "P1" rawProperties st Hinv)
    as (previousState & st1 & st2 & Eg & Eu & Hinv' & Happ & _).
  exists previousState, st1, st2. split; [exact Eg|]. split; [exact Eu|].
  split; [exact Hinv'|].
  destruct Happ as [_ ->]; [|now rewrite Hsh].
  rewrite Hsh. intros [|[|k]] (Hk & r & key & Hr & _);
    [lia | discriminate Hr | discriminate Hr].
Defined.

(** C5 as stated fails: on a table whose row for the page holds a payload
    that does not deserialise, the lookup treats the page as new and the
    sighting appends a second row for the same identifier. *)
Lemma updateCurrentState_second_row :
  has_row (rows_of (state_sheet_of "SS1") demo_world_corrupt) (JStr "P1") 1 /\
  exists resp st,
    processWebhook demo_env (post demo_body) demo_world_corrupt = (Ret resp, st) /\
    r_status resp = status_success /\
    rows_of (state_sheet_of "SS1") (world st)
    = [ header_row CONFIG.SHEETS.STATE.HEADERS;
        [CVal (JStr "P1"); CVal (JStr "{oops")];
        [CVal (JStr "P1"); payload_cell (get demo_page "properties")] ] /\
    has_row (rows_of (state_sheet_of "SS1") (world st)) (JStr "P1") 1 /\
    has_row (rows_of (state_sheet_of "SS1") (world st)) (JStr "P1") 2.
Proof.
  split.
  { split; [lia|]. eexists _, _. split; [vm_compute; reflexivity|]. split; reflexivity. }
  destruct (processWebhook demo_env (post demo_body) demo_world_corrupt)
    as [[resp|err] st] eqn:E.
  - exists resp, st. split; [reflexivity|].
    pose proof E as E'. vm_compute in E'. injection E' as Hresp Hst.
    assert (Hrows : rows_of (state_sheet_of "SS1") (world st)
                    = [ header_row CONFIG.SHEETS.STATE.HEADERS;
                        [CVal (JStr "P1"); CVal (JStr "{oops")];
                        [CVal (JStr "P1"); payload_cell (get demo_page "properties")] ]).
    { rewrite <- Hst. vm_compute. reflexivity. }
    split; [now rewrite <- Hresp|]. split; [exact Hrows|]. rewrite Hrows. split.
    + split; [lia|]. eexists _, _. split; [reflexivity|]. split; reflexivity.
    + split; [lia|]. eexists _, _. split; [reflexivity|]. split; reflexivity.
  - vm_compute in E. discriminate E.
Qed.

(** The same from an empty spreadsheet: a page event without properties
    stores a blank payload, so the next sighting of the page finds a row
    it cannot deserialise and appends another. *)
Lemma updateCurrentState_blank_payload :
  exists resp1 st1,
    processWebhook demo_env (post demo_body_bare) demo_world = (Ret resp1, st1) /\
    r_status resp1 = status_success /\
    exists resp2 st2,
      processWebhook demo_env (post demo_body_bare) (world st1) = (Ret resp2, st2) /\
      r_status resp2 = status_success /\
      List.map (fun r => r !! 0%nat) (rows_of (state_sheet_of "SS1") (world st2))
      = [ Some (CVal (JStr "Page ID")); Some (CVal (JStr "P1")); Some (CVal (JStr "P1")) ].
Proof.
  destruct (processWebhook demo_env (post demo_body_bare) demo_world)
    as [[resp1|err] st1] eqn:E1.
  - exists resp1, st1. split; [reflexivity|].
    pose proof E1 as E1'. vm_compute in E1'. injection E1' as Hresp1 Hst1.
    split; [now rewrite <- Hresp1|].
    destruct (processWebhook demo_env (post demo_body_bare) (world st1))
      as [[resp2|err] st2] eqn:E2.
    + exists resp2, st2. split; [reflexivity|].
      rewrite <- Hst1 in E2. vm_compute in E2. injection E2 as Hresp2 Hst2.
      split; [now rewrite <- Hresp2|]. rewrite <- Hst2. vm_compute. reflexivity.
    + rewrite <- Hst1 in E2. vm_compute in E2. discriminate E2.
  - vm_compute in E1. discriminate E1.
Qed.

(** ** More on the parser, the extractor and the lookup *)

Lemma get_Some_truthy v k x : get v k = Some x -> truthy v = true.
Proof. destruct v; simpl; try discriminate. reflexivity. Qed.

Lemma opt_contents ev contents :
  opt (get ev "postData") (fun pd => get pd "contents") = Some contents ->
  truthy ev = true /\ truthy_u (get ev "postData") = true.
Proof.
  intros Hc. destruct (get ev "postData") as [pd|] eqn:Hpd; [|discriminate].
  split; [now apply get_Some_truthy in Hpd|].
  simpl. destruct pd; simpl in Hc; try discriminate. reflexivity.
Qed.

(** X3: [parseWebhookEvent] never throws, whatever the event and the body are,
    and touches neither the world nor the log data; it returns page data
    exactly when the event carries truthy contents that parse to a value
    whose [data] member is truthy, and then returns that member; and the
    contents it reports are those of the event whenever there are any. *)
Theorem parseWebhookEvent_total `{Host} (e : option json) (st : St) :
  exists wd st',
    parseWebhookEvent e st = (Ret wd, st') /\
    world st' = world st /\ logData st' = logData st /\ logSheet st' = logSheet st /\
    (forall d, notionPageData wd = Some d <->
       truthy d = true /\
       exists ev contents v,
         e = Some ev /\
         opt (get ev "postData") (fun pd => get pd "contents") = Some contents /\
         truthy contents = true /\
         JSON_parse (js_to_string contents) = Ret v /\
         get v "data" = Some d) /\
    (forall ev contents,
       e = Some ev ->
       opt (get ev "postData") (fun pd => get pd "contents") = Some contents ->
       truthy contents = true ->
       wd_rawContents wd = contents /\ wd_fullEventString wd = JSON_stringify ev).
Proof.
  destruct (contents_absent e) eqn:Habs.
  { destruct (parseWebhookEvent_absent e Habs) as (wd & ls & Hn & E).
    exists wd, (add_logs ls st). split; [apply E|]. repeat (split; [reflexivity|]).
    assert (Hno : forall ev contents, e = Some ev ->
              opt (get ev "postData") (fun pd => get pd "contents") = Some contents ->
              truthy contents = true -> False).
    { intros ev contents -> Hc Ht. destruct (opt_contents ev contents Hc) as [Hev Hpd].
      unfold contents_absent in Habs. rewrite Hev, Hpd, Hc in Habs. simpl in Habs.
      rewrite Ht in Habs. discriminate Habs. }
    split.
    - intros d. rewrite Hn. split; [discriminate|].
      intros (_ & ev & contents & v & He & Hc & Ht & _). now destruct (Hno ev contents).
    - intros ev contents He Hc Ht. now destruct (Hno ev contents). }
  unfold contents_absent in Habs. destruct e as [ev|]; [|discriminate].
  rewrite !orb_false_iff, !negb_false_iff in Habs. destruct Habs as [[Hev Hpd] Hc].
  destruct (opt (get ev "postData") (fun pd => get pd "contents")) as [contents|] eqn:Hcon;
    [|discriminate].
  simpl in Hc.
  unfold parseWebhookEvent. rewrite Hev, Hpd, Hcon. simpl. rewrite Hc. simpl.
  unfold try_catch, bind, lift. rewrite push_eq.
  assert (Hraw : forall wd : WebhookData,
            wd_rawContents wd = contents -> wd_fullEventString wd = JSON_stringify ev ->
            forall ev' contents', Some ev = Some ev' ->
              opt (get ev' "postData") (fun pd => get pd "contents") = Some contents' ->
              truthy contents' = true ->
              wd_rawContents wd = contents' /\ wd_fullEventString wd = JSON_stringify ev').
  { intros wd H1 H2 ev' contents' He Hc' _. inversion He; subst ev'.
    rewrite Hcon in Hc'. inversion Hc'; subst contents'. now split. }
  assert (Hv : forall d, (truthy d = true /\
              exists ev' contents' v,
                Some ev = Some ev' /\
                opt (get ev' "postData") (fun pd => get pd "contents") = Some contents' /\
                truthy contents' = true /\
                JSON_parse (js_to_string contents') = Ret v /\ get v "data" = Some d) ->
              truthy d = true /\
              exists v, JSON_parse (js_to_string contents) = Ret v /\ get v "data" = Some d).
  { intros d (Ht & ev' & contents' & v & He & Hc' & _ & Hp & Hd). inversion He; subst ev'.
    rewrite Hcon in Hc'. inversion Hc'; subst contents'. split; [exact Ht|]. now exists v. }
  destruct (JSON_parse (js_to_string contents)) as [eventData|err] eqn:Hparse.
  - destruct (read_cases eventData "data") as [[Hnull Hr]|Hr]; rewrite Hr;
      unfold throw, ret.
    + rewrite push_eq. do 2 eexists. split; [reflexivity|].
      repeat (split; [reflexivity|]). split.
      * intros d. split; [discriminate|]. intros Hd. apply Hv in Hd as (_ & v & Hp & Hd).
        inversion Hp; subst v. rewrite Hnull in Hd. discriminate Hd.
      * now apply Hraw.
    + destruct (truthy_u (get eventData "data")) eqn:Ht; rewrite push_eq;
        (do 2 eexists; split; [reflexivity|]; repeat (split; [reflexivity|]); split;
         [|now apply Hraw]); intros d; simpl.
      * split.
        -- intros Hd. rewrite Hd in Ht. split; [exact Ht|].
           exists ev, contents, eventData. repeat split; assumption.
        -- intros Hd. apply Hv in Hd as (_ & v & Hp & Hd). inversion Hp; subst v. exact Hd.
      * split; [discriminate|].
        intros Hd. apply Hv in Hd as (Htd & v & Hp & Hd). inversion Hp; subst v.
        rewrite Hd in Ht. simpl in Ht. congruence.
  - rewrite push_eq. unfold ret. do 2 eexists. split; [reflexivity|].
    repeat (split; [reflexivity|]). split; [|now apply Hraw].
    intros d. split; [discriminate|].
    intros Hd. apply Hv in Hd as (_ & v & Hp & _). discriminate Hp.
Qed.

Lemma or_else_cases (o : option json) (d : json) :
  or_else o d = d \/ truthy (or_else o d) = true.
Proof.
  destruct o as [v|]; simpl; [|now left].
  destruct (truthy v) eqn:Hv; [now right | now left].
Qed.

(** X4: [extractNotionInfo] returns unless the host rejects the last-edited
    time, and then throws the host's error. What it returns is normalised:
    status, assignee and liaison status are null or truthy (an empty name,
    0 or false counts as unset), company name and URL are always truthy,
    and none of these depends on anything but the page data. It leaves the
    world and the log data alone. *)
Theorem extractNotionInfo_normalised `{Host} (notionPageData : json) (st : St) :
  match get notionPageData "last_edited_time" with
  | Some t =>
      truthy t = true ->
      exists s, Utilities_formatDate t "Asia/Tokyo" "yyyy/MM/dd HH:mm:ss" = Ret s
  | None => True
  end ->
  exists i st',
    extractNotionInfo notionPageData st = (Ret i, st') /\
    world st' = world st /\ logData st' = logData st /\
    (status i = JNull \/ truthy (status i) = true) /\
    (tanto i = JNull \/ truthy (tanto i) = true) /\
    (sharoushi i = JNull \/ truthy (sharoushi i) = true) /\
    truthy (kigyoMei i) = true /\
    truthy (pageUrl i) = true.
Proof.
  intros Hdate.
  destruct (truthy_u (get notionPageData "properties")) eqn:Hp.
  2:{ do 2 eexists. split; [now apply extractNotionInfo_no_properties|].
      repeat split; try reflexivity; now left. }
  unfold extractNotionInfo.
  destruct (get notionPageData "properties") as [p|]; [|discriminate]. simpl in Hp.
  rewrite Hp.
  set (t := match get notionPageData "last_edited_time" with
            | Some t => if truthy t
                        then lift (Utilities_formatDate t "Asia/Tokyo" "yyyy/MM/dd HH:mm:ss")
                        else ret "日時不明"
            | None => ret "日時不明"
            end).
  assert (Ht : exists s, forall st, t st = (Ret s, st)).
  { subst t. destruct (get notionPageData "last_edited_time") as [v|].
    - destruct (truthy v).
      + destruct (Hdate eq_refl) as [s Hs]. exists s. intros st0. unfold lift. now rewrite Hs.
      + eexists. intros st0. reflexivity.
    - eexists. intros st0. reflexivity. }
  destruct Ht as (s & Ht).
  do 2 eexists. split; [unfold bind; rewrite Ht, push_eq; reflexivity|].
  cbn [world logData add_logs kigyoMei status tanto sharoushi pageUrl].
  repeat (split; [reflexivity|]).
  repeat (split; [apply or_else_cases|]).
  split.
  - destruct (or_else_cases (getPlainText (get p "企業名")) (JStr "企業名不明")) as [-> | E];
      [reflexivity | exact E].
  - destruct (or_else_cases (get notionPageData "url") (JStr "URL不明")) as [-> | E];
      [reflexivity | exact E].
Qed.

Lemma extractNotionInfo_normalised_witness :
  exists i st',
    extractNotionInfo
      (JObj [("last_edited_time", JStr "2025-01-01T00:00:00.000Z");
             ("properties",
              JObj [("商談ステータス", JObj [("status", JObj [("name", JStr EmptyString)])])])])
      (initial demo_env demo_world) = (Ret i, st') /\
    status i = JNull /\ truthy (kigyoMei i) = true.
Proof.
  destruct (extractNotionInfo_normalised
              (JObj [("last_edited_time", JStr "2025-01-01T00:00:00.000Z");
                     ("properties",
                      JObj [("商談ステータス",
                             JObj [("status", JObj [("name", JStr EmptyString)])])])])
              (initial demo_env demo_world))
    as (i & st' & E & _ & _ & _ & _ & _ & Hk & _).
  - simpl. intros _. eexists. reflexivity.
  - exists i, st'. split; [exact E|]. split; [|exact Hk].
    vm_compute in E. injection E as <- _. reflexivity.
Defined.

(** X5: [getPreviousState] never throws and only reads. When it finds a
    state, the row is the last one whose key is the page id (the row below
    wins over a duplicate above), it is never the first row of the sheet
    (the header), its 1-based index is at least 2 and at most the number of
    rows, and the properties are what its payload parses to. When it finds
    none, either no row below the header has the key, or the last one that
    has it holds a payload that does not parse. *)
Theorem getPreviousState_last_match `{Host} (stateSheet : Sheet) (pageId : json) (st : St) :
  let sh := rows_of stateSheet (world st) in
  let n := length (getValues sh) in
  exists found st',
    getPreviousState stateSheet pageId st = (Ret found, st') /\
    world st' = world st /\ logData st' = logData st /\
    match found with
    | Some ps =>
        exists k,
          rowIndex ps = Z.of_nat k + 1 /\ (1 <= k < n)%nat /\
          cell_strict_eq (obs sh k 0) pageId = true /\
          (forall j, (k < j < n)%nat -> cell_strict_eq (obs sh j 0) pageId = false) /\
          JSON_parse (cell_text (obs sh k 1)) = Ret (properties ps)
    | None =>
        (forall j, (1 <= j < n)%nat -> cell_strict_eq (obs sh j 0) pageId = false) \/
        (exists k err,
           (1 <= k < n)%nat /\
           cell_strict_eq (obs sh k 0) pageId = true /\
           (forall j, (k < j < n)%nat -> cell_strict_eq (obs sh j 0) pageId = false) /\
           JSON_parse (cell_text (obs sh k 1)) = Throw err)
    end.
Proof.
  intros sh n.
  destruct (getPreviousState_eq stateSheet pageId st) as (ls & E).
  exists (lookup_previous sh pageId), (add_logs ls st).
  split; [exact E|]. split; [reflexivity|]. split; [reflexivity|].
  assert (Hn : (1 <= n)%nat).
  { subst n. unfold getValues. destruct sh; simpl; lia. }
  unfold lookup_previous. fold n.
  destruct (last_match (getValues sh) pageId (n - 1)) as [k|] eqn:Hm.
  - apply last_match_Some in Hm as (Hk & Hkey & Hlater).
    change (at_ (getValues sh) k CONFIG.SHEETS.STATE.COLUMN_INDEX.PROPERTIES_JSON)
      with (obs sh k 1).
    assert (Hlater' : forall j, (k < j < n)%nat ->
                        cell_strict_eq (obs sh j 0) pageId = false).
    { intros j Hj. apply Hlater. lia. }
    destruct (JSON_parse (cell_text (obs sh k 1))) as [p|err] eqn:Hp.
    + exists k. cbn [rowIndex properties]. repeat split; try assumption; lia.
    + right. exists k, err. repeat split; try assumption; lia.
  - left. intros j Hj. apply (last_match_None _ _ _ Hm). lia.
Qed.

(** ** Configuration and sheets *)

(** X1: [loadConfig] throws exactly when the spreadsheet id is unset or empty,
    and then with the message that names the property; otherwise the
    configuration holds the id, a log sheet name that is never empty (the
    property if it is set and not empty, the default otherwise), the
    constant state sheet name, and the two Discord URLs as they are set or
    not: these are not required. It leaves the world alone either way. *)
Theorem loadConfig_spec `{Host} (env : Env) (st : St) :
  exists o st',
    loadConfig env st = (o, st') /\ world st' = world st /\ logData st' = logData st /\
    match o with
    | Ret config =>
        props env !! CONFIG.PROP_KEYS.SPREADSHEET_ID = Some (spreadsheetId config) /\
        nonempty (spreadsheetId config) = true /\
        nonempty (logSheetName config) = true /\
        (props env !! CONFIG.PROP_KEYS.LOG_SHEET_NAME = Some (logSheetName config) \/
         (props env !! CONFIG.PROP_KEYS.LOG_SHEET_NAME = None \/
          props env !! CONFIG.PROP_KEYS.LOG_SHEET_NAME = Some EmptyString) /\
         logSheetName config = CONFIG.SHEETS.LOG.NAME_DEFAULT) /\
        stateSheetName config = CONFIG.SHEETS.STATE.NAME /\
        discordUrl config = props env !! CONFIG.PROP_KEYS.DISCORD_URL /\
        discordUrlSharoushi config = props env !! CONFIG.PROP_KEYS.DISCORD_URL_SHAROUSHI
    | Throw err =>
        (props env !! CONFIG.PROP_KEYS.SPREADSHEET_ID = None \/
         props env !! CONFIG.PROP_KEYS.SPREADSHEET_ID = Some EmptyString) /\
        message err
        = "Script Property " +:+ dq +:+ "SPREADSHEET_ID_SECRET" +:+ dq +:+ " is not set."
    end.
Proof.
  unfold loadConfig, getProp.
  destruct (props env !! CONFIG.PROP_KEYS.SPREADSHEET_ID) as [[|c id]|] eqn:Hid.
  - do 2 eexists. split; [unfold bind; rewrite push_eq; reflexivity|].
    repeat split. now right.
  - do 2 eexists. split; [unfold bind; rewrite push_eq; reflexivity|].
    split; [reflexivity|]. split; [reflexivity|]. cbn [spreadsheetId logSheetName
      stateSheetName discordUrl discordUrlSharoushi].
    split; [reflexivity|]. split; [reflexivity|].
    destruct (props env !! CONFIG.PROP_KEYS.LOG_SHEET_NAME) as [[|c' n]|];
      repeat split; auto.
  - do 2 eexists. split; [unfold bind; rewrite push_eq; reflexivity|].
    repeat split. now left.
Qed.

(** X2: [getOrCreateSheet] on a spreadsheet that opens returns the handle of
    the sheet, which exists afterwards. A sheet that existed is left as it
    was, with whatever rows and header it has; a sheet that did not exist is
    created with the header row as its only row (or with no row, for no
    headers). No other sheet changes, and nothing is sent. Calling it again,
    with these or other headers, changes nothing more. On a spreadsheet
    that does not open it throws an error whose message wraps the host's,
    with the world as it was. *)
Theorem getOrCreateSheet_spec `{Host} (env : Env) (id name : string)
    (headers : list string) (st : St) :
  let sheet := {| ss_id := id; sheet_name := name |} in
  (is_Some (drive (world st) !! id) ->
   exists st',
     getOrCreateSheet env id name headers st = (Ret sheet, st') /\
     sheet_exists sheet (world st') = true /\
     (sheet_exists sheet (world st) = true -> st' = st) /\
     (sheet_exists sheet (world st) = false ->
      rows_of sheet (world st')
      = match headers with [] => [] | _ => [header_row headers] end) /\
     (forall h, h <> sheet -> rows_of h (world st') = rows_of h (world st)) /\
     outbox (world st') = outbox (world st) /\
     (forall headers', getOrCreateSheet env id name headers' st' = (Ret sheet, st'))) /\
  (drive (world st) !! id = None ->
   getOrCreateSheet env id name headers st
   = (Throw (new_Error ("Failed to access or setup spreadsheet/sheet. ID: " +:+ id
                        +:+ ", Name: " +:+ name +:+ ". Details: "
                        +:+ message (openById_error env id))), st)).
Proof.
  intros sheet. split.
  - intros [book Hb].
    assert (Hagain : forall st', sheet_exists sheet (world st') = true ->
              forall headers', getOrCreateSheet env id name headers' st' = (Ret sheet, st')).
    { intros st' Hex headers'. unfold sheet_exists in Hex. cbn [ss_id sheet_name sheet] in Hex.
      unfold getOrCreateSheet, try_catch, bind, get_world.
      destruct (drive (world st') !! id) as [book'|]; [|discriminate].
      apply bool_decide_eq_true in Hex as [rs Hrs]. now rewrite Hrs. }
    destruct (sheet_exists sheet (world st)) eqn:Hex.
    + exists st. split; [now apply Hagain|]. split; [exact Hex|].
      split; [reflexivity|]. split; [discriminate|]. split; [reflexivity|].
      split; [reflexivity|]. now apply Hagain.
    + assert (Hname : book !! name = None).
      { unfold sheet_exists in Hex. cbn [ss_id sheet_name sheet] in Hex. rewrite Hb in Hex.
        apply bool_decide_eq_false in Hex.
        destruct (book !! name) eqn:E; [|reflexivity]. exfalso. apply Hex. now eexists. }
      assert (Hrun : getOrCreateSheet env id name headers st
                     = (Ret sheet,
                        upd_world (set_rows sheet
                                     match headers with
                                     | [] => []
                                     | _ => [header_row headers]
                                     end) st)).
      { unfold getOrCreateSheet, try_catch, bind, get_world. rewrite Hb, Hname.
        fold sheet. destruct headers as [|h0 hs].
        - reflexivity.
        - unfold modify_world, appendRow, modify_world, ret. simpl.
          rewrite rows_of_set_rows, set_rows_set_rows. reflexivity. }
      eexists. split; [exact Hrun|]. cbn [world upd_world].
      assert (Hex' : sheet_exists sheet
                       (set_rows sheet match headers with
                                       | [] => []
                                       | _ => [header_row headers]
                                       end (world st)) = true)
        by apply sheet_exists_set_rows.
      split; [exact Hex'|]. split; [discriminate|].
      split; [intros _; apply rows_of_set_rows|].
      split; [intros h Hh; apply rows_of_set_rows_ne; congruence|].
      split; [reflexivity|]. now apply Hagain.
  - intros Hb. unfold getOrCreateSheet, try_catch, bind, get_world. rewrite Hb. reflexivity.
Qed.

Lemma getOrCreateSheet_spec_witness :
  exists st',
    getOrCreateSheet demo_env "SS1" CONFIG.SHEETS.STATE.NAME CONFIG.SHEETS.STATE.HEADERS
      (initial demo_env demo_world) = (Ret (state_sheet_of "SS1"), st') /\
    rows_of (state_sheet_of "SS1") (world st') = [header_row CONFIG.SHEETS.STATE.HEADERS] /\
    getOrCreateSheet demo_env "SS1" CONFIG.SHEETS.STATE.NAME CONFIG.SHEETS.LOG.HEADERS st'
    = (Ret (state_sheet_of "SS1"), st').
Proof.
  destruct (getOrCreateSheet_spec demo_env "SS1" CONFIG.SHEETS.STATE.NAME
              CONFIG.SHEETS.STATE.HEADERS (initial demo_env demo_world)) as [Hopen _].
  destruct Hopen as (st' & Hrun & _ & _ & Hrows & _ & _ & Hagain).
  - eexists. apply lookup_singleton_eq.
  - exists st'. split; [exact Hrun|]. split; [|apply Hagain].
    apply Hrows. vm_compute. reflexivity.
Defined.

(** ** Requests *)

Lemma sendDiscordMessage_eq `{Host} env webhookUrl message st :
  exists st',
    sendDiscordMessage env webhookUrl (JObj [("content", JStr message)]) st
    = (Ret (outcome_of env webhookUrl message), st') /\
    outbox (world st') = outbox (world st) ++ request webhookUrl message /\
    drive (world st') = drive (world st) /\
    Logger_log (world st') = Logger_log (world st) /\
    logData st' = logData st /\ logSheet st' = logSheet st.
Proof.
  unfold sendDiscordMessage, outcome_of, request.
  destruct webhookUrl as [url|].
  - destruct (url_unusable (Some url)).
    + eexists. split; [unfold bind; rewrite push_eq; reflexivity|].
      cbn [world add_logs logData logSheet]. rewrite app_nil_r. repeat split.
    + destruct (UrlFetchApp_fetch env url _) as [e|];
        (eexists; split; [unfold bind, modify_world; rewrite push_eq; reflexivity|]);
        repeat split.
  - eexists. split; [unfold bind; rewrite push_eq; reflexivity|].
    cbn [world add_logs logData logSheet]. rewrite app_nil_r. repeat split.
Qed.

Lemma handleNotifications_eq `{Host} env previousInfo currentInfo config st :
  exists st',
    handleNotifications env previousInfo currentInfo config st
    = (Ret (results_of env previousInfo currentInfo config), st') /\
    outbox (world st')
    = outbox (world st) ++ requests_of previousInfo currentInfo config /\
    drive (world st') = drive (world st) /\
    Logger_log (world st') = Logger_log (world st) /\
    logData st' = logData st /\ logSheet st' = logSheet st.
Proof.
  unfold handleNotifications, results_of, requests_of.
  set (m1 := createStatusChangeMessage previousInfo currentInfo).
  set (m2 := createSharoushiUpdateMessage previousInfo currentInfo).
  assert (Hfirst : exists st1,
    (if needsStatusNotification previousInfo currentInfo
     then push "Status or Tanto change detected. Preparing notification." ;;
          let* result := sendDiscordMessage env (discordUrl config)
                           (JObj [("content", JStr m1)]) in
          ret ([] ++ [{| type_ := type_status; result := result |}])
     else ret []) st
    = (Ret (if needsStatusNotification previousInfo currentInfo
            then [{| type_ := type_status;
                     result := outcome_of env (discordUrl config) m1 |}]
            else []), st1) /\
    outbox (world st1)
    = outbox (world st) ++ (if needsStatusNotification previousInfo currentInfo
                            then request (discordUrl config) m1 else []) /\
    drive (world st1) = drive (world st) /\
    Logger_log (world st1) = Logger_log (world st) /\
    logData st1 = logData st /\ logSheet st1 = logSheet st).
  { destruct (needsStatusNotification previousInfo currentInfo).
    - destruct (sendDiscordMessage_eq env (discordUrl config) m1
                  (add_logs ["Status or Tanto change detected. Preparing notification."] st))
        as (st1 & E & Ho & Hd & Hl & Hld & Hls).
      exists st1. split; [unfold bind; rewrite push_eq, E; reflexivity|].
      repeat split; assumption.
    - exists st. split; [reflexivity|]. rewrite app_nil_r. repeat split. }
  destruct Hfirst as (st1 & E1 & Ho1 & Hd1 & Hl1 & Hld1 & Hls1).
  set (rs1 := if needsStatusNotification previousInfo currentInfo
              then [{| type_ := type_status;
                       result := outcome_of env (discordUrl config) m1 |}]
              else []) in *.
  assert (Hsecond : exists st2,
    (if needsSharoushiNotification previousInfo currentInfo
     then push "Sharoushi status change detected. Preparing notification." ;;
          let* result := sendDiscordMessage env (discordUrlSharoushi config)
                           (JObj [("content", JStr m2)]) in
          ret (rs1 ++ [{| type_ := type_sharoushi; result := result |}])
     else ret rs1) st1
    = (Ret (rs1 ++ if needsSharoushiNotification previousInfo currentInfo
                   then [{| type_ := type_sharoushi;
                            result := outcome_of env (discordUrlSharoushi config) m2 |}]
                   else []), st2) /\
    outbox (world st2)
    = outbox (world st1) ++ (if needsSharoushiNotification previousInfo currentInfo
                             then request (discordUrlSharoushi config) m2 else []) /\
    drive (world st2) = drive (world st1) /\
    Logger_log (world st2) = Logger_log (world st1) /\
    logData st2 = logData st1 /\ logSheet st2 = logSheet st1).
  { destruct (needsSharoushiNotification previousInfo currentInfo).
    - destruct (sendDiscordMessage_eq env (discordUrlSharoushi config) m2
                  (add_logs ["Sharoushi status change detected. Preparing notification."] st1))
        as (st2 & E & Ho & Hd & Hl & Hld & Hls).
      exists st2. split; [unfold bind; rewrite push_eq, E; reflexivity|].
      repeat split; assumption.
    - exists st1. split; [now rewrite app_nil_r|]. rewrite app_nil_r. repeat split. }
  destruct Hsecond as (st2 & E2 & Ho2 & Hd2 & Hl2 & Hld2 & Hls2).
  set (rs := rs1 ++ _) in *.
  exists (match rs with
          | [] => add_logs ["No significant changes detected for notification."] st2
          | _ => st2
          end).
  split.
  - rewrite (bind_Ret _ _ _ _ _ E1). rewrite (bind_Ret _ _ _ _ _ E2).
    unfold bind. destruct rs; [rewrite push_eq|]; reflexivity.
  - rewrite app_assoc, <- Ho1, <- Ho2.
    destruct rs; cbn [world add_logs logData logSheet];
      repeat split; congruence.
Qed.

Lemma request_discord `{Host} webhookUrl message rq :
  rq ∈ request webhookUrl message ->
  webhookUrl = Some rq.1 /\ String.prefix discord_prefix rq.1 = true.
Proof.
  unfold request. destruct webhookUrl as [url|]; [|now rewrite elem_of_nil].
  destruct (url_unusable (Some url)) eqn:Hu; [now rewrite elem_of_nil|].
  rewrite list_elem_of_singleton. intros ->. simpl. split; [reflexivity|].
  unfold url_unusable in Hu. apply orb_false_iff in Hu as [_ Hp].
  now apply negb_false_iff in Hp.
Qed.

Lemma strict_neq_differs a b : strict_neq a b = true <-> differs a b.
Proof.
  unfold strict_neq, differs. rewrite negb_true_iff. split.
  - intros E. destruct (primitive a) eqn:Hp; [|now right].
    left. intros ->. rewrite (strict_eq_refl b Hp) in E. discriminate E.
  - intros Hd. destruct (strict_eq a b) eqn:E; [|reflexivity].
    apply strict_eq_primitive in E as [-> Hp].
    destruct Hd as [Hne|Hnp]; [now destruct Hne | congruence].
Qed.

Lemma needsStatusNotification_due `{Host} notionPageData st0 currentInfo st0' previousInfo :
  extractNotionInfo notionPageData st0 = (Ret currentInfo, st0') ->
  needsStatusNotification previousInfo currentInfo = true
  <-> status_notification_due previousInfo currentInfo.
Proof.
  intros Hext.
  destruct (extractNotionInfo_tracked _ _ _ _ Hext) as (o1 & o2 & o3 & E1 & E2 & E3).
  unfold needsStatusNotification, status_notification_due.
  destruct previousInfo as [p|]; rewrite orb_true_iff.
  - now rewrite !strict_neq_differs.
  - rewrite E1, E2, !or_else_null_truthy. reflexivity.
Qed.

Lemma needsSharoushiNotification_due `{Host} notionPageData st0 currentInfo st0'
    previousInfo :
  extractNotionInfo notionPageData st0 = (Ret currentInfo, st0') ->
  needsSharoushiNotification previousInfo currentInfo = true
  <-> liaison_notification_due previousInfo currentInfo.
Proof.
  intros Hext.
  destruct (extractNotionInfo_tracked _ _ _ _ Hext) as (o1 & o2 & o3 & E1 & E2 & E3).
  unfold needsSharoushiNotification, liaison_notification_due.
  destruct previousInfo as [p|].
  - apply strict_neq_differs.
  - rewrite E3, or_else_null_truthy. reflexivity.
Qed.

(** C1: [handleNotifications] never throws. On a current record that the
    extractor returned it dispatches the status/assignee message exactly
    when the page is new and status or assignee is non-null, or the page
    is known and status or assignee differs ([!==]) from the previous
    record; the liaison message exactly when the page is new and the
    liaison status is non-null, or it differs from the previous one. The
    two are decided independently. A message that is dispatched is the one
    its composer builds; it is handed to [sendDiscordMessage] with the URL
    of its kind: the result says how that went, and the request, if the
    URL is a Discord webhook URL, is the next one issued. *)
Theorem handleNotifications_dispatch `{Host} env (notionPageData : json) st0 st0'
    (previousInfo : option Info) (currentInfo : Info) (config : Config) (st : St) :
  extractNotionInfo notionPageData st0 = (Ret currentInfo, st0') ->
  let statusMessage := createStatusChangeMessage previousInfo currentInfo in
  let liaisonMessage := createSharoushiUpdateMessage previousInfo currentInfo in
  exists (statusSent liaisonSent : bool) st',
    (statusSent = true <-> status_notification_due previousInfo currentInfo) /\
    (liaisonSent = true <-> liaison_notification_due previousInfo currentInfo) /\
    handleNotifications env previousInfo currentInfo config st
    = (Ret ((if statusSent
             then [{| type_ := type_status;
                      result := outcome_of env (discordUrl config) statusMessage |}]
             else [])
            ++ (if liaisonSent
                then [{| type_ := type_sharoushi;
                         result := outcome_of env (discordUrlSharoushi config)
                                     liaisonMessage |}]
                else [])),
       st') /\
    outbox (world st')
    = outbox (world st)
      ++ (if statusSent then request (discordUrl config) statusMessage else [])
      ++ (if liaisonSent then request (discordUrlSharoushi config) liaisonMessage else []).
Proof.
  intros Hext statusMessage liaisonMessage.
  destruct (handleNotifications_eq env previousInfo currentInfo config st)
    as (st' & Hrun & Hout & _).
  exists (needsStatusNotification previousInfo currentInfo),
         (needsSharoushiNotification previousInfo currentInfo), st'.
  split; [exact (needsStatusNotification_due _ _ _ _ previousInfo Hext)|].
  split; [exact (needsSharoushiNotification_due _ _ _ _ previousInfo Hext)|].
  split; [exact Hrun | exact Hout].
Qed.

Lemma handleNotifications_dispatch_witness :
  exists c st0' results st',
    extractNotionInfo demo_page_status (initial demo_env demo_world) = (Ret c, st0') /\
    handleNotifications demo_env None c (config_of demo_env "SS1")
      (initial demo_env demo_world) = (Ret results, st') /\
    List.map type_ results = [type_status] /\
    List.map (fun r => send_status (result r)) results = ["送信成功"] /\
    outbox (world st')
    = request (Some "https://discord.com/api/webhooks/1/a")
        (createStatusChangeMessage None c).
Proof.
  do 2 eexists.
  assert (E : extractNotionInfo demo_page_status (initial demo_env demo_world)
              = (Ret _, _)) by (vm_compute; reflexivity).
  destruct (handleNotifications_dispatch demo_env _ _ _ None _
              (config_of demo_env "SS1") (initial demo_env demo_world) E)
    as (statusSent & liaisonSent & st' & Hs & Hl & Hrun & Hout).
  assert (Hst : statusSent = true) by (apply Hs; left; discriminate).
  assert (Hli : liaisonSent = false).
  { destruct liaisonSent; [|reflexivity]. exfalso. now apply (proj1 Hl). }
  subst statusSent liaisonSent.
  eexists _, st'. split; [exact E|]. split; [exact Hrun|].
  split; [reflexivity|]. split; [vm_compute; reflexivity|].
  rewrite Hout. cbn [world initial outbox demo_world app]. rewrite app_nil_r.
  reflexivity.
Defined.

(** C1 as stated fails: with an assignee name that is an array, a previous
    and a current record that agree in every field, as values and as
    strings, still have the status message dispatched, because two arrays
    are never [===]. *)
Lemma handleNotifications_dispatch_on_equal_arrays :
  exists p c results st',
    extracted (previous_page
                 (JObj [("担当", JObj [("select", JObj [("name", JArr [JStr "田中"])])])]))
    = Ret p /\
    extracted demo_page_array = Ret c /\
    status p = status c /\ tanto p = tanto c /\ sharoushi p = sharoushi c /\
    js_to_string (tanto p) = js_to_string (tanto c) /\
    handleNotifications demo_env (Some p) c (config_of demo_env "SS1")
      (initial demo_env demo_world) = (Ret results, st') /\
    List.map type_ results = [type_status] /\
    outbox (world st')
    = request (Some "https://discord.com/api/webhooks/1/a")
        (createStatusChangeMessage (Some p) c).
Proof.
  do 2 eexists.
  assert (Ep : extracted (previous_page
                 (JObj [("担当", JObj [("select", JObj [("name", JArr [JStr "田中"])])])]))
               = Ret _) by (vm_compute; reflexivity).
  assert (Ec : extracted demo_page_array = Ret _) by (vm_compute; reflexivity).
  match type of Ep with _ = Ret ?p =>
  match type of Ec with _ = Ret ?c =>
    destruct (handleNotifications demo_env (Some p) c (config_of demo_env "SS1")
                (initial demo_env demo_world)) as [[results|err] st'] eqn:E;
      vm_compute in E; [|discriminate E]
  end end.
  injection E as <- <-.
  do 2 eexists. split; [exact Ep|]. split; [exact Ec|].
  repeat split; vm_compute; reflexivity.
Qed.

(** X7: [handleNotifications] never throws and touches no sheet. The requests
    it issues are, in this order, the status message to the status URL and
    the liaison message to the liaison URL, each when its predicate holds
    and its URL is a Discord webhook URL: no request goes anywhere else,
    and the second is issued whether or not the first was delivered. The
    results it returns say, for each predicate that holds, whether the
    message was skipped, sent, or failed with the host's error text. *)
Theorem handleNotifications_requests `{Host} (env : Env) (previousInfo : option Info)
    (currentInfo : Info) (config : Config) (st : St) :
  exists st',
    handleNotifications env previousInfo currentInfo config st
    = (Ret (results_of env previousInfo currentInfo config), st') /\
    outbox (world st')
    = outbox (world st) ++ requests_of previousInfo currentInfo config /\
    drive (world st') = drive (world st) /\
    (forall rq, rq ∈ requests_of previousInfo currentInfo config ->
       String.prefix discord_prefix rq.1 = true /\
       (discordUrl config = Some rq.1 \/ discordUrlSharoushi config = Some rq.1)) /\
    (forall r, r ∈ results_of env previousInfo currentInfo config ->
       (send_status (result r) = "URL未設定/不正のためスキップ" /\ error (result r) = None) \/
       (send_status (result r) = "送信成功" /\ error (result r) = None) \/
       (send_status (result r) = "送信エラー" /\ exists e, error (result r) = Some e)).
Proof.
  destruct (handleNotifications_eq env previousInfo currentInfo config st)
    as (st' & E & Ho & Hd & _).
  exists st'. split; [exact E|]. split; [exact Ho|]. split; [exact Hd|]. split.
  - intros rq. unfold requests_of. rewrite elem_of_app.
    intros [Hin|Hin].
    + destruct (needsStatusNotification _ _); [|now apply elem_of_nil in Hin].
      apply request_discord in Hin as [Hu Hp]. split; [exact Hp | now left].
    + destruct (needsSharoushiNotification _ _); [|now apply elem_of_nil in Hin].
      apply request_discord in Hin as [Hu Hp]. split; [exact Hp | now right].
  - assert (Hout : forall url m,
              let r := outcome_of env url m in
              (send_status r = "URL未設定/不正のためスキップ" /\ error r = None) \/
              (send_status r = "送信成功" /\ error r = None) \/
              (send_status r = "送信エラー" /\ exists e, error r = Some e)).
    { intros url m. unfold outcome_of. destruct url as [u|]; [|now left].
      destruct (url_unusable (Some u)); [now left|].
      destruct (UrlFetchApp_fetch env u _) as [e|].
      - right. right. split; [reflexivity|]. now eexists.
      - right. left. now split. }
    intros r. unfold results_of. rewrite elem_of_app. intros [Hin|Hin].
    + destruct (needsStatusNotification _ _); [|now apply elem_of_nil in Hin].
      apply list_elem_of_singleton in Hin as ->. apply Hout.
    + destruct (needsSharoushiNotification _ _); [|now apply elem_of_nil in Hin].
      apply list_elem_of_singleton in Hin as ->. apply Hout.
Qed.

(** ** Orchestrator: an event that carries a page *)

Lemma outbox_acquire h headers w : outbox (acquire h headers w) = outbox w.
Proof. unfold acquire. now destruct (sheet_exists h w). Qed.

Lemma outbox_after_setup env id st :
  outbox (world (after_setup env id st)) = outbox (world st).
Proof.
  unfold after_setup. cbn [world upd_world upd_logSheet add_logs].
  now rewrite !outbox_acquire.
Qed.

Lemma existsb_has_error_overall results st :
  overallStatus (logData (record_results results st))
  = if existsb has_error results then status_partial else overallStatus (logData st).
Proof. unfold record_results. now destruct (existsb has_error results). Qed.

(** What a run on an event that carries a page does, in full. *)
Lemma processWebhook_page `{Host} env e w id cpd info :
  props env !! CONFIG.PROP_KEYS.SPREADSHEET_ID = Some id -> nonempty id = true ->
  is_Some (drive w !! id) ->
  event_page e = Some cpd -> truthy_u (get cpd "id") = true ->
  extracted cpd = Ret info ->
  let w0 := world (after_setup env id (initial env w)) in
  let sh0 := rows_of (state_sheet_of id) w0 in
  let previousState := lookup_previous sh0 (pageId_of cpd) in
  let previousInfo := option_map (fun ps => previous_info (properties ps)) previousState in
  let results := results_of env previousInfo info (config_of env id) in
  exists resp st st_try st_fin,
    processWebhook env e w = (Ret resp, st) /\
    processWebhook_try env e (initial env w) = (Ret tt, st_try) /\
    processWebhook_finally env st_try = (Ret tt, st_fin) /\
    logSheet st_try = Some (log_sheet_of env id) /\
    r_status resp = (if existsb has_error results then status_partial else status_success) /\
    discordSendStatus (logData st) = sendStatus_of results /\
    outbox (world st) = outbox w ++ requests_of previousInfo info (config_of env id) /\
    drive (world st) = drive (world st_fin) /\
    rows_of (state_sheet_of id) (world st_try)
    = updated_rows (pageId_of cpd) (get cpd "properties") (rowIndex_of previousState) sh0.
Proof.
  intros Hp Hn Hd Hev Hid Hex w0 sh0 previousState previousInfo results.
  destruct (processWebhook_try_explicit env e (initial env w) id cpd info
              Hp Hn Hd Hev Hid Hex)
    as (wd & st7 & results' & st8 & ls & Hw7 & Hld7 & Hls7 & Hh & Htry).
  fold w0 sh0 previousState previousInfo in Hh, Htry, Hw7.
  destruct (handleNotifications_eq env previousInfo info (config_of env id) st7)
    as (st8' & Hh' & Ho8 & Hd8 & _ & Hld8 & Hls8).
  rewrite Hh in Hh'. inversion Hh'; subst results' st8'. clear Hh'. fold results in Htry, Hh.
  destruct (processWebhook_of_try env e w _ Htry)
    as (resp & st & st_fin & Hrun & Hfin & Hstat & _ & Hld & Hob & Hdr).
  eexists resp, st, _, st_fin. split; [exact Hrun|]. split; [exact Htry|].
  split; [exact Hfin|]. split.
  { cbn [logSheet add_logs persist upd_world]. unfold record_results.
    destruct (existsb has_error results); cbn [logSheet upd_logData]; congruence. }
  split.
  { rewrite Hstat. cbn [logData add_logs persist upd_world].
    rewrite existsb_has_error_overall, Hld8, Hld7. reflexivity. }
  split.
  { rewrite Hld. cbn [logData add_logs persist upd_world].
    apply discordSendStatus_record_results. }
  split.
  { rewrite Hob. cbn [world add_logs persist upd_world outbox set_rows].
    rewrite world_record_results, Ho8, Hw7. unfold w0. now rewrite outbox_after_setup. }
  split; [exact Hdr|].
  cbn [world add_logs]. rewrite rows_of_persist, world_record_results.
  f_equal. apply rows_of_drive. rewrite Hd8, Hw7. reflexivity.
Qed.

Lemma rows_of_finally_other `{Host} env st st_fin h L :
  logSheet st = Some L -> h <> L ->
  processWebhook_finally env st = (Ret tt, st_fin) ->
  rows_of h (world st_fin) = rows_of h (world st).
Proof.
  intros HL Hne Hfin.
  destruct (processWebhook_finally_drive env L st HL) as (st' & Hfin' & [Hd|Hd]).
  all: rewrite Hfin in Hfin'; inversion Hfin'; subst st'.
  - now apply rows_of_drive.
  - rewrite (rows_of_drive h _ _ Hd). apply rows_of_set_rows_ne. congruence.
Qed.

(** X9: An event that carries a page with an id, in an environment whose
    spreadsheet is configured and opens, is never fatal: the response is
    the partial-error status exactly when a delivery failed with an error
    text that is not empty, and the success status otherwise. The
    previous record is the one extracted from the stored properties, or
    null when the lookup gave none; the requests issued and the send
    statuses logged are those of [handleNotifications] against it; and
    whether or not a delivery failed, the properties of the page are
    written to the state sheet. *)
Theorem processWebhook_delivery `{Host} (env : Env) (e : option json) (w : Store)
    (id : string) (currentPageData : json) (currentInfo : Info) :
  props env !! CONFIG.PROP_KEYS.SPREADSHEET_ID = Some id -> nonempty id = true ->
  is_Some (drive w !! id) ->
  event_page e = Some currentPageData -> truthy_u (get currentPageData "id") = true ->
  extracted currentPageData = Ret currentInfo ->
  let w0 := world (after_setup env id (initial env w)) in
  let sh0 := rows_of (state_sheet_of id) w0 in
  let previousState := lookup_previous sh0 (pageId_of currentPageData) in
  let previousInfo := option_map (fun ps => previous_info (properties ps)) previousState in
  let results := results_of env previousInfo currentInfo (config_of env id) in
  exists resp st,
    processWebhook env e w = (Ret resp, st) /\
    r_status resp = (if existsb has_error results then status_partial else status_success) /\
    discordSendStatus (logData st) = sendStatus_of results /\
    outbox (world st)
    = outbox w ++ requests_of previousInfo currentInfo (config_of env id) /\
    (log_sheet_of env id <> state_sheet_of id ->
     rows_of (state_sheet_of id) (world st)
     = updated_rows (pageId_of currentPageData) (get currentPageData "properties")
         (rowIndex_of previousState) sh0).
Proof.
  intros Hp Hn Hd Hev Hid Hex w0 sh0 previousState previousInfo results.
  destruct (processWebhook_page env e w id currentPageData currentInfo Hp Hn Hd Hev Hid Hex)
    as (resp & st & st_try & st_fin & Hrun & _ & Hfin & Hls & Hstat & Hsend & Hob & Hdr
        & Hrows).
  exists resp, st. split; [exact Hrun|]. split; [exact Hstat|]. split; [exact Hsend|].
  split; [exact Hob|]. intros Hne.
  rewrite (rows_of_drive _ _ _ Hdr).
  rewrite (rows_of_finally_other env st_try st_fin _ _ Hls (not_eq_sym Hne) Hfin).
  exact Hrows.
Qed.

Lemma processWebhook_delivery_witness :
  exists resp st,
    processWebhook demo_env_failing (post demo_body) demo_world = (Ret resp, st) /\
    r_status resp = status_partial /\
    discordSendStatus (logData st) = [type_status +:+ ": 送信エラー"] /\
    length (outbox (world st)) = 1%nat /\
    rows_of (state_sheet_of "SS1") (world st)
    = [ header_row CONFIG.SHEETS.STATE.HEADERS;
        [CVal (JStr "P1"); payload_cell (get demo_page "properties")] ].
Proof.
  destruct (processWebhook_delivery demo_env_failing (post demo_body) demo_world "SS1"
              demo_page
              (previous_info (JObj [("担当", JObj [("select", JObj [("name", JStr "田中")])])])))
    as (resp & st & Hrun & Hstat & Hsend & Hob & Hrows).
  - reflexivity.
  - reflexivity.
  - eexists. apply lookup_singleton_eq.
  - vm_compute. reflexivity.
  - reflexivity.
  - vm_compute. reflexivity.
  - exists resp, st. split; [exact Hrun|].
    split; [rewrite Hstat; vm_compute; reflexivity|].
    split; [rewrite Hsend; vm_compute; reflexivity|].
    split; [rewrite Hob; vm_compute; reflexivity|].
    rewrite Hrows; [vm_compute; reflexivity|].
    intros E. vm_compute in E. discriminate E.
Defined.

(** ** Orchestrator: a change between two calls *)

Lemma world_after_setup_exists env id st :
  sheet_exists (log_sheet_of env id) (world st) = true ->
  sheet_exists (state_sheet_of id) (world st) = true ->
  world (after_setup env id st) = world st.
Proof.
  intros Hlog Hstate. unfold after_setup. cbn [world upd_world upd_logSheet add_logs].
  rewrite (acquire_exists (log_sheet_of env id)) by exact Hlog.
  now apply acquire_exists.
Qed.

(** X10: After a call that was not fatal stored the properties of a page, a
    call for the same page id is decided against the record extracted
    from these stored properties, which agrees with the record of the first
    call in company name, status, assignee and liaison status: the
    requests and send statuses of the second call are those of
    [handleNotifications] for this previous record and the new one, so a
    change between the two payloads is notified. The second call writes
    the new properties into the row of the page, in place. *)
Theorem processWebhook_change `{Host} (env : Env) (e1 e2 : option json) (w : Store)
    (resp1 : Response) (st1 : St) (page1 page2 rawProperties : json) (info2 : Info) :
  JSON_round_trip ->
  state_sheets_have_header w ->
  processWebhook env e1 w = (Ret resp1, st1) -> r_status resp1 <> status_fatal ->
  event_page e1 = Some page1 -> get page1 "properties" = Some rawProperties ->
  primitive (pageId_of page1) = true ->
  event_page e2 = Some page2 -> truthy_u (get page2 "id") = true ->
  pageId_of page2 = pageId_of page1 ->
  extracted page2 = Ret info2 ->
  exists id resp2 st2 k,
    props env !! CONFIG.PROP_KEYS.SPREADSHEET_ID = Some id /\
    processWebhook env e2 (world st1) = (Ret resp2, st2) /\
    r_status resp2 <> status_fatal /\
    (forall info1, extracted page1 = Ret info1 ->
       status (previous_info rawProperties) = status info1 /\
       tanto (previous_info rawProperties) = tanto info1 /\
       sharoushi (previous_info rawProperties) = sharoushi info1 /\
       kigyoMei (previous_info rawProperties) = kigyoMei info1) /\
    discordSendStatus (logData st2)
    = sendStatus_of (results_of env (Some (previous_info rawProperties)) info2
                       (config_of env id)) /\
    outbox (world st2)
    = outbox (world st1)
      ++ requests_of (Some (previous_info rawProperties)) info2 (config_of env id) /\
    (log_sheet_of env id <> state_sheet_of id ->
     rows_of (state_sheet_of id) (world st2)
     = set_cell k 1 (payload_cell (get page2 "properties"))
         (rows_of (state_sheet_of id) (world st1)) /\
     length (rows_of (state_sheet_of id) (world st2))
     = length (rows_of (state_sheet_of id) (world st1))).
Proof.
  intros Hrt Hhdr Hrun1 Hnf Hev1 Hraw Hprim Hev2 Hid2 Hpid Hex2.
  destruct (first_run_stores env e1 w resp1 st1 Hrun1 Hnf Hhdr)
    as (id & cpd & info & Hp & Hn & Hev & _ & Hex1 & Hd & Hlog & Hstate & Hst).
  rewrite Hev1 in Hev. inversion Hev; subst cpd. clear Hev.
  destruct (Hst Hprim) as (k & Hk). rewrite Hraw in Hk.
  destruct (processWebhook_page env e2 (world st1) id page2 info2 Hp Hn Hd Hev2 Hid2 Hex2)
    as (resp2 & st2 & st_try & st_fin & Hrun2 & _ & Hfin & Hls & Hstat & Hsend & Hob & Hdr
        & Hrows).
  rewrite (world_after_setup_exists env id (initial env (world st1)) Hlog Hstate) in *.
  cbn [world initial] in *. rewrite Hpid in *.
  rewrite (stored_lookup _ _ _ _ rawProperties Hk (Hrt rawProperties)) in *.
  cbn [option_map properties rowIndex_of rowIndex] in *.
  exists id, resp2, st2, k. split; [exact Hp|]. split; [exact Hrun2|].
  split.
  { rewrite Hstat. destruct status_strings_distinct as [Hs Hpa].
    now destruct (existsb has_error _). }
  split.
  { intros info1 Hinfo1.
    destruct (extractNotionInfo_extracted page1) as (lse & Hext). rewrite Hinfo1 in Hext.
    destruct (extractNotionInfo_Ret _ _ _ _ (Hext empty_state)) as (t & ->).
    destruct (info_of_tracked page1 rawProperties t Hraw) as (E1 & E2 & E3 & E4).
    now rewrite E1, E2, E3, E4. }
  split; [exact Hsend|]. split; [exact Hob|].
  intros Hne.
  assert (Hfinal : rows_of (state_sheet_of id) (world st2)
                   = set_cell k 1 (payload_cell (get page2 "properties"))
                       (rows_of (state_sheet_of id) (world st1))).
  { rewrite (rows_of_drive _ _ _ Hdr).
    rewrite (rows_of_finally_other env st_try st_fin _ _ Hls (not_eq_sym Hne) Hfin).
    rewrite Hrows. unfold updated_rows.
    replace (-1 <? Z.of_nat k + 1) with true by (symmetry; apply Z.ltb_lt; lia).
    now replace (Z.to_nat (Z.of_nat k + 1 - 1)) with k by lia. }
  split; [exact Hfinal|]. rewrite Hfinal.
  destruct Hk as (Hm & r & Hr & _). now apply (length_set_cell _ _ _ _ r).
Qed.

Lemma processWebhook_change_witness :
  exists resp1 st1 resp2 st2,
    processWebhook demo_env (post demo_body) demo_world = (Ret resp1, st1) /\
    processWebhook demo_env (post demo_body_changed) (world st1) = (Ret resp2, st2) /\
    discordSendStatus (logData st2) = [type_status +:+ ": 送信成功"] /\
    length (outbox (world st2)) = S (length (outbox (world st1))) /\
    length (rows_of (state_sheet_of "SS1") (world st2)) = 2%nat.
Proof.
  destruct (processWebhook demo_env (post demo_body) demo_world)
    as [[resp1|err] st1] eqn:E1.
  - pose proof E1 as E1'. vm_compute in E1'. injection E1' as Hresp Hst.
    destruct (processWebhook_change demo_env (post demo_body) (post demo_body_changed)
                demo_world resp1 st1 demo_page demo_page_changed
                (JObj [("担当", JObj [("select", JObj [("name", JStr "田中")])])])
                (previous_info (JObj [("担当", JObj [("select", JObj [("name", JStr "佐藤")])])])))
      as (id & resp2 & st2 & k & Hp & Hrun2 & _ & _ & Hsend & Hob & Hrows).
    + exact MiniJSON_round_trip.
    + exact demo_world_has_header.
    + exact E1.
    + rewrite <- Hresp. intros E. vm_compute in E. discriminate E.
    + vm_compute. reflexivity.
    + reflexivity.
    + reflexivity.
    + vm_compute. reflexivity.
    + reflexivity.
    + reflexivity.
    + vm_compute. reflexivity.
    + assert (Hid : id = "SS1").
      { vm_compute in Hp. now injection Hp as <-. }
      subst id.
      exists resp1, st1, resp2, st2. split; [reflexivity|]. split; [exact Hrun2|].
      split; [rewrite Hsend; vm_compute; reflexivity|].
      split.
      { rewrite Hob, length_app.
        match goal with
        | |- (_ + ?n)%nat = _ => replace n with 1%nat by (vm_compute; reflexivity)
        end. lia. }
      destruct Hrows as [_ ->].
      * intros E. vm_compute in E. discriminate E.
      * rewrite <- Hst. vm_compute. reflexivity.
  - vm_compute in E1. discriminate E1.
Defined.

(** ** Orchestrator: the shape of a run *)

Lemma processWebhook_outline `{Host} env e w st1 st2 :
  try_catch (processWebhook_try env e) processWebhook_catch (initial env w) = (Ret tt, st1) ->
  processWebhook_finally env st1 = (Ret tt, st2) ->
  exists st,
    processWebhook env e w
    = (Ret {| r_status := overallStatus (logData st2); r_message := "Webhook processed." |},
       st) /\
    logData st = logData st2 /\ logSheet st = logSheet st2 /\
    drive (world st) = drive (world st2) /\
    outbox (world st) = outbox (world st2) /\
    Logger_log (world st)
    = Logger_log (world st2)
      ++ [String.concat nl (executionLogs st2 ++ ["--- Webhook Execution End ---"])].
Proof.
  intros Htc Hfin. eexists. split.
  - unfold processWebhook, processWebhook_m, try_catch_finally.
    unfold bind at 1. rewrite Htc, Hfin. reflexivity.
  - repeat split.
Qed.

Lemma try_catch_Throw `{Host} env e st err st_try :
  processWebhook_try env e st = (Throw err, st_try) ->
  exists st1,
    try_catch (processWebhook_try env e) processWebhook_catch st = (Ret tt, st1) /\
    executionLogs st1
    = executionLogs st_try
      ++ ["Critical Error: " +:+ message err +:+ " " +:+ nl
          +:+ default EmptyString (stack err)] /\
    logData st1 = set_overallStatus status_fatal (logData st_try) /\
    logSheet st1 = logSheet st_try /\
    drive (world st1) = drive (world st_try) /\
    outbox (world st1) = outbox (world st_try) /\
    Logger_log (world st1)
    = Logger_log (world st_try) ++ ["Critical Error in processWebhook: " +:+ toString err].
Proof.
  intros Htry. eexists. split.
  - unfold try_catch. rewrite Htry. reflexivity.
  - repeat split.
Qed.

(** The [try] block when the spreadsheet is not available. *)
Lemma processWebhook_try_unavailable `{Host} env e st :
  (forall id, props env !! CONFIG.PROP_KEYS.SPREADSHEET_ID = Some id ->
              nonempty id = true -> drive (world st) !! id = None) ->
  exists err ls, processWebhook_try env e st = (Throw err, add_logs ls st).
Proof.
  intros Hun. unfold processWebhook_try.
  destruct (props env !! CONFIG.PROP_KEYS.SPREADSHEET_ID) as [id|] eqn:Hp.
  - destruct (nonempty id) eqn:Hn.
    + rewrite (bind_Ret _ _ _ _ _ (loadConfig_eq env id st Hp Hn)).
      destruct (getOrCreateSheet_Throw env id (logSheetName (config_of env id))
                  CONFIG.SHEETS.LOG.HEADERS
                  (add_logs ["Configuration loaded successfully."] st))
        as (err & E).
      { cbn [world add_logs]. now apply Hun. }
      exists err, ["Configuration loaded successfully."].
      cbn [spreadsheetId config_of]. now rewrite (bind_Throw _ _ _ _ _ E).
    + destruct (loadConfig_Throw env st) as (err & ls & E).
      { intros id' Hid'. rewrite Hp in Hid'. now inversion Hid'; subst id'. }
      exists err, ls. now rewrite (bind_Throw _ _ _ _ _ E).
  - destruct (loadConfig_Throw env st) as (err & ls & E).
    { intros id' Hid'. rewrite Hp in Hid'. discriminate Hid'. }
    exists err, ls. now rewrite (bind_Throw _ _ _ _ _ E).
Qed.

(** The [try] block on an event without a usable page, once the sheets
    are there: it throws with the world as the set-up left it. *)
Lemma processWebhook_try_early `{Host} env e st id :
  props env !! CONFIG.PROP_KEYS.SPREADSHEET_ID = Some id -> nonempty id = true ->
  is_Some (drive (world st) !! id) ->
  page_unusable e ->
  exists err st_try,
    processWebhook_try env e st = (Throw err, st_try) /\
    world st_try = world (after_setup env id st) /\
    logSheet st_try = Some (log_sheet_of env id) /\
    notionInfo (logData st_try) = notionInfo (logData st) /\
    discordSendStatus (logData st_try) = discordSendStatus (logData st).
Proof.
  intros Hp Hn Hd Hun.
  destruct (parseWebhookEvent_event_page e) as (wd & ls & Hparse & Hpd & Htr).
  unfold page_unusable in Hun.
  unfold processWebhook_try. rewrite (setup_eq env id st _ Hp Hn Hd).
  rewrite (bind_Ret _ _ _ _ _ (Hparse _)).
  erewrite bind_Ret; [|reflexivity].
  rewrite Hpd. destruct (event_page e) as [cpd|] eqn:Hev.
  - rewrite (Htr cpd eq_refl). cbn [negb orb].
    destruct (truthy_u (get cpd "id")) eqn:Hid.
    + destruct Hun as [Hun|[err Herr]]; [discriminate Hun|].
      destruct (extractNotionInfo_extracted cpd) as (lse & Hext). rewrite Herr in Hext.
      cbn [negb]. rewrite (bind_Throw _ _ _ _ _ (Hext _)).
      do 2 eexists. split; [reflexivity|]. repeat split.
    + cbn [negb]. do 2 eexists. split; [reflexivity|]. repeat split.
  - do 2 eexists. split; [reflexivity|]. repeat split.
Qed.

Lemma rows_of_acquire_ne h h' headers w :
  h <> h' -> rows_of h' (acquire h headers w) = rows_of h' w.
Proof.
  intros Hne. unfold acquire. destruct (sheet_exists h w); [reflexivity|].
  now apply rows_of_set_rows_ne.
Qed.

Lemma drive_after_setup_unchanged env id st h :
  h <> log_sheet_of env id -> h <> state_sheet_of id ->
  rows_of h (world (after_setup env id st)) = rows_of h (world st).
Proof.
  intros H1 H2. unfold after_setup. cbn [world upd_world upd_logSheet add_logs].
  rewrite !rows_of_acquire_ne by congruence. reflexivity.
Qed.

Lemma rows_of_after_setup_other env id st h :
  h <> log_sheet_of env id ->
  rows_of h (world (after_setup env id st))
  = rows_of h (acquire (state_sheet_of id) CONFIG.SHEETS.STATE.HEADERS (world st)).
Proof.
  intros Hlog. unfold after_setup. cbn [world upd_world upd_logSheet add_logs].
  set (w := world st). set (L := log_sheet_of env id) in *. set (S := state_sheet_of id).
  destruct (same_sheet_dec h S) as [->|Hstate].
  - assert (Hex : sheet_exists S (acquire L CONFIG.SHEETS.LOG.HEADERS w) = sheet_exists S w).
    { unfold acquire. destruct (sheet_exists L w); [reflexivity|].
      apply sheet_exists_set_rows_ne. congruence. }
    unfold acquire at 1 3. rewrite Hex. destruct (sheet_exists S w).
    + apply rows_of_acquire_ne. congruence.
    + now rewrite !rows_of_set_rows.
  - rewrite !rows_of_acquire_ne by congruence. reflexivity.
Qed.

(** ** Orchestrator: an event without a usable page *)

(** X11: In an environment whose spreadsheet is configured and opens, an event
    that carries no page data (no body, a body that is not JSON or has no
    truthy [data]), page data without an id, or page data whose
    last-edited time the host rejects, ends in the fatal status. Nothing is
    sent, no record is logged, and no sheet is written apart from the log
    sheet: the state sheet is as [getOrCreateSheet] found or created it. *)
Theorem processWebhook_no_page `{Host} (env : Env) (e : option json) (w : Store)
    (id : string) :
  props env !! CONFIG.PROP_KEYS.SPREADSHEET_ID = Some id -> nonempty id = true ->
  is_Some (drive w !! id) ->
  page_unusable e ->
  exists resp st,
    processWebhook env e w = (Ret resp, st) /\
    r_status resp = status_fatal /\
    outbox (world st) = outbox w /\
    notionInfo (logData st) = None /\
    discordSendStatus (logData st) = [] /\
    (forall h, h <> log_sheet_of env id ->
       rows_of h (world st)
       = rows_of h (acquire (state_sheet_of id) CONFIG.SHEETS.STATE.HEADERS w)).
Proof.
  intros Hp Hn Hd Hun.
  destruct (processWebhook_try_early env e (initial env w) id Hp Hn Hd Hun)
    as (err & st_try & Htry & Hw & Hls & Hni & Hov).
  destruct (try_catch_Throw env e _ err st_try Htry)
    as (st1 & Htc & _ & Hld1 & Hls1 & Hdr1 & Hob1 & _).
  destruct (processWebhook_finally_returns env st1) as (st2 & Hfin & Hld2 & Hob2).
  destruct (processWebhook_outline env e w st1 st2 Htc Hfin)
    as (st & Hrun & Hld & _ & Hdr & Hob & _).
  do 2 eexists. split; [exact Hrun|]. cbn [r_status].
  split; [rewrite Hld2, Hld1; reflexivity|].
  split; [rewrite Hob, Hob2, Hob1, Hw; apply outbox_after_setup|].
  split; [rewrite Hld, Hld2, Hld1; exact Hni|].
  split; [rewrite Hld, Hld2, Hld1; exact Hov|].
  intros h Hh. rewrite (rows_of_drive _ _ _ Hdr).
  rewrite (rows_of_finally_other env st1 st2 h (log_sheet_of env id)); [|congruence|exact Hh|exact Hfin].
  rewrite (rows_of_drive _ _ _ Hdr1), Hw. now apply rows_of_after_setup_other.
Qed.

Lemma processWebhook_no_page_witness :
  exists resp st,
    processWebhook demo_env (post demo_body_garbled) demo_world = (Ret resp, st) /\
    r_status resp = status_fatal /\
    outbox (world st) = [] /\
    rows_of (state_sheet_of "SS1") (world st) = [header_row CONFIG.SHEETS.STATE.HEADERS].
Proof.
  destruct (processWebhook_no_page demo_env (post demo_body_garbled) demo_world "SS1")
    as (resp & st & Hrun & Hstat & Hob & _ & _ & Hrows).
  - reflexivity.
  - reflexivity.
  - eexists. apply lookup_singleton_eq.
  - vm_compute. exact I.
  - exists resp, st. split; [exact Hrun|]. split; [exact Hstat|]. split; [exact Hob|].
    rewrite Hrows; [vm_compute; reflexivity|].
    intros E. vm_compute in E. discriminate E.
Defined.

(** ** Orchestrator: no spreadsheet *)

(** X12: When the spreadsheet id is unset or empty, or the spreadsheet does not
    open, every event ends in the fatal status: no sheet is written and
    nothing is sent, and the trace is not lost: [Logger.log] receives the
    caught error, the trace so far under the line that says the log sheet
    was not available, and the complete trace, which begins with the start
    marker. *)
Theorem processWebhook_unavailable `{Host} (env : Env) (e : option json) (w : Store) :
  (forall id, props env !! CONFIG.PROP_KEYS.SPREADSHEET_ID = Some id ->
              nonempty id = true -> drive w !! id = None) ->
  exists resp st err trace,
    processWebhook env e w = (Ret resp, st) /\
    r_status resp = status_fatal /\
    drive (world st) = drive w /\
    outbox (world st) = outbox w /\
    Logger_log (world st) = Logger_log w ++ fallback_lines err trace /\
    trace !! 0%nat = Some "--- Webhook Execution Start ---".
Proof.
  intros Hun.
  destruct (processWebhook_try_unavailable env e (initial env w) Hun) as (err & ls & Htry).
  destruct (try_catch_Throw env e _ err _ Htry)
    as (st1 & Htc & Hlogs1 & Hld1 & Hls1 & Hdr1 & Hob1 & Hlg1).
  assert (Hfin : processWebhook_finally env st1
                 = (Ret tt,
                    upd_world (fun w => {| drive := drive w; outbox := outbox w;
                                           Logger_log := Logger_log w ++
                                             ["CRITICAL: Log sheet was not available. Logs:"
                                              +:+ nl +:+ String.concat nl (executionLogs st1)] |})
                              st1)).
  { unfold processWebhook_finally, bind, get_logSheet, get_logs. rewrite Hls1. reflexivity. }
  destruct (processWebhook_outline env e w st1 _ Htc Hfin)
    as (st & Hrun & Hld & _ & Hdr & Hob & Hlg).
  exists {| r_status := status_fatal; r_message := "Webhook processed." |}, st, err,
         (executionLogs st1).
  split; [rewrite Hrun; cbn [logData upd_world]; now rewrite Hld1|].
  split; [reflexivity|].
  split; [rewrite Hdr; cbn [world upd_world drive]; now rewrite Hdr1|].
  split; [rewrite Hob; cbn [world upd_world outbox]; now rewrite Hob1|].
  split.
  - rewrite Hlg. cbn [world upd_world Logger_log executionLogs]. rewrite Hlg1.
    cbn [world add_logs initial]. unfold fallback_lines. now rewrite <- !app_assoc.
  - rewrite Hlogs1. reflexivity.
Qed.

Lemma processWebhook_unavailable_witness :
  exists resp st err trace,
    processWebhook demo_env_unconfigured (post demo_body) demo_world = (Ret resp, st) /\
    r_status resp = status_fatal /\
    drive (world st) = drive demo_world /\
    Logger_log (world st) = fallback_lines err trace.
Proof.
  destruct (processWebhook_unavailable demo_env_unconfigured (post demo_body) demo_world)
    as (resp & st & err & trace & Hrun & Hstat & Hdr & _ & Hlg & _).
  - intros id Hid. vm_compute in Hid. discriminate Hid.
  - exists resp, st, err, trace. repeat split; assumption.
Defined.

(** ** Orchestrator: the audit row *)

Lemma page_usable_dec `{Host} e :
  page_unusable e \/
  exists cpd info, event_page e = Some cpd /\ truthy_u (get cpd "id") = true /\
                   extracted cpd = Ret info.
Proof.
  unfold page_unusable. destruct (event_page e) as [cpd|]; [|now left].
  destruct (truthy_u (get cpd "id")) eqn:Hid; [|left; now left].
  destruct (extracted cpd) as [info|err] eqn:Hex.
  - right. now exists cpd, info.
  - left. right. now exists err.
Qed.

(** After the [try] and [catch] blocks, in an environment whose
    spreadsheet opens: the log sheet is known, and only the state sheet
    may have changed since the set-up. *)
Lemma try_catch_after_setup `{Host} env e w id :
  props env !! CONFIG.PROP_KEYS.SPREADSHEET_ID = Some id -> nonempty id = true ->
  is_Some (drive w !! id) ->
  exists st1,
    try_catch (processWebhook_try env e) processWebhook_catch (initial env w) = (Ret tt, st1) /\
    logSheet st1 = Some (log_sheet_of env id) /\
    (forall h, h <> state_sheet_of id ->
       rows_of h (world st1) = rows_of h (world (after_setup env id (initial env w)))).
Proof.
  intros Hp Hn Hd.
  destruct (page_usable_dec e) as [Hun|(cpd & info & Hev & Hid & Hex)].
  - destruct (processWebhook_try_early env e (initial env w) id Hp Hn Hd Hun)
      as (err & st_try & Htry & Hw & Hls & _).
    destruct (try_catch_Throw env e _ err st_try Htry)
      as (st1 & Htc & _ & _ & Hls1 & Hdr1 & _).
    exists st1. split; [exact Htc|]. split; [congruence|].
    intros h _. rewrite (rows_of_drive _ _ _ Hdr1). now rewrite Hw.
  - destruct (processWebhook_try_drive env e (initial env w) id cpd info
                Hp Hn Hd Hev Hid Hex) as (st_try & Htry & Hls & Hdr).
    exists st_try. split; [unfold try_catch; now rewrite Htry|]. split; [exact Hls|].
    intros h Hh. rewrite (rows_of_drive _ _ _ Hdr). apply rows_of_set_rows_ne. congruence.
Qed.

Lemma length_audit_row d logs :
  length (audit_row d logs) = length CONFIG.SHEETS.LOG.HEADERS.
Proof. unfold audit_row. now destruct (notionInfo d). Qed.

(** X13: Whatever the event, when the spreadsheet is configured and opens,
    appending to the log sheet does not fail and the log sheet is not the
    state sheet, the invocation appends exactly one row to the log sheet,
    after the rows it had (or after the header row, when the sheet had to
    be created). The row is the audit row of the final log data: its
    status cell is the status of the response, and it has one cell for each
    header. *)
Theorem processWebhook_audit_row `{Host} (env : Env) (e : option json) (w : Store)
    (id : string) :
  props env !! CONFIG.PROP_KEYS.SPREADSHEET_ID = Some id -> nonempty id = true ->
  is_Some (drive w !! id) ->
  appendRow_error env = None ->
  log_sheet_of env id <> state_sheet_of id ->
  exists resp st trace,
    processWebhook env e w = (Ret resp, st) /\
    rows_of (log_sheet_of env id) (world st)
    = (if sheet_exists (log_sheet_of env id) w
       then rows_of (log_sheet_of env id) w
       else [header_row CONFIG.SHEETS.LOG.HEADERS])
      ++ [audit_row (logData st) trace] /\
    audit_row (logData st) trace !! 4%nat = Some (CVal (JStr (r_status resp))) /\
    length (audit_row (logData st) trace) = length CONFIG.SHEETS.LOG.HEADERS.
Proof.
  intros Hp Hn Hd Hap Hne.
  destruct (try_catch_after_setup env e w id Hp Hn Hd) as (st1 & Htc & Hls1 & Hrows1).
  pose proof (processWebhook_finally_append env _ st1 Hls1 Hap) as Hfin.
  destruct (processWebhook_outline env e w st1 _ Htc Hfin)
    as (st & Hrun & Hld & _ & Hdr & _).
  cbn [logData upd_world] in Hrun, Hld.
  do 2 eexists. exists (executionLogs st1). split; [exact Hrun|]. split.
  - rewrite (rows_of_drive _ _ _ Hdr). cbn [world upd_world].
    rewrite rows_of_set_rows, Hrows1 by exact Hne.
    rewrite rows_of_after_setup_log. now rewrite Hld.
  - split; [|apply length_audit_row].
    rewrite Hld. cbn [r_status]. unfold audit_row. now destruct (notionInfo (logData st1)).
Qed.

Lemma processWebhook_audit_row_witness :
  exists resp st trace,
    processWebhook demo_env (post demo_body) demo_world = (Ret resp, st) /\
    rows_of (log_sheet_of demo_env "SS1") (world st)
    = [header_row CONFIG.SHEETS.LOG.HEADERS; audit_row (logData st) trace] /\
    audit_row (logData st) trace !! 4%nat = Some (CVal (JStr (r_status resp))).
Proof.
  destruct (processWebhook_audit_row demo_env (post demo_body) demo_world "SS1")
    as (resp & st & trace & Hrun & Hrows & Hcell & _).
  - reflexivity.
  - reflexivity.
  - eexists. apply lookup_singleton_eq.
  - reflexivity.
  - intros E. vm_compute in E. discriminate E.
  - exists resp, st, trace. split; [exact Hrun|]. split; [exact Hrows | exact Hcell].
Defined.

(** ** Orchestrator: the audit log fails *)

Lemma logToSheet_fails `{Host} env h d st err :
  appendRow_error env = Some err ->
  logToSheet env h d st
  = (Ret tt,
     upd_world (fun w => {| drive := drive w; outbox := outbox w;
                            Logger_log := Logger_log w ++
                              ["CRITICAL: Error appending final log to spreadsheet: "
                               +:+ toString err +:+ nl +:+ default "undefined" (stack err)] |})
               st).
Proof.
  intros Herr. unfold logToSheet, try_catch, bind, get_logs. rewrite Herr.
  now destruct (notionInfo d).
Qed.

(** X14: A failure to append the audit row is swallowed, and costs nothing but
    the row: with and without it, an invocation gives the same response,
    ends with the same log data and issues the same requests, and the
    sheets are the same except that the log sheet lacks the audit row;
    [Logger.log] is told of the failure. When no log sheet was available
    anyway, the two invocations do not differ. *)
Theorem processWebhook_log_failure `{Host} (env : Env) (e : option json) (w : Store)
    (err : Error) :
  let env_ok := with_appendRow_error env None in
  let env_fail := with_appendRow_error env (Some err) in
  exists resp st_ok st_fail,
    processWebhook env_ok e w = (Ret resp, st_ok) /\
    processWebhook env_fail e w = (Ret resp, st_fail) /\
    logData st_fail = logData st_ok /\
    outbox (world st_fail) = outbox (world st_ok) /\
    match logSheet st_ok with
    | Some logSheet =>
        (exists trace,
           rows_of logSheet (world st_ok)
           = rows_of logSheet (world st_fail) ++ [audit_row (logData st_ok) trace]) /\
        (forall h, h <> logSheet -> rows_of h (world st_ok) = rows_of h (world st_fail)) /\
        ("CRITICAL: Error appending final log to spreadsheet: "
         +:+ toString err +:+ nl +:+ default "undefined" (stack err))
        ∈ Logger_log (world st_fail)
    | None =>
        drive (world st_fail) = drive (world st_ok) /\
        Logger_log (world st_fail) = Logger_log (world st_ok)
    end.
Proof.
  intros env_ok env_fail.
  destruct (processWebhook_m_run env_ok e (initial env_ok w))
    as (st1 & st2 & _ & Htc & Hfin & _).
  assert (Htc' : try_catch (processWebhook_try env_fail e) processWebhook_catch
                   (initial env_fail w) = (Ret tt, st1)) by exact Htc.
  destruct (logSheet st1) as [L|] eqn:HL.
  - rewrite (processWebhook_finally_append env_ok L st1 HL eq_refl) in Hfin.
    inversion Hfin; subst st2; clear Hfin.
    assert (Hfin' : processWebhook_finally env_fail st1
                    = (Ret tt,
                       upd_world (fun w => {| drive := drive w; outbox := outbox w;
                                              Logger_log := Logger_log w ++
                                                ["CRITICAL: Error appending final log to spreadsheet: "
                                                 +:+ toString err +:+ nl
                                                 +:+ default "undefined" (stack err)] |})
                                 st1)).
    { unfold processWebhook_finally, bind, get_logSheet, get_logData. rewrite HL.
      now apply logToSheet_fails. }
    destruct (processWebhook_outline env_ok e w st1 _ Htc
                (processWebhook_finally_append env_ok L st1 HL eq_refl))
      as (st_ok & Hrun & Hld & Hls & Hdr & Hob & _).
    destruct (processWebhook_outline env_fail e w st1 _ Htc' Hfin')
      as (st_fail & Hrun' & Hld' & _ & Hdr' & Hob' & Hlg').
    cbn [logData logSheet world upd_world outbox drive Logger_log] in *.
    assert (Hob2 : outbox (world st_ok) = outbox (world st1)) by (now rewrite Hob).
    do 3 eexists. split; [exact Hrun|]. split; [exact Hrun'|].
    split; [congruence|]. split; [congruence|].
    rewrite Hls, HL. split; [|split].
    + exists (executionLogs st1).
      rewrite (rows_of_drive _ _ _ Hdr), (rows_of_drive _ _ _ Hdr').
      rewrite rows_of_set_rows. now rewrite Hld.
    + intros h Hh. rewrite (rows_of_drive _ _ _ Hdr), (rows_of_drive _ _ _ Hdr').
      apply rows_of_set_rows_ne. congruence.
    + rewrite Hlg'. rewrite !elem_of_app. left. right. apply list_elem_of_singleton.
      reflexivity.
  - assert (Hfin' : processWebhook_finally env_fail st1 = (Ret tt, st2)).
    { rewrite <- Hfin. unfold processWebhook_finally, bind, get_logSheet. now rewrite HL. }
    destruct (processWebhook_outline env_ok e w st1 _ Htc Hfin)
      as (st_ok & Hrun & Hld & Hls & Hdr & Hob & Hlg).
    destruct (processWebhook_outline env_fail e w st1 _ Htc' Hfin')
      as (st_fail & Hrun' & Hld' & _ & Hdr' & Hob' & Hlg').
    assert (Hls2 : logSheet st2 = None).
    { pose proof Hfin as E. revert E.
      unfold processWebhook_finally, bind, get_logSheet, get_logs, Logger_log_, modify_world.
      rewrite HL. intros E. inversion E. exact HL. }
    do 3 eexists. split; [exact Hrun|]. split; [exact Hrun'|].
    split; [congruence|]. split; [congruence|].
    rewrite Hls, Hls2. split; congruence.
Qed.

(** ** Orchestrator: what it leaves alone *)

Lemma rows_kept_refl sh : rows_kept sh sh.
Proof. intros j r Hr. exists r. split; [exact Hr | auto]. Qed.

Lemma rows_kept_trans sh1 sh2 sh3 :
  rows_kept sh1 sh2 -> rows_kept sh2 sh3 -> rows_kept sh1 sh3.
Proof.
  intros H12 H23 j r Hr. destruct (H12 j r Hr) as (r2 & Hr2 & Hc2).
  destruct (H23 j r2 Hr2) as (r3 & Hr3 & Hc3). exists r3. split; [exact Hr3 | auto].
Qed.

Lemma rows_kept_prefix sh sh' : sh `prefix_of` sh' -> rows_kept sh sh'.
Proof.
  intros [k ->] j r Hr. exists r. split; [|auto].
  unfold sheet, row in *. now apply lookup_app_l_Some.
Qed.

Lemma rows_kept_set_cell k v sh : rows_kept sh (set_cell k 1 v sh).
Proof.
  intros j r Hr. unfold set_cell. unfold sheet, row in *.
  pose proof (lookup_lt_Some _ _ _ Hr) as Hlt.
  assert (Hpad : pad (S k) [] sh !! j = Some r).
  { rewrite pad_lookup. now rewrite Hr. }
  assert (Hlen : (j < length (pad (S k) [] sh))%nat) by (rewrite length_pad; lia).
  destruct (decide (j = k)) as [->|Hjk].
  - rewrite Hpad. simpl. eexists. split.
    + apply list_lookup_insert_eq. exact Hlen.
    + intros c x Hc Hx. rewrite list_lookup_insert_ne by congruence.
      rewrite pad_lookup. now rewrite Hx.
  - exists r. split; [|auto]. now rewrite list_lookup_insert_ne by congruence.
Qed.

Lemma rows_kept_updated_rows `{Host} pageId newProperties r sh :
  rows_kept sh (updated_rows pageId newProperties r sh).
Proof.
  unfold updated_rows. destruct (-1 <? r).
  - apply rows_kept_set_cell.
  - apply rows_kept_prefix. now eexists.
Qed.

Lemma rows_of_not_exists h w : sheet_exists h w = false -> rows_of h w = [].
Proof.
  unfold sheet_exists, rows_of. destruct (drive w !! ss_id h) as [book|]; [|reflexivity].
  intros Hex. apply bool_decide_eq_false in Hex. simpl.
  destruct (book !! sheet_name h) eqn:E; [|reflexivity]. exfalso. apply Hex. now eexists.
Qed.

Lemma prefix_acquire h h' headers w :
  rows_of h w `prefix_of` rows_of h (acquire h' headers w).
Proof.
  unfold acquire. destruct (sheet_exists h' w) eqn:Hex; [reflexivity|].
  destruct (same_sheet_dec h' h) as [->|Hne].
  - rewrite (rows_of_not_exists h w Hex). apply prefix_nil.
  - now rewrite rows_of_set_rows_ne.
Qed.

Lemma prefix_after_setup env id st h :
  rows_of h (world st) `prefix_of` rows_of h (world (after_setup env id st)).
Proof.
  unfold after_setup. cbn [world upd_world upd_logSheet add_logs].
  etransitivity; apply prefix_acquire.
Qed.

Lemma prefix_finally `{Host} env st st' h :
  processWebhook_finally env st = (Ret tt, st') ->
  rows_of h (world st) `prefix_of` rows_of h (world st').
Proof.
  intros Hfin. destruct (logSheet st) as [L|] eqn:HL.
  - destruct (processWebhook_finally_drive env L st HL) as (st2 & Hfin' & [Hd|Hd]);
      rewrite Hfin in Hfin'; inversion Hfin'; subst st2; rewrite (rows_of_drive _ _ _ Hd).
    + reflexivity.
    + destruct (same_sheet_dec L h) as [->|Hne].
      * rewrite rows_of_set_rows. now eexists.
      * now rewrite rows_of_set_rows_ne.
  - destruct (processWebhook_finally_no_sheet env st HL) as (st2 & Hfin' & Hd).
    rewrite Hfin in Hfin'. inversion Hfin'; subst st2.
    now rewrite (rows_of_drive _ _ _ Hd).
Qed.

(** The state sheet after the [try] and [catch] blocks. *)
Lemma try_catch_state_rows `{Host} env e w id st1 :
  props env !! CONFIG.PROP_KEYS.SPREADSHEET_ID = Some id -> nonempty id = true ->
  is_Some (drive w !! id) ->
  try_catch (processWebhook_try env e) processWebhook_catch (initial env w) = (Ret tt, st1) ->
  rows_kept (rows_of (state_sheet_of id) (world (after_setup env id (initial env w))))
            (rows_of (state_sheet_of id) (world st1)).
Proof.
  intros Hp Hn Hd Htc.
  destruct (page_usable_dec e) as [Hun|(cpd & info & Hev & Hid & Hex)].
  - destruct (processWebhook_try_early env e (initial env w) id Hp Hn Hd Hun)
      as (err & st_try & Htry & Hw & _).
    destruct (try_catch_Throw env e _ err st_try Htry) as (st1' & Htc' & _ & _ & _ & Hdr1 & _).
    rewrite Htc in Htc'. inversion Htc'; subst st1'.
    rewrite (rows_of_drive _ _ _ Hdr1), Hw. apply rows_kept_refl.
  - destruct (processWebhook_try_drive env e (initial env w) id cpd info
                Hp Hn Hd Hev Hid Hex) as (st_try & Htry & _ & Hdr).
    unfold try_catch in Htc. rewrite Htry in Htc. inversion Htc; subst st1.
    rewrite (rows_of_drive _ _ _ Hdr), rows_of_set_rows. apply rows_kept_updated_rows.
Qed.

Lemma setup_dec (env : Env) (w : Store) :
  (forall id, props env !! CONFIG.PROP_KEYS.SPREADSHEET_ID = Some id ->
              nonempty id = true -> drive w !! id = None) \/
  (exists id, props env !! CONFIG.PROP_KEYS.SPREADSHEET_ID = Some id /\
              nonempty id = true /\ is_Some (drive w !! id)).
Proof.
  destruct (props env !! CONFIG.PROP_KEYS.SPREADSHEET_ID) as [id|]; [|left; discriminate].
  destruct (nonempty id) eqn:Hn.
  - destruct (drive w !! id) as [book|] eqn:Hd.
    + right. exists id. split; [reflexivity|]. split; [exact Hn|]. rewrite Hd. now eexists.
    + left. intros id' Hid' _. now inversion Hid'; subst id'.
  - left. intros id' Hid' Hn'. inversion Hid'; subst id'. congruence.
Qed.

(** A run without a spreadsheet leaves the sheets alone. *)
Lemma processWebhook_unavailable_run `{Host} env e w :
  (forall id, props env !! CONFIG.PROP_KEYS.SPREADSHEET_ID = Some id ->
              nonempty id = true -> drive w !! id = None) ->
  exists resp st,
    processWebhook env e w = (Ret resp, st) /\
    r_status resp = status_fatal /\
    drive (world st) = drive w /\ outbox (world st) = outbox w.
Proof.
  intros Hun.
  destruct (processWebhook_try_unavailable env e (initial env w) Hun) as (err & ls & Htry).
  destruct (try_catch_Throw env e _ err _ Htry)
    as (st1 & Htc & _ & Hld1 & Hls1 & Hdr1 & Hob1 & _).
  destruct (processWebhook_finally_no_sheet env st1 Hls1) as (st2 & Hfin & Hdr2).
  destruct (processWebhook_finally_returns env st1) as (st2' & Hfin' & Hld2 & Hob2).
  rewrite Hfin in Hfin'. inversion Hfin'; subst st2'.
  destruct (processWebhook_outline env e w st1 st2 Htc Hfin)
    as (st & Hrun & _ & _ & Hdr & Hob & _).
  cbn [world add_logs initial] in Hdr1, Hob1.
  do 2 eexists. split; [exact Hrun|]. cbn [r_status].
  split; [now rewrite Hld2, Hld1|]. split; congruence.
Qed.

(** X15: Whatever the event and the environment, an invocation leaves every
    sheet other than the configured log sheet and state sheet as it was;
    to a sheet other than the state sheet it only appends; and in the state
    sheet it removes no row and rewrites no cell outside the second
    column. *)
Theorem processWebhook_frame `{Host} (env : Env) (e : option json) (w : Store) :
  exists resp st,
    processWebhook env e w = (Ret resp, st) /\
    (forall h,
       (forall id, props env !! CONFIG.PROP_KEYS.SPREADSHEET_ID = Some id ->
                   h <> log_sheet_of env id /\ h <> state_sheet_of id) ->
       rows_of h (world st) = rows_of h w) /\
    (forall h,
       (forall id, props env !! CONFIG.PROP_KEYS.SPREADSHEET_ID = Some id ->
                   h <> state_sheet_of id) ->
       rows_of h w `prefix_of` rows_of h (world st)) /\
    (forall h, rows_kept (rows_of h w) (rows_of h (world st))).
Proof.
  destruct (setup_dec env w) as [Hun|(id & Hp & Hn & Hd)].
  - destruct (processWebhook_unavailable_run env e w Hun) as (resp & st & Hrun & _ & Hdr & _).
    exists resp, st. split; [exact Hrun|].
    split; [intros h _; now apply rows_of_drive|].
    split; [intros h _; now rewrite (rows_of_drive _ _ _ Hdr)|].
    intros h. rewrite (rows_of_drive _ _ _ Hdr). apply rows_kept_refl.
  - destruct (try_catch_after_setup env e w id Hp Hn Hd) as (st1 & Htc & Hls1 & Hrows1).
    destruct (processWebhook_finally_returns env st1) as (st2 & Hfin & _).
    destruct (processWebhook_outline env e w st1 st2 Htc Hfin)
      as (st & Hrun & _ & _ & Hdr & _).
    do 2 eexists. split; [exact Hrun|].
    split; [|split].
    + intros h Hh. destruct (Hh id Hp) as [Hlog Hstate].
      rewrite (rows_of_drive _ _ _ Hdr).
      rewrite (rows_of_finally_other env st1 st2 h _ Hls1 Hlog Hfin).
      rewrite (Hrows1 h Hstate). now apply drive_after_setup_unchanged.
    + intros h Hh. rewrite (rows_of_drive _ _ _ Hdr).
      etransitivity; [|apply (prefix_finally env st1 st2 h Hfin)].
      rewrite (Hrows1 h (Hh id Hp)). apply (prefix_after_setup env id (initial env w)).
    + intros h. rewrite (rows_of_drive _ _ _ Hdr).
      eapply rows_kept_trans; [|apply rows_kept_prefix, (prefix_finally env st1 st2 h Hfin)].
      eapply rows_kept_trans;
        [apply rows_kept_prefix, (prefix_after_setup env id (initial env w))|].
      destruct (same_sheet_dec h (state_sheet_of id)) as [->|Hne].
      * now apply (try_catch_state_rows env e w id st1).
      * rewrite (Hrows1 h Hne). apply rows_kept_refl.
Qed.

(** ** The status message when a value changed *)

Lemma or_else_na_name v : name_or_unset v ->
  (v = JNull /\ or_else (Some v) na = na) \/
  (exists s, v = JStr s /\ or_else (Some v) na = JStr s /\ JStr s <> na).
Proof.
  intros [->|(s & -> & Hs & Hna)]; [now left|].
  right. exists s. split; [reflexivity|]. split; [|exact Hna].
  unfold or_else. simpl. now rewrite Hs.
Qed.

Lemma strict_neq_strings s t : JStr s <> JStr t -> strict_neq (JStr s) (JStr t) = true.
Proof.
  intros Hne. unfold strict_neq. simpl. apply negb_true_iff, String.eqb_neq. congruence.
Qed.

Lemma shown_differs prev cur :
  name_or_unset prev -> name_or_unset cur -> prev <> cur ->
  strict_neq (or_else (Some cur) na) (or_else (Some prev) na) = true.
Proof.
  intros Hp Hc Hne.
  destruct (or_else_na_name prev Hp) as [[-> ->]|(s & -> & -> & Hs)];
    destruct (or_else_na_name cur Hc) as [[-> ->]|(t & -> & -> & Ht)].
  - congruence.
  - apply strict_neq_strings. exact Ht.
  - unfold na in *. apply strict_neq_strings. congruence.
  - apply strict_neq_strings. congruence.
Qed.

(** X8: When the status of the current record differs from the one shown for
    the previous record (for a new page, from no status), the status line
    of the message is the arrow line from the previous value to the
    current one, with the unset text for a null; the same for the
    assignee. This holds for values that are null or names other than the
    unset text itself. *)
Theorem createStatusChangeMessage_changed (previousInfo : option Info) (currentInfo : Info) :
  let before (field : Info -> json) :=
    match previousInfo with Some p => field p | None => JNull end in
  (name_or_unset (before status) -> name_or_unset (status currentInfo) ->
   before status <> status currentInfo ->
   exists tantoLine,
     createStatusChangeMessage previousInfo currentInfo
     = status_message_frame currentInfo
         (status_line_changed (shown_before status previousInfo)
            (or_else (Some (status currentInfo)) na))
         tantoLine) /\
  (name_or_unset (before tanto) -> name_or_unset (tanto currentInfo) ->
   before tanto <> tanto currentInfo ->
   exists statusLine,
     createStatusChangeMessage previousInfo currentInfo
     = status_message_frame currentInfo statusLine
         (tanto_line_changed (shown_before tanto previousInfo)
            (or_else (Some (tanto currentInfo)) na))).
Proof.
  intros before.
  assert (Hshown : forall field,
            shown_before field previousInfo = or_else (Some (before field)) na).
  { intros field. subst before. now destruct previousInfo. }
  split; intros Hp Hc Hne.
  - pose proof (shown_differs _ _ Hp Hc Hne) as Hd. rewrite <- Hshown in Hd.
    unfold createStatusChangeMessage. fold (shown_before status previousInfo).
    rewrite Hd. eexists. unfold status_message_frame. reflexivity.
  - pose proof (shown_differs _ _ Hp Hc Hne) as Hd. rewrite <- Hshown in Hd.
    unfold createStatusChangeMessage. fold (shown_before tanto previousInfo).
    rewrite Hd. eexists. unfold status_message_frame. reflexivity.
Qed.

Lemma createStatusChangeMessage_changed_witness :
  let c := {| kigyoMei := JStr "A社"; status := JStr "商談中"; tanto := JNull;
              sharoushi := JNull; pageUrl := JStr "URL不明"; lastEditedTime := "日時不明" |} in
  exists tantoLine,
    createStatusChangeMessage None c
    = status_message_frame c (status_line_changed na (JStr "商談中")) tantoLine.
Proof.
  intros c.
  destruct (createStatusChangeMessage_changed None c) as [Hs _].
  apply Hs.
  - now left.
  - right. exists "商談中". split; [reflexivity|]. split; [reflexivity|].
    intros E. vm_compute in E. discriminate E.
  - discriminate.
Defined.

(** ** The state store: pages do not interfere *)

Lemma updated_rows_inv `{Host} sh pageId rawProperties :
  state_inv sh ->
  let sh' := updated_rows pageId (Some rawProperties)
               (rowIndex_of (lookup_previous sh pageId)) sh in
  (exists k r, has_row sh pageId k /\ sh !! k = Some r /\
               sh' = <[k := <[1%nat := payload_cell (Some rawProperties)]> r]> sh) \/
  ((forall k, ~ has_row sh pageId k) /\
   sh' = sh ++ [[CVal pageId; payload_cell (Some rawProperties)]]).
Proof.
  intros Hinv sh'. subst sh'.
  pose proof (lookup_previous_inv sh pageId Hinv) as Hlook.
  unfold updated_rows. destruct (lookup_previous sh pageId) as [ps|].
  - left. destruct Hlook as (k & Hrow & Hk). pose proof Hrow as (Hk0 & r & key & Hr & _).
    exists k, r. split; [exact Hrow|]. split; [exact Hr|].
    cbn [rowIndex_of]. rewrite Hk.
    replace (-1 <? Z.of_nat k + 1) with true by (symmetry; apply Z.ltb_lt; lia).
    replace (Z.to_nat (Z.of_nat k + 1 - 1)) with k by lia.
    now apply set_cell_payload.
  - right. split; [exact Hlook | reflexivity].
Qed.

Lemma has_row_both sh a b k :
  has_row sh (JStr a) k -> has_row sh (JStr b) k -> a = b.
Proof.
  intros (_ & r & key & Hr & Hk & He) (_ & r' & key' & Hr' & Hk' & He').
  unfold sheet, row in *. rewrite Hr in Hr'. inversion Hr'; subst r'.
  rewrite Hk in Hk'. inversion Hk'; subst key'.
  apply strict_eq_primitive in He as [-> _]. apply strict_eq_primitive in He' as [E _].
  now inversion E.
Qed.

Lemma lookup_previous_ext `{Host} sh sh' pageId :
  state_inv sh -> state_inv sh' ->
  (forall j, has_row sh' pageId j <-> has_row sh pageId j) ->
  (forall j r, has_row sh pageId j -> sh !! j = Some r ->
     exists r', sh' !! j = Some r' /\ r' !! 1%nat = r !! 1%nat) ->
  lookup_previous sh' pageId = lookup_previous sh pageId.
Proof.
  intros Hinv Hinv' Hrows Hpay. unfold lookup_previous.
  destruct (last_match (getValues sh) pageId (length (getValues sh) - 1)) as [i|] eqn:Hm.
  - pose proof (last_match_has_row sh pageId i Hinv Hm) as Hrow.
    rewrite (has_row_last_match sh' pageId i Hinv' (proj2 (Hrows i) Hrow)).
    pose proof Hrow as (Hi & r & key & Hr & _).
    destruct (Hpay i r Hrow Hr) as (r' & Hr' & Hc).
    change (at_ (getValues sh') i CONFIG.SHEETS.STATE.COLUMN_INDEX.PROPERTIES_JSON)
      with (obs sh' i 1).
    change (at_ (getValues sh) i CONFIG.SHEETS.STATE.COLUMN_INDEX.PROPERTIES_JSON)
      with (obs sh i 1).
    destruct (obs_key_inv sh i r Hinv Hi Hr) as [_ ->].
    destruct (obs_key_inv sh' i r' Hinv' Hi Hr') as [_ ->].
    now rewrite Hc.
  - destruct (last_match (getValues sh') pageId (length (getValues sh') - 1)) as [i|] eqn:Hm';
      [|reflexivity].
    pose proof (last_match_has_row sh' pageId i Hinv' Hm') as Hrow.
    apply Hrows in Hrow. rewrite (has_row_last_match sh pageId i Hinv Hrow) in Hm.
    discriminate Hm.
Qed.

(** X6: On a state table that keeps its invariant, recording a sighting of
    one page does not change what the lookup returns for another page:
    the same row index and the same properties, or none as before. *)
Theorem getPreviousState_other_page `{Host} (stateSheet : Sheet) (pageId other : string)
    (rawProperties : json) (st : St) :
  JSON_round_trip ->
  state_inv (rows_of stateSheet (world st)) ->
  pageId <> other ->
  exists previousState st1 st2 otherState st3 st4,
    getPreviousState stateSheet (JStr other) st = (Ret otherState, st3) /\
    getPreviousState stateSheet (JStr pageId) st = (Ret previousState, st1) /\
    updateCurrentState stateSheet (JStr pageId) (Some rawProperties)
      (rowIndex_of previousState) st1 = (Ret tt, st2) /\
    getPreviousState stateSheet (JStr other) st2 = (Ret otherState, st4).
Proof.
  intros Hrt Hinv Hne.
  set (sh := rows_of stateSheet (world st)) in *.
  destruct (getPreviousState_eq stateSheet (JStr other) st) as (ls3 & E3).
  destruct (getPreviousState_eq stateSheet (JStr pageId) st) as (ls1 & E1).
  destruct (updateCurrentState_eq stateSheet (JStr pageId) (Some rawProperties)
              (rowIndex_of (lookup_previous sh (JStr pageId))) (add_logs ls1 st)
              (rowIndex_of_lookup_previous _ _)) as (ls2 & E2).
  set (st2 := add_logs ls2 _) in E2.
  destruct (getPreviousState_eq stateSheet (JStr other) st2) as (ls4 & E4).
  do 6 eexists. split; [exact E3|]. split; [exact E1|]. split; [exact E2|].
  rewrite E4. f_equal. f_equal.
  subst st2. cbn [world add_logs upd_world]. rewrite rows_of_set_rows. fold sh.
  destruct (updated_rows_inv sh (JStr pageId) rawProperties Hinv)
    as [(k & r & Hrow & Hr & ->)|(Hnone & ->)].
  - pose proof Hrow as (Hk & _).
    apply lookup_previous_ext; [exact Hinv | now apply state_inv_update | |].
    + intros j. now apply has_row_insert.
    + intros j rj Hj Hrj. unfold sheet, row in *.
      destruct (decide (j = k)) as [->|Hjk].
      * exfalso. apply Hne. now apply (has_row_both sh pageId other k).
      * exists rj. split; [|reflexivity]. now rewrite list_lookup_insert_ne by congruence.
  - apply lookup_previous_ext; [exact Hinv | now apply state_inv_append | |].
    + intros j. rewrite has_row_app. split; [|now left].
      intros [Hj|(_ & _ & key & Hk & He)]; [exact Hj|].
      inversion Hk; subst key. simpl in He. apply String.eqb_eq in He. congruence.
    + intros j rj Hj Hrj. exists rj. split; [|reflexivity].
      unfold sheet, row in *. rewrite lookup_app_l; [exact Hrj | now apply lookup_lt_Some in Hrj].
Qed.

Lemma getPreviousState_other_page_witness :
  let stored := [ header_row CONFIG.SHEETS.STATE.HEADERS ]
                ++ [[CVal (JStr "P2"); payload_cell (Some (JStr "kept"))]] in
  let st := initial demo_env (set_rows (state_sheet_of "SS1") stored demo_world) in
  exists previousState st1 st2 otherState st3 st4,
    getPreviousState (state_sheet_of "SS1") (JStr "P2") st = (Ret otherState, st3) /\
    getPreviousState (state_sheet_of "SS1") (JStr "P1") st = (Ret previousState, st1) /\
    updateCurrentState (state_sheet_of "SS1") (JStr "P1") (Some JNull)
      (rowIndex_of previousState) st1 = (Ret tt, st2) /\
    getPreviousState (state_sheet_of "SS1") (JStr "P2") st2 = (Ret otherState, st4).
Proof.
  intros stored st.
  apply (getPreviousState_other_page (state_sheet_of "SS1") "P1" "P2" JNull st).
  - exact MiniJSON_round_trip.
  - unfold st. cbn [world initial]. rewrite rows_of_set_rows.
    apply state_inv_append; [exact MiniJSON_round_trip | apply state_inv_fresh |].
    intros [|[|k]] (Hk & r & key & Hr & _); [lia | discriminate Hr | discriminate Hr].
  - discriminate.
Defined.

(** ** The trace *)

Lemma trace_from_push l line : preserves (trace_from l) (push line).
Proof.
  intros st Hst. rewrite push_eq. unfold trace_from in *. cbn [executionLogs add_logs].
  now apply prefix_app_r.
Qed.

Lemma trace_from_lift {A} l (o : outcome A) : preserves (trace_from l) (lift o).
Proof. intros st Hst. unfold lift. now destruct o. Qed.

Lemma trace_from_read `{Host} l v k : preserves (trace_from l) (read v k).
Proof. intros st Hst. now destruct v. Qed.

Ltac trace_step :=
  first
    [ apply preserves_ret | apply preserves_throw | apply trace_from_push
    | apply trace_from_lift | apply trace_from_read
    | apply preserves_bind; [|intros ?]
    | apply preserves_try_catch; [|intros ?]
    | match goal with
      | |- preserves _ (match ?x with _ => _ end) => destruct x
      | |- preserves _ (if ?x then _ else _) => destruct x
      | |- preserves _ (let '(_, _) := ?x in _) => destruct x
      end
    | solve [intros ? Hst; exact Hst] ].

Ltac trace_tac := repeat trace_step.

Section Trace.
Context `{Host} (env : Env) (l : list string).

Lemma loadConfig_trace : preserves (trace_from l) (loadConfig env).
Proof. unfold loadConfig. trace_tac. Qed.

Lemma getOrCreateSheet_trace id name headers :
  preserves (trace_from l) (getOrCreateSheet env id name headers).
Proof. unfold getOrCreateSheet, appendRow. trace_tac. Qed.

Lemma parseWebhookEvent_trace e : preserves (trace_from l) (parseWebhookEvent e).
Proof. unfold parseWebhookEvent. trace_tac. Qed.

Lemma extractNotionInfo_trace pd : preserves (trace_from l) (extractNotionInfo pd).
Proof. unfold extractNotionInfo. trace_tac. Qed.

Lemma getPreviousState_trace h pageId : preserves (trace_from l) (getPreviousState h pageId).
Proof.
  unfold getPreviousState. apply preserves_bind; [apply trace_from_push|]. intros _.
  apply preserves_bind; [intros ? Hst; exact Hst|]. intros w.
  generalize (length (getValues (rows_of h w)) - 1)%nat. intros i.
  induction i as [|j IH]; simpl; [trace_tac|].
  destruct (cell_strict_eq _ _); [trace_tac | exact IH].
Qed.

Lemma updateCurrentState_trace h pageId p r :
  preserves (trace_from l) (updateCurrentState h pageId p r).
Proof. unfold updateCurrentState, appendRow. trace_tac. Qed.

Lemma sendDiscordMessage_trace url payload :
  preserves (trace_from l) (sendDiscordMessage env url payload).
Proof. unfold sendDiscordMessage. trace_tac. Qed.

Lemma handleNotifications_trace p c config :
  preserves (trace_from l) (handleNotifications env p c config).
Proof.
  unfold handleNotifications.
  repeat first [ apply sendDiscordMessage_trace | trace_step ].
Qed.

Lemma logToSheet_trace h d : preserves (trace_from l) (logToSheet env h d).
Proof. unfold logToSheet, appendRow, Logger_log_. trace_tac. Qed.

Lemma processWebhook_try_trace e : preserves (trace_from l) (processWebhook_try env e).
Proof.
  unfold processWebhook_try.
  repeat first
    [ apply loadConfig_trace | apply getOrCreateSheet_trace | apply parseWebhookEvent_trace
    | apply extractNotionInfo_trace | apply getPreviousState_trace
    | apply handleNotifications_trace | apply updateCurrentState_trace
    | trace_step ].
Qed.

Lemma processWebhook_catch_trace err : preserves (trace_from l) (processWebhook_catch err).
Proof. unfold processWebhook_catch, Logger_log_. trace_tac. Qed.

Lemma processWebhook_finally_trace : preserves (trace_from l) (processWebhook_finally env).
Proof.
  unfold processWebhook_finally, Logger_log_.
  repeat first [ apply logToSheet_trace | trace_step ].
Qed.

End Trace.

Lemma processWebhook_outline_trace `{Host} env e w st1 st2 :
  try_catch (processWebhook_try env e) processWebhook_catch (initial env w) = (Ret tt, st1) ->
  processWebhook_finally env st1 = (Ret tt, st2) ->
  exists resp st,
    processWebhook env e w = (Ret resp, st) /\
    executionLogs st = executionLogs st2 ++ ["--- Webhook Execution End ---"] /\
    Logger_log (world st)
    = Logger_log (world st2) ++ [String.concat nl (executionLogs st)].
Proof.
  intros Htc Hfin. do 2 eexists. split.
  - unfold processWebhook, processWebhook_m, try_catch_finally.
    unfold bind at 1. rewrite Htc, Hfin. reflexivity.
  - split; reflexivity.
Qed.

(** X16: The trace only grows: whatever the event and the environment, the
    trace of an invocation begins with the start marker and ends with the
    end marker, and the last thing [Logger.log] receives is this trace,
    joined by line breaks. *)
Theorem processWebhook_trace `{Host} (env : Env) (e : option json) (w : Store) :
  exists resp st trace,
    processWebhook env e w = (Ret resp, st) /\
    executionLogs st
    = "--- Webhook Execution Start ---" :: trace ++ ["--- Webhook Execution End ---"] /\
    last (Logger_log (world st)) = Some (String.concat nl (executionLogs st)).
Proof.
  destruct (processWebhook_m_run env e (initial env w))
    as (st1 & st2 & _ & Htc & Hfin & _).
  assert (H1 : trace_from ["--- Webhook Execution Start ---"] st1).
  { pose proof (preserves_try_catch _ _ _
                  (processWebhook_try_trace env ["--- Webhook Execution Start ---"] e)
                  (processWebhook_catch_trace ["--- Webhook Execution Start ---"])
                  (initial env w)) as Hp.
    rewrite Htc in Hp. apply Hp. unfold trace_from. reflexivity. }
  assert (H2 : trace_from ["--- Webhook Execution Start ---"] st2).
  { pose proof (processWebhook_finally_trace env ["--- Webhook Execution Start ---"] st1 H1)
      as Hp.
    now rewrite Hfin in Hp. }
  destruct H2 as [trace Htrace].
  destruct (processWebhook_outline_trace env e w st1 st2 Htc Hfin)
    as (resp & st & Hrun & Hlogs & Hlg).
  exists resp, st, trace. split; [exact Hrun|]. split.
  - rewrite Hlogs, Htrace. reflexivity.
  - rewrite Hlg. apply last_snoc.
Qed.

(** ** Orchestrator: the same event again *)

Lemma set_cell_same k v sh r :
  sh !! k = Some r -> r !! 1%nat = Some v -> set_cell k 1 v sh = sh.
Proof.
  intros Hr Hv. rewrite (set_cell_in_range _ _ _ _ _ Hr).
  unfold sheet, row in *.
  rewrite (pad_length_le 2 blank r) by (apply lookup_lt_Some in Hv; lia).
  rewrite (list_insert_id r 1 v Hv). now apply list_insert_id.
Qed.

(** X18: After a call that was not fatal stored the properties of a page,
    the same event again leaves every sheet but the log sheet exactly as
    the first call left it: the state sheet keeps its rows, the row of the
    page included, and is not appended to. *)
Theorem processWebhook_replay `{Host} (env : Env) (e : option json) (w : Store)
    (resp1 : Response) (st1 : St) (page rawProperties : json) :
  JSON_round_trip ->
  state_sheets_have_header w ->
  processWebhook env e w = (Ret resp1, st1) -> r_status resp1 <> status_fatal ->
  event_page e = Some page -> get page "properties" = Some rawProperties ->
  primitive (pageId_of page) = true ->
  exists id resp2 st2,
    props env !! CONFIG.PROP_KEYS.SPREADSHEET_ID = Some id /\
    processWebhook env e (world st1) = (Ret resp2, st2) /\
    r_status resp2 <> status_fatal /\
    (forall h, h <> log_sheet_of env id -> rows_of h (world st2) = rows_of h (world st1)).
Proof.
  intros Hrt Hhdr Hrun1 Hnf Hev Hraw Hprim.
  destruct (first_run_stores env e w resp1 st1 Hrun1 Hnf Hhdr)
    as (id & cpd & info & Hp & Hn & Hev' & Hid & Hex & Hd & Hlog & Hstate & Hst).
  rewrite Hev in Hev'. inversion Hev'; subst cpd. clear Hev'.
  destruct (Hst Hprim) as (k & Hk). rewrite Hraw in Hk.
  destruct (processWebhook_page env e (world st1) id page info Hp Hn Hd Hev Hid Hex)
    as (resp2 & st2 & st_try & st_fin & Hrun2 & Htry & Hfin & Hls & Hstat & _ & _ & Hdr
        & Hrows).
  destruct (try_catch_after_setup env e (world st1) id Hp Hn Hd)
    as (st_tc & Htc & _ & Hother).
  unfold try_catch in Htc. rewrite Htry in Htc. inversion Htc; subst st_tc. clear Htc.
  rewrite (world_after_setup_exists env id (initial env (world st1)) Hlog Hstate) in *.
  cbn [world initial] in *.
  rewrite (stored_lookup _ _ _ _ rawProperties Hk (Hrt rawProperties)) in Hrows.
  cbn [rowIndex_of rowIndex] in Hrows.
  exists id, resp2, st2. split; [exact Hp|]. split; [exact Hrun2|]. split.
  { rewrite Hstat. destruct status_strings_distinct as [Hs Hpa].
    now destruct (existsb has_error _). }
  intros h Hh. rewrite (rows_of_drive _ _ _ Hdr).
  rewrite (rows_of_finally_other env st_try st_fin h _ Hls Hh Hfin).
  destruct (same_sheet_dec h (state_sheet_of id)) as [->|Hne]; [|now apply Hother].
  rewrite Hrows, Hraw. unfold updated_rows.
  replace (-1 <? Z.of_nat k + 1) with true by (symmetry; apply Z.ltb_lt; lia).
  replace (Z.to_nat (Z.of_nat k + 1 - 1)) with k by lia.
  destruct Hk as (_ & r & Hr & Hv). now apply (set_cell_same k _ _ r).
Qed.

Lemma processWebhook_replay_witness :
  exists resp1 st1 resp2 st2,
    processWebhook demo_env (post demo_body) demo_world = (Ret resp1, st1) /\
    processWebhook demo_env (post demo_body) (world st1) = (Ret resp2, st2) /\
    rows_of (state_sheet_of "SS1") (world st2) = rows_of (state_sheet_of "SS1") (world st1).
Proof.
  destruct (processWebhook demo_env (post demo_body) demo_world)
    as [[resp1|err] st1] eqn:E1.
  - pose proof E1 as E1'. vm_compute in E1'. injection E1' as Hresp Hst.
    destruct (processWebhook_replay demo_env (post demo_body) demo_world resp1 st1 demo_page
                (JObj [("担当", JObj [("select", JObj [("name", JStr "田中")])])]))
      as (id & resp2 & st2 & Hp & Hrun2 & _ & Hrows).
    + exact MiniJSON_round_trip.
    + exact demo_world_has_header.
    + exact E1.
    + rewrite <- Hresp. intros E. vm_compute in E. discriminate E.
    + vm_compute. reflexivity.
    + reflexivity.
    + reflexivity.
    + assert (Hid : id = "SS1") by (vm_compute in Hp; now injection Hp as <-).
      subst id. exists resp1, st1, resp2, st2. split; [reflexivity|]. split; [exact Hrun2|].
      apply Hrows. intros E. vm_compute in E. discriminate E.
  - vm_compute in E1. discriminate E1.
Defined.

(** ** The receipt-mail script: column indexes *)

Lemma names_spec key header :
  names key header = true <->
  exists s, header = CVal (JStr s) /\ nonempty s = true /\ js_trim s = key.
Proof.
  unfold names. split.
  - destruct header as [t|[| | |s| |]]; try discriminate.
    intros [Hn He]%andb_true_iff. apply String.eqb_eq in He. now exists s.
  - intros (s & -> & Hn & He). rewrite Hn. now apply String.eqb_eq in He as ->.
Qed.

Lemma last_named_spec key headers i :
  last_named key headers = Some i <->
  header_named key headers i /\
  forall j, (i < j)%nat -> ~ header_named key headers j.
Proof.
  revert i. induction headers as [|header rest IH]; intros i; simpl.
  - split; [discriminate|]. intros [(s & Hs & _) _]. discriminate Hs.
  - destruct (last_named key rest) as [k|] eqn:Hk.
    + destruct (proj1 (IH k) eq_refl) as [Hnk Hlast]. split.
      * intros E. inversion E; subst i. split.
        -- destruct Hnk as (s & Hs & Hn). now exists s.
        -- intros [|j] Hj; [lia|]. intros (s & Hs & Hn).
           apply (Hlast j); [lia|]. now exists s.
      * intros [Hi Hlater]. f_equal.
        destruct (lt_eq_lt_dec i (S k)) as [[Hlt|Heq]|Hgt]; [|exact (eq_sym Heq)|].
        -- exfalso. apply (Hlater (S k) Hlt). destruct Hnk as (s & Hs & Hn). now exists s.
        -- exfalso. destruct i as [|i]; [lia|]. apply (Hlast i); [lia|].
           destruct Hi as (s & Hs & Hn). now exists s.
    + assert (Hnone : forall j, ~ header_named key rest j).
      { intros j Hj.
        assert (Hex : exists k, last_named key rest = Some k).
        { clear IH Hk. revert j Hj. induction rest as [|h r IHr]; intros j (s & Hs & Hn).
          - discriminate Hs.
          - simpl. destruct (last_named key r) as [k|] eqn:E; [now eexists|].
            destruct j as [|j].
            + simpl in Hs. inversion Hs; subst h.
              assert (Hnm : names key (CVal (JStr s)) = true)
                by (apply names_spec; now exists s).
              rewrite Hnm. now eexists.
            + destruct (IHr j) as [k Hk']; [now exists s | discriminate Hk']. }
        destruct Hex as [k Hk']. congruence. }
      destruct (names key header) eqn:Hnm.
      * apply names_spec in Hnm as (s & -> & Hn & He). split.
        -- intros E. inversion E; subst i. split; [now exists s|].
           intros [|j] Hj; [lia|]. intros (s' & Hs' & Hn'). apply (Hnone j). now exists s'.
        -- intros [(s' & Hs' & Hn') _]. destruct i as [|i]; [reflexivity|].
           exfalso. apply (Hnone i). now exists s'.
      * split; [discriminate|]. intros [(s & Hs & Hn & He) _]. destruct i as [|i].
        -- simpl in Hs. inversion Hs; subst header.
           assert (names key (CVal (JStr s)) = true) by (apply names_spec; now exists s).
           congruence.
        -- exfalso. apply (Hnone i). now exists s.
Qed.

Lemma lookup_set_index key key' i indexes :
  key' <> "__proto__" ->
  set_index key i indexes !! key'
  = if String.eqb key key' then Some i else indexes !! key'.
Proof.
  intros Hp. unfold set_index. destruct (String.eqb key "__proto__") eqn:E.
  - apply String.eqb_eq in E. subst key.
    destruct (String.eqb "__proto__" key') eqn:E'; [|reflexivity].
    apply String.eqb_eq in E'. congruence.
  - destruct (String.eqb key key') eqn:E'.
    + apply String.eqb_eq in E'. subst key'. apply lookup_insert_eq.
    + apply String.eqb_neq in E'. now apply lookup_insert_ne.
Qed.

Lemma lookup_set_index_proto key i indexes :
  set_index key i indexes !! "__proto__" = indexes !! "__proto__".
Proof.
  unfold set_index. destruct (String.eqb key "__proto__") eqn:E; [reflexivity|].
  apply String.eqb_neq in E. now apply lookup_insert_ne.
Qed.

Lemma getColumnIndexes_from_spec TE headers :
  forall i indexes,
    match getColumnIndexes_from TE i headers indexes with
    | Ret result =>
        (forall k c, headers !! k = Some c -> cell_truthy c = true ->
                     exists s, c = CVal (JStr s)) /\
        (forall key, key <> "__proto__" ->
           result !! key = match last_named key headers with
                           | Some k => Some (i + k)%nat
                           | None => indexes !! key
                           end) /\
        result !! "__proto__" = indexes !! "__proto__"
    | Throw err =>
        err = TE "header.trim" /\
        exists k c, headers !! k = Some c /\ cell_truthy c = true /\
                    forall s, c <> CVal (JStr s)
    end.
Proof.
  induction headers as [|header rest IH]; intros i indexes; simpl.
  - split; [intros k c Hk; discriminate Hk|]. split; reflexivity.
  - assert (Hskip : forall indexes',
              (forall key, key <> "__proto__" ->
                 indexes' !! key = if names key header then Some i else indexes !! key) ->
              indexes' !! "__proto__" = indexes !! "__proto__" ->
              (cell_truthy header = true -> exists s, header = CVal (JStr s)) ->
              match getColumnIndexes_from TE (S i) rest indexes' with
              | Ret result =>
                  (forall k c, (header :: rest) !! k = Some c -> cell_truthy c = true ->
                               exists s, c = CVal (JStr s)) /\
                  (forall key, key <> "__proto__" ->
                     result !! key = match match last_named key rest with
                                           | Some k => Some (S k)
                                           | None => if names key header then Some 0%nat
                                                     else None
                                           end with
                                     | Some k => Some (i + k)%nat
                                     | None => indexes !! key
                                     end) /\
                  result !! "__proto__" = indexes !! "__proto__"
              | Throw err =>
                  err = TE "header.trim" /\
                  exists k c, (header :: rest) !! k = Some c /\ cell_truthy c = true /\
                              forall s, c <> CVal (JStr s)
              end).
    { intros indexes' Hidx Hproto Hstr. specialize (IH (S i) indexes').
      destruct (getColumnIndexes_from TE (S i) rest indexes') as [result|err].
      - destruct IH as (Hall & Hres & Hp). split; [|split].
        + intros [|k] c Hk Ht; [inversion Hk; subst c; now apply Hstr | now apply (Hall k)].
        + intros key Hkey. rewrite (Hres key Hkey).
          destruct (last_named key rest) as [k|]; [f_equal; lia|].
          rewrite (Hidx key Hkey). destruct (names key header); [f_equal; lia | reflexivity].
        + now rewrite Hp.
      - destruct IH as (-> & k & c & Hk & Ht & Hc). split; [reflexivity|].
        now exists (S k), c. }
    destruct (cell_truthy header) eqn:Ht.
    + destruct header as [t|v].
      * split; [reflexivity|]. exists 0%nat, (CDate t). repeat split. discriminate.
      * destruct v as [| b | n | s | l | ms];
          try (split; [reflexivity|]; eexists 0%nat, _; split; [reflexivity|];
               split; [exact Ht | discriminate]).
        apply Hskip.
        -- intros key Hkey. rewrite lookup_set_index by exact Hkey.
           simpl in Ht. unfold names. rewrite Ht. reflexivity.
        -- apply lookup_set_index_proto.
        -- intros _. now exists s.
    + apply Hskip.
      * intros key Hkey. destruct (names key header) eqn:Hnm; [|reflexivity].
        apply names_spec in Hnm as (s & -> & Hn & _). simpl in Ht. congruence.
      * reflexivity.
      * discriminate.
Qed.

(** X17: [getColumnIndexes] maps a name to the 0-based position of the last
    header that is a string, is not empty and trims to the name: a header
    that is empty is skipped but counted, a name that appears twice keeps
    the rightmost position, and white space around a name is ignored. It
    throws, with the host's [TypeError], exactly when some header is truthy
    and not a string (a number, a date, true). *)
Theorem getColumnIndexes_spec (TypeError_not_a_function : string -> Error)
    (headers : list cell) :
  match getColumnIndexes TypeError_not_a_function headers with
  | Ret indexes =>
      (forall k c, headers !! k = Some c -> cell_truthy c = true ->
                   exists s, c = CVal (JStr s)) /\
      (forall key i, key <> "__proto__" ->
         (indexes !! key = Some i <->
          header_named key headers i /\
          forall j, (i < j)%nat -> ~ header_named key headers j)) /\
      (forall key i, indexes !! key = Some i -> (i < length headers)%nat)
  | Throw err =>
      err = TypeError_not_a_function "header.trim" /\
      exists k c, headers !! k = Some c /\ cell_truthy c = true /\
                  forall s, c <> CVal (JStr s)
  end.
Proof.
  unfold getColumnIndexes.
  pose proof (getColumnIndexes_from_spec TypeError_not_a_function headers 0 ∅) as Hspec.
  destruct (getColumnIndexes_from TypeError_not_a_function 0 headers ∅) as [indexes|err];
    [|exact Hspec].
  destruct Hspec as (Hall & Hres & Hproto).
  assert (Hiff : forall key i, key <> "__proto__" ->
            (indexes !! key = Some i <->
             header_named key headers i /\
             forall j, (i < j)%nat -> ~ header_named key headers j)).
  { intros key i Hkey. rewrite (Hres key Hkey), <- last_named_spec.
    destruct (last_named key headers) as [k|]; [reflexivity|].
    rewrite lookup_empty. reflexivity. }
  split; [exact Hall|]. split; [exact Hiff|].
  intros key i Hi. destruct (String.eqb key "__proto__") eqn:E.
  - apply String.eqb_eq in E. subst key. rewrite Hproto, lookup_empty in Hi. discriminate Hi.
  - apply String.eqb_neq in E. apply (Hiff key i E) in Hi as [(s & Hs & _) _].
    now apply lookup_lt_Some in Hs.
Qed.

Lemma getColumnIndexes_demo :
  match getColumnIndexes demo_TypeError demo_headers with
  | Ret indexes =>
      [ indexes !! "契約主名"; indexes !! "メールアドレス"; indexes !! "処理ステータス";
        indexes !! EmptyString ]
  | Throw _ => []
  end
  = [ Some 4%nat; Some 2%nat; Some 3%nat; None ] /\
  getColumnIndexes demo_TypeError [CVal (JStr "契約主名"); CVal (JNum 2025)]
  = Throw (demo_TypeError "header.trim").
Proof. split; vm_compute; reflexivity. Qed.
